(** * German auto marketplace client: a shallow embedding

  The development follows the client of the repository:
  - [src/pages/Home.tsx]: the listing index with its filter panel
    ([fetchListings], [handleFilterChange], [applyFilters],
    [resetFilters], the brand -> model effect);
  - the listing details page ([fetchListing] and its three early returns);
  - the listing creation form ([handleSubmit], [fetchModels], the
    brand -> model effect);
  - the SQL migration (column types of [car_listings], the insert policy).

  JavaScript values are modelled as the language defines them: strings are
  sequences of UTF-16 code units, numbers are IEEE binary64 values (kept as
  the exact rational they denote), [undefined]/[null] is [None]. *)

From Stdlib Require Import List Bool Arith ZArith NArith QArith Qabs Lia.
From Stdlib Require Import String Ascii.
From Stdlib Require Import Permutation Sorted.
Import ListNotations.

Set Implicit Arguments.

(* ===================================================================== *)
(** * JavaScript strings *)
(* ===================================================================== *)

Module JsString.

(** A JavaScript string is a sequence of 16-bit code units. *)
Definition code_unit := N.
Definition jsstring := list code_unit.

(** Literals of the source are ASCII; [js "abc"] is the JavaScript string
    with the same characters. *)
Definition js (s : string) : jsstring :=
  List.map N_of_ascii (list_ascii_of_string s).

Fixpoint eqb (a b : jsstring) : bool :=
  match a, b with
  | [], [] => true
  | x :: a', y :: b' => (x =? y)%N && eqb a' b'
  | _, _ => false
  end.

(** [ToBoolean] on a string: only the empty string is falsy. *)
Definition truthy (s : jsstring) : bool :=
  match s with [] => false | _ :: _ => true end.

(** ECMAScript [WhiteSpace] and [LineTerminator] code points, the set that
    [String.prototype.trim] strips (all of them are in the BMP). *)
Definition is_white (c : code_unit) : bool :=
  ((9 <=? c) && (c <=? 13)            (* TAB, LF, VT, FF, CR *)
   || (c =? 32)                       (* SPACE *)
   || (c =? 160)                      (* NO-BREAK SPACE *)
   || (c =? 5760)                     (* OGHAM SPACE MARK *)
   || ((8192 <=? c) && (c <=? 8202))  (* EN QUAD .. HAIR SPACE *)
   || (c =? 8232) || (c =? 8233)      (* LS, PS *)
   || (c =? 8239) || (c =? 8287)      (* NNBSP, MMSP *)
   || (c =? 12288)                    (* IDEOGRAPHIC SPACE *)
   || (c =? 65279))%N.                (* ZERO WIDTH NO-BREAK SPACE *)

Fixpoint trimStart (s : jsstring) : jsstring :=
  match s with
  | [] => []
  | c :: s' => if is_white c then trimStart s' else s
  end.

Definition trimEnd (s : jsstring) : jsstring := rev (trimStart (rev s)).

(** [String.prototype.trim]. *)
Definition trim (s : jsstring) : jsstring := trimEnd (trimStart s).

(** [String.prototype.split(sep)] for a separator of one code unit (the
    only use in the source is [split(',')]).  The empty string splits into
    one empty field. *)
Fixpoint split (sep : code_unit) (s : jsstring) : list jsstring :=
  match s with
  | [] => [[]]
  | c :: s' =>
      if (c =? sep)%N then [] :: split sep s'
      else match split sep s' with
           | [] => [[c]]
           | f :: fs => (c :: f) :: fs
           end
  end.

Definition comma : code_unit := 44%N.

End JsString.

Import JsString.

(* ===================================================================== *)
(** * JavaScript numbers *)
(* ===================================================================== *)

Module JsNumber.

(** A Number is an IEEE binary64 value.  A finite one is kept as the exact
    rational it denotes, in lowest terms; the two zeros are identified
    (nothing in this program tells them apart: both are falsy, compare
    equal and serialise as [0]). *)
Inductive number : Type :=
| NaN
| Infinity (negative : bool)
| Fin (q : Q).

(** [ToBoolean] on a number: [0] and [NaN] are falsy. *)
Definition truthy (n : number) : bool :=
  match n with
  | NaN => false
  | Infinity _ => true
  | Fin q => negb (Qeq_bool q 0)
  end.

Definition Q_eqb (a b : Q) : bool :=
  Z.eqb (Qnum a) (Qnum b) && Pos.eqb (Qden a) (Qden b).

Definition eqb (a b : number) : bool :=
  match a, b with
  | NaN, NaN => true
  | Infinity s, Infinity t => Bool.eqb s t
  | Fin p, Fin q => Q_eqb p q
  | _, _ => false
  end.

(** [q * 2^k] for any integer [k]. *)
Definition Qscale2 (q : Q) (k : Z) : Q :=
  if (0 <=? k)%Z then q * inject_Z (2 ^ k) else q / inject_Z (2 ^ (- k)).

(** [q * 10^k] for any integer [k]. *)
Definition Qscale10 (q : Q) (k : Z) : Q :=
  if (0 <=? k)%Z then q * inject_Z (10 ^ k) else q / inject_Z (10 ^ (- k)).

(** Floor and round-half-to-even of a rational. *)
Definition Qfloor' (q : Q) : Z := (Qnum q / Zpos (Qden q))%Z.

Definition round_half_even (q : Q) : Z :=
  let f := Qfloor' q in
  let r := (Qnum q mod Zpos (Qden q))%Z in
  match (2 * r ?= Zpos (Qden q))%Z with
  | Lt => f
  | Gt => (f + 1)%Z
  | Eq => if Z.even f then f else (f + 1)%Z
  end.

(** [floor (log2 (n/d))] for positive [n], [d]. *)
Definition ilog2 (n d : positive) : Z :=
  let e := (Z.log2 (Zpos n) - Z.log2 (Zpos d))%Z in
  if Qle_bool (Qscale2 1 e) (Zpos n # d) then e else (e - 1)%Z.

(** Round a positive rational to the nearest binary64 value (ties to even):
    53 significant bits, least exponent [-1074] (subnormals), overflow to
    infinity from [2^1024]. *)
Definition round_pos (n d : positive) : number :=
  let e := Z.max (ilog2 n d) (-1022) in
  let m := round_half_even (Qscale2 (Zpos n # d) (52 - e)) in
  let v := Qscale2 (inject_Z m) (e - 52) in
  if Qle_bool (inject_Z (2 ^ 1024)) v then Infinity false else Fin (Qred v).

(** The Number value of a real (here rational) number. *)
Definition of_Q (q : Q) : number :=
  match Qnum q with
  | Z0 => Fin 0
  | Zpos n => round_pos n (Qden q)
  | Zneg n =>
      match round_pos n (Qden q) with
      | Fin v => Fin (Qred (- v))
      | Infinity _ => Infinity true
      | NaN => NaN
      end
  end.

Definition of_Z (z : Z) : number := of_Q (inject_Z z).

Definition neg (n : number) : number :=
  match n with
  | NaN => NaN
  | Infinity s => Infinity (negb s)
  | Fin q => Fin (Qred (- q))
  end.

(** ** Parsing: [parseInt] and [parseFloat] *)

Definition is_digit (c : code_unit) : bool := ((48 <=? c) && (c <=? 57))%N.

Definition digit_val (c : code_unit) : Z := Z.of_N (c - 48).

(** Value of a hexadecimal digit, if [c] is one. *)
Definition hex_val (c : code_unit) : option Z :=
  if is_digit c then Some (digit_val c)
  else if ((97 <=? c) && (c <=? 102))%N then Some (Z.of_N (c - 87))
  else if ((65 <=? c) && (c <=? 70))%N then Some (Z.of_N (c - 55))
  else None.

(** The longest prefix of decimal digits, and what follows it. *)
Fixpoint span_digits (s : jsstring) : jsstring * jsstring :=
  match s with
  | c :: s' =>
      if is_digit c then let (d, r) := span_digits s' in (c :: d, r)
      else ([], s)
  | [] => ([], [])
  end.

Definition digits_val (d : jsstring) : Z :=
  fold_left (fun acc c => (10 * acc + digit_val c)%Z) d 0%Z.

(** The hexadecimal digits at the front of [s], read as an integer ([acc] is
    the value so far, [seen] tells whether a digit was read). *)
Fixpoint hex_prefix (s : jsstring) (acc : Z) (seen : bool) : option Z :=
  match s with
  | c :: s' =>
      match hex_val c with
      | Some v => hex_prefix s' (16 * acc + v)%Z true
      | None => if seen then Some acc else None
      end
  | [] => if seen then Some acc else None
  end.

(** Strip one leading sign; the boolean tells whether it was a minus. *)
Definition strip_sign (s : jsstring) : bool * jsstring :=
  match s with
  | 45%N :: s' => (true, s')
  | 43%N :: s' => (false, s')
  | _ => (false, s)
  end.

(** [parseInt(string)] with no radix argument: leading white space is
    skipped, a sign is read, a [0x]/[0X] prefix selects radix 16, then the
    longest run of digits is read; no digit gives [NaN]. *)
Definition parseInt (input : jsstring) : number :=
  let (negative, s) := strip_sign (trimStart input) in
  let magnitude :=
    match s with
    | 48%N :: 120%N :: h | 48%N :: 88%N :: h => hex_prefix h 0 false
    | _ => match span_digits s with
           | ([], _) => None
           | (d, _) => Some (digits_val d)
           end
    end in
  match magnitude with
  | None => NaN
  | Some m => if negative then neg (of_Z m) else of_Z m
  end.

(** The exponent part [e][+-]digits at the front of [s]; [0] when there is
    none (an [e] that no digit follows is not part of the literal). *)
Definition exponent_part (s : jsstring) : Z :=
  match s with
  | 101%N :: r | 69%N :: r =>
      let (negative, r') := strip_sign r in
      match span_digits r' with
      | ([], _) => 0%Z
      | (d, _) => if negative then (- digits_val d)%Z else digits_val d
      end
  | _ => 0%Z
  end.

(** [parseFloat(string)]: the longest prefix of the trimmed input that is a
    [StrDecimalLiteral] ([Infinity], or digits with an optional fraction
    and exponent), [NaN] when there is none. *)
Definition parseFloat (input : jsstring) : number :=
  let (negative, s) := strip_sign (trimStart input) in
  let unsigned :=
    if JsString.eqb (firstn 8 s) (js "Infinity") then Infinity false
    else
      let (ip, r) := span_digits s in
      match r with
      | 46%N :: r' =>
          let (fp, r'') := span_digits r' in
          match ip, fp with
          | [], [] => NaN
          | _, _ =>
              of_Q (Qscale10 (inject_Z (digits_val (ip ++ fp)))
                      (exponent_part r'' - Z.of_nat (List.length fp)))
          end
      | _ =>
          match ip with
          | [] => NaN
          | _ => of_Q (Qscale10 (inject_Z (digits_val ip)) (exponent_part r))
          end
      end in
  if negative then neg unsigned else unsigned.

End JsNumber.

Import JsNumber.

(** ** Serialising a number

    [JSON.stringify] writes a finite number with the digits of
    [Number::toString]: the decimal with the fewest significant digits that
    still reads back as the same binary64 value ([k] as small as possible,
    then closest to the value, then even).  Only the value of that decimal
    matters here, so it is computed as a rational.  [NaN] and the infinities
    are written as [null]. *)

Module JsonNumber.

Fixpoint decade_up (fuel : nat) (x : Q) (n : Z) : Z :=
  match fuel with
  | O => n
  | S f => if Qle_bool (Qscale10 1 n) x then decade_up f x (n + 1) else n
  end.

Fixpoint decade_down (fuel : nat) (x : Q) (n : Z) : Z :=
  match fuel with
  | O => n
  | S f => if Qle_bool (Qscale10 1 (n - 1)) x then n else decade_down f x (n - 1)
  end.

(** The [n] with [10^(n-1) <= x < 10^n], for a positive binary64 value [x]
    (they lie between [10^-324] and [10^309]). *)
Definition decade (x : Q) : Z :=
  if Qle_bool 1 x then decade_up 400 x 1 else decade_down 400 x 0.

(** [s * 10^scale] if it reads back as [x]. *)
Definition reads_back (x : Q) (scale s : Z) : option Q :=
  let c := Qscale10 (inject_Z s) scale in
  if JsNumber.eqb (of_Q c) (Fin x) then Some (Qred c) else None.

Definition Qdist (a b : Q) : Q := Qabs (a - b).

(** The decimals with [k] significant digits next to [x], the one that
    reads back as [x] and is closest to it. *)
Definition with_digits (x : Q) (n : Z) (k : Z) : option Q :=
  let scale := (n - k)%Z in
  let lo := Qfloor' (Qscale10 x (- scale)) in
  match reads_back x scale lo, reads_back x scale (lo + 1) with
  | Some a, Some b =>
      match Qdist a x ?= Qdist b x with
      | Lt => Some a
      | Gt => Some b
      | Eq => if Z.even lo then Some a else Some b
      end
  | Some a, None => Some a
  | None, Some b => Some b
  | None, None => None
  end.

Fixpoint shortest_from (fuel : nat) (x : Q) (n : Z) (k : Z) : Q :=
  match fuel with
  | O => x
  | S f =>
      match with_digits x n k with
      | Some d => d
      | None => shortest_from f x n (k + 1)
      end
  end.

(** The value of the decimal that [Number::toString] prints for a positive
    binary64 value. *)
Definition shortest_decimal (x : Q) : Q := shortest_from 17 x (decade x) 1.

(** The value written on the wire for a number; [None] is JSON [null]. *)
Definition json_number (v : number) : option Q :=
  match v with
  | NaN | Infinity _ => None
  | Fin q =>
      match Qnum q with
      | Z0 => Some 0
      | Zpos _ => Some (shortest_decimal q)
      | Zneg _ => Some (Qred (- shortest_decimal (Qred (- q))))
      end
  end.

End JsonNumber.

(* ===================================================================== *)
(** * JavaScript values, errors and promises *)
(* ===================================================================== *)

Module Js.

(** The values a filter field can hold at run time ([undefined] is the
    absence of a value, [None]). *)
Inductive jsval : Type :=
| VStr (s : jsstring)
| VNum (n : number).

(** [ToBoolean], as used by [if (x)] and [x || y]. *)
Definition truthy (v : jsval) : bool :=
  match v with
  | VStr s => JsString.truthy s
  | VNum n => JsNumber.truthy n
  end.

Definition truthy_opt (v : option jsval) : bool :=
  match v with
  | Some x => truthy x
  | None => false
  end.

Definition jsval_eqb (a b : jsval) : bool :=
  match a, b with
  | VStr s, VStr t => JsString.eqb s t
  | VNum m, VNum n => JsNumber.eqb m n
  | _, _ => false
  end.

(** [Object.is] on two possibly undefined values (the comparison React
    makes on effect dependencies). *)
Definition object_is (a b : option jsval) : bool :=
  match a, b with
  | None, None => true
  | Some x, Some y => jsval_eqb x y
  | _, _ => false
  end.

(** What can be thrown or reported: whether it is an instance of [Error],
    and its [message]. *)
Record error_value : Type := {
  instanceof_Error : bool;
  message : jsstring
}.

(** [error instanceof Error ? error.message : 'An error occurred']. *)
Definition error_text (e : error_value) : jsstring :=
  if instanceof_Error e then message e else js "An error occurred".

(** What an awaited Supabase call resolves to: [{ data, error }]. *)
Record response (A : Type) : Type := {
  data : option A;
  error : option error_value
}.

(** An awaited promise is fulfilled with a value or rejected with a reason. *)
Inductive settled (A : Type) : Type :=
| Fulfilled (r : A)
| Rejected (reason : error_value).

Arguments Rejected {A} reason.

(** The error of a request that failed: the reason of a rejection, or the
    [error] of the answer. *)
Definition failure (A : Type) (r : settled (response A)) : option error_value :=
  match r with
  | Rejected e => Some e
  | Fulfilled res => error res
  end.

(** [data || []]. *)
Definition or_empty (A : Type) (d : option (list A)) : list A :=
  match d with
  | Some l => l
  | None => []
  end.

End Js.

Import Js.

(* ===================================================================== *)
(** * The schema of the migration *)
(* ===================================================================== *)

(** [CREATE TYPE car_condition AS ENUM ('new', 'used', 'certified')]. *)
Inductive car_condition : Type := cond_new | cond_used | cond_certified.

(** [CREATE TYPE transmission_type AS ENUM ('automatic', 'manual')]. *)
Inductive transmission_type : Type := automatic | manual.

Definition car_condition_label (c : car_condition) : jsstring :=
  match c with
  | cond_new => js "new"
  | cond_used => js "used"
  | cond_certified => js "certified"
  end.

Definition transmission_label (t : transmission_type) : jsstring :=
  match t with
  | automatic => js "automatic"
  | manual => js "manual"
  end.

(** Input of an enum column: the text has to be one of the labels. *)
Definition car_condition_in (s : jsstring) : option car_condition :=
  if JsString.eqb s (js "new") then Some cond_new
  else if JsString.eqb s (js "used") then Some cond_used
  else if JsString.eqb s (js "certified") then Some cond_certified
  else None.

Definition transmission_in (s : jsstring) : option transmission_type :=
  if JsString.eqb s (js "automatic") then Some automatic
  else if JsString.eqb s (js "manual") then Some manual
  else None.

(** Input of an [integer] column from a JSON number: a whole number in the
    range of 32 bits. *)
Definition integer_in (d : Q) : option Z :=
  let r := Qred d in
  if Pos.eqb (Qden r) 1 && (- 2 ^ 31 <=? Qnum r)%Z && (Qnum r <? 2 ^ 31)%Z
  then Some (Qnum r) else None.

(** Rounding to the nearest integer, halves away from zero (the rounding of
    [numeric]). *)
Definition round_half_away (q : Q) : Z :=
  let a := Qabs q in
  let m := Qfloor' (a + (1 # 2)) in
  if Qle_bool 0 q then m else (- m)%Z.

(** Input of a [decimal(12,2)] column: the value is rounded to two fraction
    digits and has to leave at most ten digits before the point.  The result
    is kept in hundredths. *)
Definition decimal_12_2_in (d : Q) : option Z :=
  let c := round_half_away (d * 100) in
  if (Z.abs c <? 10 ^ 12)%Z then Some c else None.

Module Brand.
(** A row of [car_brands]. *)
Record t : Type := {
  id : jsstring;
  name : jsstring;
  logo_url : option jsstring
}.
End Brand.

Module Model.
(** A row of [car_models]. *)
Record t : Type := {
  id : jsstring;
  brand_id : jsstring;
  name : jsstring
}.
End Model.

Module Profile.
(** A row of [profiles]. *)
Record t : Type := {
  id : jsstring;
  email : jsstring;
  full_name : option jsstring;
  phone : option jsstring
}.
End Profile.

Module Listing.
(** A row of [car_listings]; [price] is in hundredths, [created_at] is a
    point in time. *)
Record t : Type := {
  id : jsstring;
  seller_id : jsstring;
  brand_id : jsstring;
  model_id : jsstring;
  title : jsstring;
  description : option jsstring;
  year : Z;
  price : Z;
  mileage : Z;
  condition : car_condition;
  transmission : transmission_type;
  color : option jsstring;
  vin : option jsstring;
  images : list jsstring;
  created_at : Z
}.
End Listing.

(** The four tables. *)
Record database : Type := {
  profiles : list Profile.t;
  car_brands : list Brand.t;
  car_models : list Model.t;
  car_listings : list Listing.t
}.

(** The object that [handleSubmit] passes to [insert]: the values of
    [FormData.get] are strings or [null], the parsed fields are numbers. *)
Module NewListing.
Record t : Type := {
  seller_id : jsstring;
  brand_id : option jsstring;
  model_id : option jsstring;
  title : option jsstring;
  description : option jsstring;
  year : number;
  price : number;
  mileage : number;
  condition : option jsstring;
  transmission : option jsstring;
  color : option jsstring;
  vin : option jsstring;
  images : list jsstring
}.
End NewListing.

(** ** What the database does with an insert *)

Module Insert.

Inductive rejection : Type :=
| policy_violation      (* WITH CHECK (auth.uid() = seller_id) *)
| not_null_violation
| invalid_input
| foreign_key_violation.

(** The policy "Authenticated users can create listings":
    [TO authenticated WITH CHECK (auth.uid() = seller_id)]. *)
Definition policy_check (uid : option jsstring) (seller : jsstring) : bool :=
  match uid with
  | Some u => JsString.eqb u seller
  | None => false
  end.

Definition has_profile (db : database) (i : jsstring) : bool :=
  existsb (fun p => JsString.eqb (Profile.id p) i) (profiles db).

Definition has_brand (db : database) (i : jsstring) : bool :=
  existsb (fun b => JsString.eqb (Brand.id b) i) (car_brands db).

Definition has_model (db : database) (i : jsstring) : bool :=
  existsb (fun m => JsString.eqb (Model.id m) i) (car_models db).

Definition required (A : Type) (v : option A) : rejection + A :=
  match v with
  | Some a => inr a
  | None => inl not_null_violation
  end.

(** Conversion of a value to the type of its column; [null] stays [null]. *)
Definition convert (A B : Type) (f : A -> option B) (v : option A)
  : rejection + option B :=
  match v with
  | None => inr None
  | Some a =>
      match f a with
      | Some b => inr (Some b)
      | None => inl invalid_input
      end
  end.

Definition bind (A B : Type) (m : rejection + A) (k : A -> rejection + B)
  : rejection + B :=
  match m with
  | inl e => inl e
  | inr a => k a
  end.

Definition check (b : bool) (e : rejection) : rejection + unit :=
  if b then inr tt else inl e.

Notation "x <- m ;; k" := (bind m (fun x => k))
  (at level 61, m at next level, right associativity).

(** The row that an insert stores.  The values are first converted to the
    types of their columns, then the policy is checked, then [NOT NULL],
    then the foreign keys.  [new_id] and [now] are the defaults
    [gen_random_uuid()] and [now()]. *)
Definition row (db : database) (uid : option jsstring) (new_id : jsstring)
  (now : Z) (r : NewListing.t) : rejection + Listing.t :=
  y <- convert integer_in (JsonNumber.json_number (NewListing.year r)) ;;
  p <- convert decimal_12_2_in (JsonNumber.json_number (NewListing.price r)) ;;
  m <- convert integer_in (JsonNumber.json_number (NewListing.mileage r)) ;;
  c <- convert car_condition_in (NewListing.condition r) ;;
  t <- convert transmission_in (NewListing.transmission r) ;;
  _ <- check (policy_check uid (NewListing.seller_id r)) policy_violation ;;
  brand <- required (NewListing.brand_id r) ;;
  model <- required (NewListing.model_id r) ;;
  title <- required (NewListing.title r) ;;
  year <- required y ;;
  price <- required p ;;
  mileage <- required m ;;
  condition <- required c ;;
  transmission <- required t ;;
  _ <- check (has_profile db (NewListing.seller_id r)) foreign_key_violation ;;
  _ <- check (has_brand db brand) foreign_key_violation ;;
  _ <- check (has_model db model) foreign_key_violation ;;
  inr {| Listing.id := new_id;
         Listing.seller_id := NewListing.seller_id r;
         Listing.brand_id := brand;
         Listing.model_id := model;
         Listing.title := title;
         Listing.description := NewListing.description r;
         Listing.year := year;
         Listing.price := price;
         Listing.mileage := mileage;
         Listing.condition := condition;
         Listing.transmission := transmission;
         Listing.color := NewListing.color r;
         Listing.vin := NewListing.vin r;
         Listing.images := NewListing.images r;
         Listing.created_at := now |}.

End Insert.

(* ===================================================================== *)
(** * The query builder of the Supabase client *)
(* ===================================================================== *)

Module Postgrest.

Inductive operator : Type := op_eq | op_gte | op_lte.

(** One call of [.eq], [.gte] or [.lte]. *)
Record filter : Type := {
  column : string;
  op : operator;
  value : jsval
}.

(** A read request as the chained calls build it. *)
Record query : Type := {
  table : string;
  columns : list string;
  order_by : option (string * bool);   (* column, ascending *)
  filters : list filter;
  single_row : bool
}.

Definition from (t : string) : query :=
  {| table := t; columns := []; order_by := None; filters := [];
     single_row := false |}.

Definition select (cols : list string) (q : query) : query :=
  {| table := table q; columns := cols; order_by := order_by q;
     filters := filters q; single_row := single_row q |}.

Definition order (col : string) (ascending : bool) (q : query) : query :=
  {| table := table q; columns := columns q;
     order_by := Some (col, ascending);
     filters := filters q; single_row := single_row q |}.

Definition add_filter (f : filter) (q : query) : query :=
  {| table := table q; columns := columns q; order_by := order_by q;
     filters := filters q ++ [f]; single_row := single_row q |}.

Definition eq (col : string) (v : jsval) : query -> query :=
  add_filter {| column := col; op := op_eq; value := v |}.

Definition gte (col : string) (v : jsval) : query -> query :=
  add_filter {| column := col; op := op_gte; value := v |}.

Definition lte (col : string) (v : jsval) : query -> query :=
  add_filter {| column := col; op := op_lte; value := v |}.

Definition single (q : query) : query :=
  {| table := table q; columns := columns q; order_by := order_by q;
     filters := filters q; single_row := true |}.

(** ** What the service answers to a read

    The filters of a request are combined with AND, and the rows come in
    the requested order.  [holds] is the meaning of one filter on one row,
    [before] the order of two rows. *)
Section Select.

Variable Row : Type.
Variable holds : filter -> Row -> bool.
Variable before : Row -> Row -> bool.

Fixpoint insert_ordered (r : Row) (l : list Row) : list Row :=
  match l with
  | [] => [r]
  | x :: l' => if before r x then r :: l else x :: insert_ordered r l'
  end.

Definition ordered (l : list Row) : list Row :=
  fold_right insert_ordered [] l.

Definition matches (fs : list filter) (r : Row) : bool :=
  forallb (fun f => holds f r) fs.

Definition rows (fs : list filter) (t : list Row) : list Row :=
  ordered (List.filter (matches fs) t).

(** [.single()]: exactly one row, or an error and no data. *)
Definition single_of (no_single_row : error_value) (l : list Row)
  : response Row :=
  match l with
  | [r] => {| data := Some r; error := None |}
  | _ => {| data := None; error := Some no_single_row |}
  end.

End Select.

(** The meaning of a filter on a row of [car_listings], for the columns and
    value types that the [Filters] interface allows, once its operand has
    been taken as input for the column (see [listing_operand_ok] below).
    A number is compared through the decimal that the client writes for
    it. *)
Definition compare (o : operator) (col v : Q) : bool :=
  match o with
  | op_eq => Qeq_bool col v
  | op_gte => Qle_bool v col
  | op_lte => Qle_bool col v
  end.

(** A number that has no decimal is written [Infinity], [-Infinity] or
    [NaN]; [numeric] takes the three (PostgreSQL 14 and later) and orders
    [NaN] above every other value. *)
Definition compare_special (o : operator) (n : number) : bool :=
  match o, n with
  | op_gte, Infinity negative => negative
  | op_lte, Infinity negative => negb negative
  | op_lte, NaN => true
  | _, _ => false
  end.

Definition on_number (o : operator) (col : Q) (v : jsval) : bool :=
  match v with
  | VNum n =>
      match JsonNumber.json_number n with
      | Some d => compare o col d
      | None => compare_special o n
      end
  | VStr _ => false
  end.

Definition on_text (o : operator) (col : jsstring) (v : jsval) : bool :=
  match o, v with
  | op_eq, VStr s => JsString.eqb col s
  | _, _ => false
  end.

Definition listing_holds (f : filter) (l : Listing.t) : bool :=
  let c := column f in
  if String.eqb c "id" then on_text (op f) (Listing.id l) (value f)
  else if String.eqb c "brand_id" then
    on_text (op f) (Listing.brand_id l) (value f)
  else if String.eqb c "model_id" then
    on_text (op f) (Listing.model_id l) (value f)
  else if String.eqb c "transmission" then
    on_text (op f) (transmission_label (Listing.transmission l)) (value f)
  else if String.eqb c "condition" then
    on_text (op f) (car_condition_label (Listing.condition l)) (value f)
  else if String.eqb c "price" then
    on_number (op f) (Listing.price l # 100) (value f)
  else if String.eqb c "year" then
    on_number (op f) (inject_Z (Listing.year l)) (value f)
  else if String.eqb c "mileage" then
    on_number (op f) (inject_Z (Listing.mileage l)) (value f)
  else false.

(** ** Input of an operand

    The service receives the operand of a filter as text, converts it to
    the type of the column it is compared with, and answers the whole
    request with an error when the conversion fails.  The client writes a
    number as its decimal: an [integer] column takes it when it is whole
    and within 32 bits (so [2018.5], [1e+21] and [Infinity] are refused),
    the [decimal] column takes every number.  An enum column takes its
    labels.  Ids are kept as their canonical text, and every text is
    taken for an id. *)
Definition integer_operand (v : jsval) : bool :=
  match v with
  | VNum n =>
      match JsonNumber.json_number n with
      | Some d =>
          match integer_in d with
          | Some _ => true
          | None => false
          end
      | None => false
      end
  | VStr _ => false
  end.

Definition decimal_operand (v : jsval) : bool :=
  match v with
  | VNum _ => true
  | VStr _ => false
  end.

Definition enum_operand (A : Type) (input : jsstring -> option A) (v : jsval)
  : bool :=
  match v with
  | VStr s =>
      match input s with
      | Some _ => true
      | None => false
      end
  | VNum _ => false
  end.

Definition id_operand (v : jsval) : bool :=
  match v with
  | VStr _ => true
  | VNum _ => false
  end.

(** Whether the operand of a filter on [car_listings] is taken. *)
Definition listing_operand_ok (f : filter) : bool :=
  let c := column f in
  if String.eqb c "id" then id_operand (value f)
  else if String.eqb c "brand_id" then id_operand (value f)
  else if String.eqb c "model_id" then id_operand (value f)
  else if String.eqb c "transmission" then
    enum_operand transmission_in (value f)
  else if String.eqb c "condition" then
    enum_operand car_condition_in (value f)
  else if String.eqb c "price" then decimal_operand (value f)
  else if String.eqb c "year" then integer_operand (value f)
  else if String.eqb c "mileage" then integer_operand (value f)
  else false.

(** [ORDER BY created_at DESC]. *)
Definition newest_first (a b : Listing.t) : bool :=
  (Listing.created_at b <=? Listing.created_at a)%Z.

(** Text columns are ordered by code units. *)
Fixpoint text_le (a b : jsstring) : bool :=
  match a, b with
  | [], _ => true
  | _ :: _, [] => false
  | x :: a', y :: b' =>
      if (x <? y)%N then true
      else if (y <? x)%N then false
      else text_le a' b'
  end.

Definition model_holds (f : filter) (m : Model.t) : bool :=
  if String.eqb (column f) "brand_id" then
    on_text (op f) (Model.brand_id m) (value f)
  else false.

Definition model_by_name (a b : Model.t) : bool :=
  text_le (Model.name a) (Model.name b).

Definition brand_by_name (a b : Brand.t) : bool :=
  text_le (Brand.name a) (Brand.name b).

End Postgrest.

(* ===================================================================== *)
(** * Event handlers of a component *)
(* ===================================================================== *)

(** A handler or effect of a function component runs against the state of
    the render it was created in (the values its closure captured) and
    queues state updates; updater functions ([setX(prev => ...)]) see the
    queued state.  It also performs outside calls, collected in order.

    An [async] function runs until its first [await], and later from one
    [await] to the next: each such stretch is one run. *)
Module Handler.

Inductive completion (A : Type) : Type :=
| Normal (a : A)                  (* ran to the end of the block *)
| Returned                        (* [return] *)
| Thrown (e : error_value)        (* [throw], or a failing operation *)
| Suspended.                      (* stopped at an [await] *)

Arguments Returned {A}.
Arguments Thrown {A} e.
Arguments Suspended {A}.

Section Monad.

Variable State : Type.    (* the state variables of the component *)
Variable Call : Type.     (* calls that leave the component *)

Definition t (A : Type) : Type :=
  State -> State -> completion A * State * list Call.

Definition ret (A : Type) (a : A) : t A :=
  fun _ st => (Normal a, st, []).

Definition bind (A B : Type) (m : t A) (k : A -> t B) : t B :=
  fun snap st =>
    match m snap st with
    | (Normal a, st1, cs1) =>
        let '(c, st2, cs2) := k a snap st1 in (c, st2, cs1 ++ cs2)
    | (Returned, st1, cs1) => (Returned, st1, cs1)
    | (Thrown e, st1, cs1) => (Thrown e, st1, cs1)
    | (Suspended, st1, cs1) => (Suspended, st1, cs1)
    end.

(** Reading a state variable: the value of the render. *)
Definition read (A : Type) (get : State -> A) : t A :=
  fun snap st => (Normal (get snap), st, []).

(** [setX(v)] and [setX(prev => f prev)]. *)
Definition update (f : State -> State) : t unit :=
  fun _ st => (Normal tt, f st, []).

Definition call (c : Call) : t unit :=
  fun _ st => (Normal tt, st, [c]).

(** [await c]: the call is made and the function stops until it settles. *)
Definition await (A : Type) (c : Call) : t A :=
  fun _ st => (Suspended, st, [c]).

Definition throw (A : Type) (e : error_value) : t A :=
  fun _ st => (Thrown e, st, []).

Definition return_ (A : Type) : t A :=
  fun _ st => (Returned, st, []).

(** The value an [await] resumes with: the result, or the rejection thrown. *)
Definition awaited (A : Type) (r : settled A) : t A :=
  match r with
  | Fulfilled a => ret a
  | Rejected e => throw A e
  end.

(** Reading something that is not a captured variable (the document): its
    value at the time of the run. *)
Definition peek (A : Type) (get : State -> A) : t A :=
  fun _ st => (Normal (get st), st, []).

(** Calling an [async] function without awaiting it: it runs up to its
    first [await] and the caller goes on. *)
Definition start (A : Type) (h : t A) : t unit :=
  fun snap st => let '(_, st', cs) := h snap st in (Normal tt, st', cs).

(** [try { body } catch (error) { handler error } finally { cleanup }].
    A body that stops at an [await] leaves both clauses for the run that
    finishes it. *)
Definition try_catch_finally (body : t unit) (handler : error_value -> t unit)
  (cleanup : t unit) : t unit :=
  fun snap st =>
    match body snap st with
    | (Suspended, st1, cs1) => (Suspended, st1, cs1)
    | (Thrown e, st1, cs1) =>
        let '(c2, st2, cs2) := handler e snap st1 in
        let '(c3, st3, cs3) := cleanup snap st2 in
        (match c3 with Normal _ => c2 | _ => c3 end, st3, cs1 ++ cs2 ++ cs3)
    | (c1, st1, cs1) =>
        let '(c3, st3, cs3) := cleanup snap st1 in
        (match c3 with Normal _ => c1 | _ => c3 end, st3, cs1 ++ cs3)
    end.

(** [try { body } catch (error) { handler error }]. *)
Definition try_catch (body : t unit) (handler : error_value -> t unit)
  : t unit :=
  try_catch_finally body handler (ret tt).

(** Running a handler in a render with state [st]: the state of the next
    render and the calls made. *)
Definition run (A : Type) (h : t A) (st : State) : State * list Call :=
  let '(_, st', cs) := h st st in (st', cs).

End Monad.

Arguments ret {State Call A} a.
Arguments bind {State Call A B} m k.
Arguments read {State Call A} get.
Arguments update {State Call} f.
Arguments call {State Call} c.
Arguments await {State Call A} c.
Arguments throw {State Call A} e.
Arguments return_ {State Call A}.
Arguments awaited {State Call A} r.
Arguments peek {State Call A} get.
Arguments start {State Call A} h.
Arguments try_catch_finally {State Call} body handler cleanup.
Arguments try_catch {State Call} body handler.
Arguments run {State Call A} h st.

End Handler.

Declare Scope handler_scope.
Delimit Scope handler_scope with handler.
Notation "x <- m ;; k" := (Handler.bind m (fun x => k))
  (at level 61, m at next level, right associativity) : handler_scope.
Notation "m ;; k" := (Handler.bind m (fun _ => k))
  (at level 61, right associativity) : handler_scope.

Import Postgrest.
Local Open Scope string_scope.
Local Open Scope list_scope.
Local Open Scope handler_scope.

(* ===================================================================== *)
(** * The listing index: [Home] *)
(* ===================================================================== *)

Module Home.

(** A row of the listing read: the columns of [car_listings] with the
    embedded names. *)
Record CarListing : Type := {
  row : Listing.t;
  car_brands : option jsstring;
  car_models : option jsstring
}.

Definition CarBrand : Type := Brand.t.
Definition CarModel : Type := Model.t.

(** [interface Filters]: every field is optional.  At run time a field
    holds whatever [handleFilterChange] was given. *)
Record Filters : Type := {
  brand_id : option jsval;
  model_id : option jsval;
  minPrice : option jsval;
  maxPrice : option jsval;
  minYear : option jsval;
  maxYear : option jsval;
  minMileage : option jsval;
  maxMileage : option jsval;
  transmission : option jsval;
  condition : option jsval
}.

(** [{}]. *)
Definition no_filters : Filters :=
  {| brand_id := None; model_id := None; minPrice := None; maxPrice := None;
     minYear := None; maxYear := None; minMileage := None;
     maxMileage := None; transmission := None; condition := None |}.

(** The types that [interface Filters] declares for the fields: [string]
    for the brand, the model, the transmission and the condition, [number]
    for the six bounds. *)
Definition is_string (v : option jsval) : bool :=
  match v with
  | Some (VNum _) => false
  | _ => true
  end.

Definition is_number (v : option jsval) : bool :=
  match v with
  | Some (VStr _) => false
  | _ => true
  end.

Definition typed (f : Filters) : bool :=
  is_string (brand_id f) && is_string (model_id f)
  && is_number (minPrice f) && is_number (maxPrice f)
  && is_number (minYear f) && is_number (maxYear f)
  && is_number (minMileage f) && is_number (maxMileage f)
  && is_string (transmission f) && is_string (condition f).

(** The field names that the filter panel passes to [handleFilterChange]. *)
Inductive field : Type :=
| f_brand_id | f_model_id | f_minPrice | f_maxPrice | f_minYear | f_maxYear
| f_minMileage | f_maxMileage | f_transmission | f_condition.

Definition get (name : field) (f : Filters) : option jsval :=
  match name with
  | f_brand_id => brand_id f
  | f_model_id => model_id f
  | f_minPrice => minPrice f
  | f_maxPrice => maxPrice f
  | f_minYear => minYear f
  | f_maxYear => maxYear f
  | f_minMileage => minMileage f
  | f_maxMileage => maxMileage f
  | f_transmission => transmission f
  | f_condition => condition f
  end.

(** [{ ...prev, [name]: value }]. *)
Definition set (name : field) (v : option jsval) (p : Filters) : Filters :=
  {| brand_id := match name with f_brand_id => v | _ => brand_id p end;
     model_id := match name with f_model_id => v | _ => model_id p end;
     minPrice := match name with f_minPrice => v | _ => minPrice p end;
     maxPrice := match name with f_maxPrice => v | _ => maxPrice p end;
     minYear := match name with f_minYear => v | _ => minYear p end;
     maxYear := match name with f_maxYear => v | _ => maxYear p end;
     minMileage := match name with f_minMileage => v | _ => minMileage p end;
     maxMileage := match name with f_maxMileage => v | _ => maxMileage p end;
     transmission :=
       match name with f_transmission => v | _ => transmission p end;
     condition := match name with f_condition => v | _ => condition p end |}.

(** The state variables of the component. *)
Record State : Type := {
  listings : list CarListing;
  loading : bool;
  brands : list CarBrand;
  models : list CarModel;
  filters : Filters;
  showFilters : bool
}.

(** The [useState] initial values. *)
Definition initial : State :=
  {| listings := []; loading := true; brands := []; models := [];
     filters := no_filters; showFilters := false |}.

Definition setListings (v : list CarListing) (s : State) : State :=
  {| listings := v; loading := loading s; brands := brands s;
     models := models s; filters := filters s;
     showFilters := showFilters s |}.

Definition setLoading (v : bool) (s : State) : State :=
  {| listings := listings s; loading := v; brands := brands s;
     models := models s; filters := filters s;
     showFilters := showFilters s |}.

Definition setBrands (v : list CarBrand) (s : State) : State :=
  {| listings := listings s; loading := loading s; brands := v;
     models := models s; filters := filters s;
     showFilters := showFilters s |}.

Definition setModels (v : list CarModel) (s : State) : State :=
  {| listings := listings s; loading := loading s; brands := brands s;
     models := v; filters := filters s; showFilters := showFilters s |}.

Definition setFilters (f : Filters -> Filters) (s : State) : State :=
  {| listings := listings s; loading := loading s; brands := brands s;
     models := models s; filters := f (filters s);
     showFilters := showFilters s |}.

Definition setShowFilters (v : bool) (s : State) : State :=
  {| listings := listings s; loading := loading s; brands := brands s;
     models := models s; filters := filters s; showFilters := v |}.

(** What leaves the component. *)
Inductive call : Type :=
| Select (q : query)
| ConsoleError (label : string) (e : error_value).

Definition handler : Type -> Type := Handler.t State call.

(** [if (v) query = query.f(column, v)]: the branch is taken when the
    value is truthy. *)
Definition when_truthy (v : option jsval) (f : jsval -> query -> query)
  (q : query) : query :=
  match v with
  | Some x => if truthy x then f x q else q
  | None => q
  end.

(** The request that [fetchListings] builds from the filters it sees. *)
Definition listings_query (filters : Filters) : query :=
  let query :=
    order "created_at" false
      (select ["*"; "car_brands (name)"; "car_models (name)"]
         (from "car_listings")) in
  let query := when_truthy (brand_id filters) (eq "brand_id") query in
  let query := when_truthy (model_id filters) (eq "model_id") query in
  let query := when_truthy (minPrice filters) (gte "price") query in
  let query := when_truthy (maxPrice filters) (lte "price") query in
  let query := when_truthy (minYear filters) (gte "year") query in
  let query := when_truthy (maxYear filters) (lte "year") query in
  let query := when_truthy (minMileage filters) (gte "mileage") query in
  let query := when_truthy (maxMileage filters) (lte "mileage") query in
  let query := when_truthy (transmission filters) (eq "transmission") query in
  let query := when_truthy (condition filters) (eq "condition") query in
  query.

Definition log_error (label : string) (e : error_value) : handler unit :=
  Handler.call (ConsoleError label e).

(** [fetchListings], up to [await query]. *)
Definition fetchListings : handler unit :=
  Handler.try_catch_finally
    (filters <- Handler.read filters ;;
     Handler.await (Select (listings_query filters)))
    (log_error "Error fetching listings:")
    (Handler.update (setLoading false)).

(** [fetchListings], from the settled request on. *)
Definition fetchListings_resumed (r : settled (response (list CarListing)))
  : handler unit :=
  Handler.try_catch_finally
    (res <- Handler.awaited r ;;
     match error res with
     | Some e => Handler.throw e
     | None => Handler.update (setListings (or_empty (data res)))
     end)
    (log_error "Error fetching listings:")
    (Handler.update (setLoading false)).

(** [fetchBrands]; the [error] of the answer is not looked at. *)
Definition fetchBrands : handler unit :=
  Handler.try_catch
    (Handler.await
       (Select (order "name" true (select ["*"] (from "car_brands")))))
    (log_error "Error fetching brands:").

Definition fetchBrands_resumed (r : settled (response (list CarBrand)))
  : handler unit :=
  Handler.try_catch
    (res <- Handler.awaited r ;;
     Handler.update (setBrands (or_empty (data res))))
    (log_error "Error fetching brands:").

(** [fetchModels(brandId)]; the [error] of the answer is not looked at. *)
Definition fetchModels (brandId : jsval) : handler unit :=
  Handler.try_catch
    (Handler.await
       (Select (order "name" true
                  (eq "brand_id" brandId (select ["*"] (from "car_models"))))))
    (log_error "Error fetching models:").

Definition fetchModels_resumed (r : settled (response (list CarModel)))
  : handler unit :=
  Handler.try_catch
    (res <- Handler.awaited r ;;
     Handler.update (setModels (or_empty (data res))))
    (log_error "Error fetching models:").

(** The effect with dependency [filters.brand_id]. *)
Definition brand_effect : handler unit :=
  filters <- Handler.read filters ;;
  match brand_id filters with
  | Some b =>
      if truthy b then Handler.start (fetchModels b)
      else
        Handler.update (setModels []) ;;
        Handler.update (setFilters (set f_model_id None))
  | None =>
      Handler.update (setModels []) ;;
      Handler.update (setFilters (set f_model_id None))
  end.

(** The effect with no dependency (it runs after the first render). *)
Definition mount_effect : handler unit :=
  Handler.start fetchBrands ;;
  Handler.start fetchListings.

Definition handleFilterChange (name : field) (value : option jsval)
  : handler unit :=
  Handler.update (setFilters (set name value)).

Definition applyFilters : handler unit :=
  Handler.update (setLoading true) ;;
  Handler.start fetchListings ;;
  Handler.update (setShowFilters false).

Definition resetFilters : handler unit :=
  Handler.update (setFilters (fun _ => no_filters)) ;;
  Handler.update (setLoading true) ;;
  Handler.start fetchListings ;;
  Handler.update (setShowFilters false).

Definition toggleFilters : handler unit :=
  shown <- Handler.read showFilters ;;
  Handler.update (setShowFilters (negb shown)).

(** What can happen to the mounted component. *)
Inductive event : Type :=
| Mounted
| ToggleFilters
| FilterChange (name : field) (value : option jsval)
| ApplyFilters
| ResetFilters
| BrandsSettled (r : settled (response (list CarBrand)))
| ModelsSettled (r : settled (response (list CarModel)))
| ListingsSettled (r : settled (response (list CarListing))).

Definition on_event (ev : event) : handler unit :=
  match ev with
  | Mounted => mount_effect ;; brand_effect
  | ToggleFilters => toggleFilters
  | FilterChange name value => handleFilterChange name value
  | ApplyFilters => applyFilters
  | ResetFilters => resetFilters
  | BrandsSettled r => fetchBrands_resumed r
  | ModelsSettled r => fetchModels_resumed r
  | ListingsSettled r => fetchListings_resumed r
  end.

(** One event: its handler runs in the current render; in the next render
    the brand effect runs if [filters.brand_id] is not the same value as
    before (the effect never changes [brand_id], so once is enough). *)
Definition step (ev : event) (st : State) : State * list call :=
  let (st1, cs1) := Handler.run (on_event ev) st in
  if object_is (brand_id (filters st)) (brand_id (filters st1)) then (st1, cs1)
  else let (st2, cs2) := Handler.run brand_effect st1 in (st2, cs1 ++ cs2).

Fixpoint steps (evs : list event) (st : State) : State * list call :=
  match evs with
  | [] => (st, [])
  | ev :: evs' =>
      let (st1, cs1) := step ev st in
      let (st2, cs2) := steps evs' st1 in
      (st2, cs1 ++ cs2)
  end.

(** The handlers of the filter panel's controls. *)
Definition onSelect (name : field) (target_value : jsstring) : event :=
  FilterChange name
    (if JsString.truthy target_value then Some (VStr target_value) else None).

End Home.

(* ===================================================================== *)
(** * The listing page: [ListingDetails] *)
(* ===================================================================== *)

Module ListingDetails.

(** A row of the detail read, with the embedded brand, model and seller. *)
Record CarListing : Type := {
  row : Listing.t;
  car_brands : option jsstring;
  car_models : option jsstring;
  profiles : option (option jsstring * jsstring)   (* full_name, email *)
}.

Record State : Type := {
  listing : option CarListing;
  loading : bool;
  error : option jsstring
}.

Definition initial : State :=
  {| listing := None; loading := true; error := None |}.

Definition setListing (v : option CarListing) (s : State) : State :=
  {| listing := v; loading := loading s; error := error s |}.

Definition setLoading (v : bool) (s : State) : State :=
  {| listing := listing s; loading := v; error := error s |}.

Definition setError (v : option jsstring) (s : State) : State :=
  {| listing := listing s; loading := loading s; error := v |}.

Inductive call : Type :=
| Select (q : query).

Definition handler : Type -> Type := Handler.t State call.

Definition listing_query (listingId : jsstring) : query :=
  single
    (eq "id" (VStr listingId)
       (select ["*"; "car_brands (name)"; "car_models (name)";
                "profiles (full_name, email)"]
          (from "car_listings"))).

(** [fetchListing(listingId)], up to the [await]. *)
Definition fetchListing (listingId : jsstring) : handler unit :=
  Handler.try_catch_finally
    (Handler.await (Select (listing_query listingId)))
    (fun e => Handler.update (setError (Some (error_text e))))
    (Handler.update (setLoading false)).

(** [fetchListing], from the settled request on. *)
Definition fetchListing_resumed (r : settled (response CarListing))
  : handler unit :=
  Handler.try_catch_finally
    (res <- Handler.awaited r ;;
     match Js.error res with
     | Some e => Handler.throw e
     | None => Handler.update (setListing (data res))
     end)
    (fun e => Handler.update (setError (Some (error_text e))))
    (Handler.update (setLoading false)).

(** The effect with dependency [id]: [if (id) fetchListing(id)]. *)
Definition id_effect (id : option jsstring) : handler unit :=
  match id with
  | Some i => if JsString.truthy i then Handler.start (fetchListing i)
              else Handler.ret tt
  | None => Handler.ret tt
  end.

Inductive event : Type :=
| Mounted (id : option jsstring)
| ListingSettled (r : settled (response CarListing)).

Definition on_event (ev : event) : handler unit :=
  match ev with
  | Mounted id => id_effect id
  | ListingSettled r => fetchListing_resumed r
  end.

Definition step (ev : event) (st : State) : State * list call :=
  Handler.run (on_event ev) st.

Fixpoint steps (evs : list event) (st : State) : State * list call :=
  match evs with
  | [] => (st, [])
  | ev :: evs' =>
      let (st1, cs1) := step ev st in
      let (st2, cs2) := steps evs' st1 in
      (st2, cs1 ++ cs2)
  end.

(** What the component returns: the three early returns, then the page. *)
Inductive view : Type :=
| Loading
| ErrorText (text : jsstring)
| ListingNotFound
| Details (l : CarListing).

Definition render (st : State) : view :=
  if loading st then Loading
  else
    match error st with
    | Some e =>
        if JsString.truthy e then ErrorText e
        else match listing st with
             | None => ListingNotFound
             | Some l => Details l
             end
    | None =>
        match listing st with
        | None => ListingNotFound
        | Some l => Details l
        end
    end.

End ListingDetails.

(* ===================================================================== *)
(** * The creation form: [ListingCreate] *)
(* ===================================================================== *)

Module ListingCreate.

Definition CarBrand : Type := Brand.t.
Definition CarModel : Type := Model.t.

(** The controls of the form that React does not control: their values
    live in the document. *)
Record Controls : Type := {
  title : jsstring;
  model : jsstring;
  year : jsstring;
  price : jsstring;
  mileage : jsstring;
  condition : jsstring;
  transmission : jsstring;
  color : jsstring;
  vin : jsstring;
  images : jsstring;
  description : jsstring
}.

Definition blank : Controls :=
  {| title := []; model := []; year := []; price := []; mileage := [];
     condition := []; transmission := []; color := []; vin := [];
     images := []; description := [] |}.

Inductive control : Type :=
| c_title | c_model | c_year | c_price | c_mileage | c_condition
| c_transmission | c_color | c_vin | c_images | c_description.

Definition set_control (name : control) (v : jsstring) (c : Controls)
  : Controls :=
  {| title := match name with c_title => v | _ => title c end;
     model := match name with c_model => v | _ => model c end;
     year := match name with c_year => v | _ => year c end;
     price := match name with c_price => v | _ => price c end;
     mileage := match name with c_mileage => v | _ => mileage c end;
     condition := match name with c_condition => v | _ => condition c end;
     transmission :=
       match name with c_transmission => v | _ => transmission c end;
     color := match name with c_color => v | _ => color c end;
     vin := match name with c_vin => v | _ => vin c end;
     images := match name with c_images => v | _ => images c end;
     description :=
       match name with c_description => v | _ => description c end |}.

(** The state variables of the component, and the document's controls. *)
Record State : Type := {
  loading : bool;
  error : option jsstring;
  brands : list CarBrand;
  models : list CarModel;
  selectedBrand : jsstring;
  controls : Controls
}.

Definition initial : State :=
  {| loading := false; error := None; brands := []; models := [];
     selectedBrand := []; controls := blank |}.

Definition setLoading (v : bool) (s : State) : State :=
  {| loading := v; error := error s; brands := brands s; models := models s;
     selectedBrand := selectedBrand s; controls := controls s |}.

Definition setError (v : option jsstring) (s : State) : State :=
  {| loading := loading s; error := v; brands := brands s;
     models := models s; selectedBrand := selectedBrand s;
     controls := controls s |}.

Definition setBrands (v : list CarBrand) (s : State) : State :=
  {| loading := loading s; error := error s; brands := v;
     models := models s; selectedBrand := selectedBrand s;
     controls := controls s |}.

Definition setModels (v : list CarModel) (s : State) : State :=
  {| loading := loading s; error := error s; brands := brands s;
     models := v; selectedBrand := selectedBrand s;
     controls := controls s |}.

Definition setSelectedBrand (v : jsstring) (s : State) : State :=
  {| loading := loading s; error := error s; brands := brands s;
     models := models s; selectedBrand := v; controls := controls s |}.

Definition setControls (f : Controls -> Controls) (s : State) : State :=
  {| loading := loading s; error := error s; brands := brands s;
     models := models s; selectedBrand := selectedBrand s;
     controls := f (controls s) |}.

(** ** The form as the document sees it *)

(** The values offered by the model select: the placeholder and one option
    per fetched model. *)
Definition model_options (st : State) : list jsstring :=
  [] :: List.map Model.id (models st).

Definition brand_options (st : State) : list jsstring :=
  [] :: List.map Brand.id (brands st).

Definition condition_options : list jsstring :=
  [[]; js "new"; js "used"; js "certified"].

Definition transmission_options : list jsstring :=
  [[]; js "automatic"; js "manual"].

Definition offered (v : jsstring) (options : list jsstring) : bool :=
  existsb (JsString.eqb v) options.

(** The model select is [disabled={!selectedBrand}]. *)
Definition model_disabled (st : State) : bool :=
  negb (JsString.truthy (selectedBrand st)).

(** After a render the model select shows one of its options: when the
    chosen option is gone the first one (the placeholder) is selected. *)
Definition rendered (st : State) : State :=
  if offered (model (controls st)) (model_options st) then st
  else setControls (set_control c_model []) st.

(** [FormData]: the named controls in document order, disabled ones left
    out; [get] is the first value under a name, or [null]. *)
Definition FormData : Type := list (string * jsstring).

Fixpoint get (fd : FormData) (name : string) : option jsstring :=
  match fd with
  | [] => None
  | (n, v) :: fd' => if String.eqb n name then Some v else get fd' name
  end.

Definition form_data (st : State) : FormData :=
  let c := controls st in
  [("title", title c); ("brand", selectedBrand st)]
  ++ (if model_disabled st then [] else [("model", model c)])
  ++ [("year", year c); ("price", price c); ("mileage", mileage c);
      ("condition", condition c); ("transmission", transmission c);
      ("color", color c); ("vin", vin c); ("images", images c);
      ("description", description c)].

(** What [e.currentTarget] is when [new FormData(e.currentTarget)] runs:
    the form, or a value that is not a form, on which the constructor
    throws [thrown].  The expression is evaluated after the first [await],
    when the dispatch of the submit event is over.  React resets
    [e.currentTarget] to [null] when the listener returns, so the mounted
    component only ever sees the second case (see [dispatched] below); the
    first case says what the rest of the handler does with a form at hand,
    and statements about every insert range over both. *)
Inductive currentTarget : Type :=
| TheForm
| NotAForm (thrown : error_value).

(** [x as string] where a string operation follows: [ToString(null)] is
    ["null"]. *)
Definition as_string (v : option jsstring) : jsstring :=
  match v with
  | Some s => s
  | None => js "null"
  end.

(** [images.split(',').map(url => url.trim()).filter(url => url)]. *)
Definition imageArray (images : jsstring) : list jsstring :=
  List.filter JsString.truthy (List.map trim (split comma images)).

(** The authenticated identity of [supabase.auth.getUser()]. *)
Record User : Type := { id : jsstring }.

Inductive call : Type :=
| PreventDefault
| Select (q : query)
| GetUser
| Insert (rows : list NewListing.t)
| Navigate (path : string)
| ConsoleError (label : string) (e : error_value).

Definition handler : Type -> Type := Handler.t State call.

Definition log_error (label : string) (e : error_value) : handler unit :=
  Handler.call (ConsoleError label e).

(** [fetchBrands]. *)
Definition fetchBrands : handler unit :=
  Handler.try_catch
    (Handler.await
       (Select (order "name" true (select ["*"] (from "car_brands")))))
    (log_error "Error fetching brands:").

Definition fetchBrands_resumed (r : settled (response (list CarBrand)))
  : handler unit :=
  Handler.try_catch
    (res <- Handler.awaited r ;;
     match Js.error res with
     | Some e => Handler.throw e
     | None => Handler.update (setBrands (or_empty (data res)))
     end)
    (log_error "Error fetching brands:").

(** [fetchModels(brandId)]. *)
Definition fetchModels (brandId : jsstring) : handler unit :=
  Handler.try_catch
    (Handler.await
       (Select (order "name" true
                  (eq "brand_id" (VStr brandId)
                     (select ["*"] (from "car_models"))))))
    (log_error "Error fetching models:").

Definition fetchModels_resumed (r : settled (response (list CarModel)))
  : handler unit :=
  Handler.try_catch
    (res <- Handler.awaited r ;;
     match Js.error res with
     | Some e => Handler.throw e
     | None => Handler.update (setModels (or_empty (data res)))
     end)
    (log_error "Error fetching models:").

(** The effect with dependency [selectedBrand]. *)
Definition brand_effect : handler unit :=
  selectedBrand <- Handler.read selectedBrand ;;
  if JsString.truthy selectedBrand then Handler.start (fetchModels selectedBrand)
  else Handler.update (setModels []).

(** The object given to [insert]. *)
Definition new_listing (user : User) (formData : FormData)
  (imageArray : list jsstring) : NewListing.t :=
  {| NewListing.seller_id := id user;
     NewListing.brand_id := get formData "brand";
     NewListing.model_id := get formData "model";
     NewListing.title := get formData "title";
     NewListing.description := get formData "description";
     NewListing.year := parseInt (as_string (get formData "year"));
     NewListing.price := parseFloat (as_string (get formData "price"));
     NewListing.mileage := parseInt (as_string (get formData "mileage"));
     NewListing.condition := get formData "condition";
     NewListing.transmission := get formData "transmission";
     NewListing.color := get formData "color";
     NewListing.vin := get formData "vin";
     NewListing.images := imageArray |}.

(** The row that a submission sends when the form is at hand. *)
Definition submitted (user : User) (st : State) : NewListing.t :=
  new_listing user (form_data st) (imageArray (images (controls st))).

(** Calling [split] on [null] throws a [TypeError]. *)
Definition null_has_no_split : error_value :=
  {| instanceof_Error := true;
     message := js "Cannot read properties of null (reading 'split')" |}.

Definition on_failure (e : error_value) : handler unit :=
  Handler.update (setError (Some (error_text e))).

(** [handleSubmit], up to [await supabase.auth.getUser()]. *)
Definition handleSubmit : handler unit :=
  Handler.call PreventDefault ;;
  Handler.update (setLoading true) ;;
  Handler.update (setError None) ;;
  Handler.try_catch_finally
    (Handler.await GetUser)
    on_failure
    (Handler.update (setLoading false)).

(** [handleSubmit], from the settled [getUser] up to [await ... insert];
    [target] is what [e.currentTarget] evaluates to at that moment, which
    on the mounted component is never the form. *)
Definition handleSubmit_user (r : settled (option User)) (target : currentTarget)
  : handler unit :=
  Handler.try_catch_finally
    (user <- Handler.awaited r ;;
     match user with
     | None => Handler.call (Navigate "/login") ;; Handler.return_
     | Some user =>
         formData <-
           match target with
           | TheForm => Handler.peek form_data
           | NotAForm e => Handler.throw e
           end ;;
         images <-
           match get formData "images" with
           | Some s => Handler.ret s
           | None => Handler.throw null_has_no_split
           end ;;
         let imageArray := imageArray images in
         Handler.await (Insert [new_listing user formData imageArray])
     end)
    on_failure
    (Handler.update (setLoading false)).

(** [handleSubmit], from the settled insert to the end. *)
Definition handleSubmit_inserted (r : settled (response unit))
  : handler unit :=
  Handler.try_catch_finally
    (res <- Handler.awaited r ;;
     match Js.error res with
     | Some listingError => Handler.throw listingError
     | None => Handler.call (Navigate "/")
     end)
    on_failure
    (Handler.update (setLoading false)).

(** What can happen to the mounted form. *)
Inductive event : Type :=
| Mounted
| SelectBrand (target_value : jsstring)
| Input (name : control) (v : jsstring)
| Submit
| BrandsSettled (r : settled (response (list CarBrand)))
| ModelsSettled (r : settled (response (list CarModel)))
| UserSettled (r : settled (option User)) (target : currentTarget)
| InsertSettled (r : settled (response unit)).

(** A change the user can make to a control: a select only takes one of
    its options, the model select only while it is enabled. *)
Definition can_input (name : control) (v : jsstring) (st : State) : bool :=
  match name with
  | c_model => negb (model_disabled st) && offered v (model_options st)
  | c_condition => offered v condition_options
  | c_transmission => offered v transmission_options
  | _ => true
  end.

Definition on_event (ev : event) : handler unit :=
  match ev with
  | Mounted => Handler.start fetchBrands ;; brand_effect
  | SelectBrand v =>
      options <- Handler.read brand_options ;;
      if offered v options then Handler.update (setSelectedBrand v)
      else Handler.ret tt
  | Input name v =>
      ok <- Handler.read (can_input name v) ;;
      if ok then Handler.update (setControls (set_control name v))
      else Handler.ret tt
  | Submit => handleSubmit
  | BrandsSettled r => fetchBrands_resumed r
  | ModelsSettled r => fetchModels_resumed r
  | UserSettled r target => handleSubmit_user r target
  | InsertSettled r => handleSubmit_inserted r
  end.

(** One event: the handler runs, the brand effect runs in the next render
    if [selectedBrand] changed, and the document shows the new render. *)
Definition step (ev : event) (st : State) : State * list call :=
  let (st1, cs1) := Handler.run (on_event ev) st in
  if JsString.eqb (selectedBrand st) (selectedBrand st1)
  then (rendered st1, cs1)
  else let (st2, cs2) := Handler.run brand_effect st1 in
       (rendered st2, cs1 ++ cs2).

Fixpoint steps (evs : list event) (st : State) : State * list call :=
  match evs with
  | [] => (st, [])
  | ev :: evs' =>
      let (st1, cs1) := step ev st in
      let (st2, cs2) := steps evs' st1 in
      (st2, cs1 ++ cs2)
  end.

(** The seller ids of the rows that a list of calls inserts. *)
Definition inserted_sellers (cs : list call) : list jsstring :=
  flat_map (fun c => match c with
                     | Insert rows => List.map NewListing.seller_id rows
                     | _ => []
                     end) cs.

(** The paths that a list of calls navigates to. *)
Definition navigations (cs : list call) : list string :=
  flat_map (fun c => match c with
                     | Navigate path => [path]
                     | _ => []
                     end) cs.

(** [{error && <div>...</div>}]: the message is shown when it is truthy. *)
Definition error_shown (st : State) : option jsstring :=
  match error st with
  | Some e => if JsString.truthy e then Some e else None
  | None => None
  end.

(** ** The submit event as React dispatches it

    [onSubmit={handleSubmit}] is called with React's synthetic event.
    React sets [e.currentTarget] to the form for the time the listener
    runs and back to [null] when the listener returns, and an [async]
    listener returns at its first [await].  When [handleSubmit] resumes
    after [await supabase.auth.getUser()], [e.currentTarget] is [null] and
    [new FormData(null)] throws a [TypeError]; its text is the browser's. *)
Definition not_a_form (text : jsstring) : error_value :=
  {| instanceof_Error := true; message := text |}.

(** The events that the mounted form receives: when [handleSubmit]
    resumes, the form is not at hand and what is thrown is an [Error]. *)
Definition dispatched (ev : event) : bool :=
  match ev with
  | UserSettled _ TheForm => false
  | UserSettled _ (NotAForm thrown) => instanceof_Error thrown
  | _ => true
  end.

(** A submission by a signed-in user, as it runs: the submit event, then
    the answer of [getUser]. *)
Definition submission (user : User) (text : jsstring) : list event :=
  [Submit; UserSettled (Fulfilled (Some user)) (NotAForm (not_a_form text))].

(** The error with which a stretch of [handleSubmit] fails, if the event
    is such a failure: [getUser] rejects, the [FormData] constructor
    throws, the insert rejects or is answered with an error. *)
Definition submission_failure (ev : event) : option error_value :=
  match ev with
  | UserSettled (Rejected e) _ => Some e
  | UserSettled (Fulfilled (Some _)) (NotAForm thrown) => Some thrown
  | InsertSettled r => failure r
  | _ => None
  end.

(** The rows that a list of calls inserts. *)
Definition inserted_rows (cs : list call) : list NewListing.t :=
  flat_map (fun c => match c with
                     | Insert rows => rows
                     | _ => []
                     end) cs.

End ListingCreate.

(* ===================================================================== *)
(** * The answers of the service to the reads of the client *)
(* ===================================================================== *)

Module Backend.

Definition brand_name (db : database) (i : jsstring) : option jsstring :=
  option_map Brand.name
    (find (fun b => JsString.eqb (Brand.id b) i) (car_brands db)).

Definition model_name (db : database) (i : jsstring) : option jsstring :=
  option_map Model.name
    (find (fun m => JsString.eqb (Model.id m) i) (car_models db)).

Definition seller (db : database) (i : jsstring)
  : option (option jsstring * jsstring) :=
  option_map (fun p => (Profile.full_name p, Profile.email p))
    (find (fun p => JsString.eqb (Profile.id p) i) (profiles db)).

Definition ok (A : Type) (a : A) : response A :=
  {| data := Some a; error := None |}.

(** The rows of [car_listings] that a request selects, in its order, once
    the service has taken its operands (see [listings]). *)
Definition listing_rows (db : database) (q : query) : list Listing.t :=
  rows listing_holds newest_first (filters q) (car_listings db).

Definition home_row (db : database) (l : Listing.t) : Home.CarListing :=
  {| Home.row := l;
     Home.car_brands := brand_name db (Listing.brand_id l);
     Home.car_models := model_name db (Listing.model_id l) |}.

Definition details_row (db : database) (l : Listing.t)
  : ListingDetails.CarListing :=
  {| ListingDetails.row := l;
     ListingDetails.car_brands := brand_name db (Listing.brand_id l);
     ListingDetails.car_models := model_name db (Listing.model_id l);
     ListingDetails.profiles := seller db (Listing.seller_id l) |}.

(** The answer to the read of [Home.fetchListings]: the selected rows, or
    no data and the error [invalid_input] that the service reports when an
    operand is not taken as input for its column. *)
Definition listings (invalid_input : error_value) (db : database) (q : query)
  : response (list Home.CarListing) :=
  if forallb listing_operand_ok (filters q)
  then ok (List.map (home_row db) (listing_rows db q))
  else {| data := None; error := Some invalid_input |}.

(** The brand and the model of a filter set are ids of the database, as
    are the values that the two selects of the panel offer.  (The ids of a
    database are uuids in their canonical text; for them equality of texts
    is equality of ids.) *)
Definition known_id (has : jsstring -> bool) (v : option jsval) : bool :=
  match v with
  | Some (VStr s) => negb (JsString.truthy s) || has s
  | _ => true
  end.

Definition known_ids (db : database) (f : Home.Filters) : bool :=
  known_id (Insert.has_brand db) (Home.brand_id f)
  && known_id (Insert.has_model db) (Home.model_id f).

(** The answer to the read of [ListingDetails.fetchListing]; [no_single_row]
    is the error that the client reports when [.single()] does not find
    exactly one row. *)
Definition listing (no_single_row : error_value) (db : database) (q : query)
  : response ListingDetails.CarListing :=
  single_of no_single_row (List.map (details_row db) (listing_rows db q)).

(** The answer to the read of [fetchModels]. *)
Definition model_rows (db : database) (q : query) : list Model.t :=
  rows model_holds model_by_name (filters q) (car_models db).

Definition models (db : database) (q : query) : response (list Model.t) :=
  ok (model_rows db q).

(** The models of one brand, as [ListingCreate.fetchModels] asks for them. *)
Definition models_of_brand (db : database) (brandId : jsstring)
  : list Model.t :=
  model_rows db
    (order "name" true
       (eq "brand_id" (VStr brandId) (select ["*"] (from "car_models")))).


End Backend.

(* ===================================================================== *)
(** * The statements of the specification, in its own words *)
(* ===================================================================== *)

(** "a comma-separated string of URLs, split and trimmed into an ordered
    list, empty entries discarded". *)
Module ImagesSpec.

(** The fields written one after the other with [sep] between them. *)
Fixpoint join (sep : code_unit) (fields : list jsstring) : jsstring :=
  match fields with
  | [] => []
  | [f] => f
  | f :: fs => f ++ sep :: join sep fs
  end.

(** [fields] are the comma-separated fields of [s]. *)
Definition split_at_commas (s : jsstring) (fields : list jsstring) : Prop :=
  fields <> [] /\ join comma fields = s /\
  Forall (fun f => ~ In comma f) fields.

Definition all_white (l : jsstring) : Prop :=
  Forall (fun c => is_white c = true) l.

Definition no_white_ends (u : jsstring) : Prop :=
  (forall c, hd_error u = Some c -> is_white c = false) /\
  (forall c, hd_error (rev u) = Some c -> is_white c = false).

(** [u] is [t] without the white space at its two ends. *)
Definition trimmed_of (t u : jsstring) : Prop :=
  exists l r, t = l ++ u ++ r /\ all_white l /\ all_white r /\
              no_white_ends u.

Definition nonempty (u : jsstring) : bool :=
  match u with
  | [] => false
  | _ :: _ => true
  end.

(** [out] is the image list of the input [s]. *)
Definition image_list (s : jsstring) (out : list jsstring) : Prop :=
  exists fields trimmed,
    split_at_commas s fields /\ Forall2 trimmed_of fields trimmed /\
    out = List.filter nonempty trimmed.

Definition separator_or_white (c : code_unit) : Prop :=
  c = comma \/ is_white c = true.

End ImagesSpec.

(** "For each present optional field, apply an equality predicate (brand
    id, model id, transmission, condition) or a range predicate
    (price/year/mileage: >= for min, <= for max)". *)
Module FilterSpec.

Import Home.

Definition all_fields : list field :=
  [f_brand_id; f_model_id; f_minPrice; f_maxPrice; f_minYear; f_maxYear;
   f_minMileage; f_maxMileage; f_transmission; f_condition].

(** The predicate that belongs to a field. *)
Definition predicate_of (name : field) (v : jsval) : filter :=
  match name with
  | f_brand_id => {| column := "brand_id"; op := op_eq; value := v |}
  | f_model_id => {| column := "model_id"; op := op_eq; value := v |}
  | f_minPrice => {| column := "price"; op := op_gte; value := v |}
  | f_maxPrice => {| column := "price"; op := op_lte; value := v |}
  | f_minYear => {| column := "year"; op := op_gte; value := v |}
  | f_maxYear => {| column := "year"; op := op_lte; value := v |}
  | f_minMileage => {| column := "mileage"; op := op_gte; value := v |}
  | f_maxMileage => {| column := "mileage"; op := op_lte; value := v |}
  | f_transmission => {| column := "transmission"; op := op_eq; value := v |}
  | f_condition => {| column := "condition"; op := op_eq; value := v |}
  end.

(** As the specification states it: every present field contributes its
    predicate, whatever its value. *)
Definition of_present (f : Filters) (name : field) : list filter :=
  match get name f with
  | Some v => [predicate_of name v]
  | None => []
  end.

Definition present_filters (f : Filters) : list filter :=
  flat_map (of_present f) all_fields.

(** As the guards of [fetchListings] have it: a field contributes its
    predicate when its value is truthy. *)
Definition of_truthy (f : Filters) (name : field) : list filter :=
  match get name f with
  | Some v => if truthy v then [predicate_of name v] else []
  | None => []
  end.

Definition truthy_filters (f : Filters) : list filter :=
  flat_map (of_truthy f) all_fields.

(** The number of fields that hold a truthy value. *)
Definition truthy_count (f : Filters) : nat :=
  List.length (List.filter (fun n => truthy_opt (get n f)) all_fields).

(** Newest first. *)
Definition not_older (a b : Listing.t) : Prop :=
  (Listing.created_at b <= Listing.created_at a)%Z.

End FilterSpec.

(* ===================================================================== *)
(** * Sample data *)
(* ===================================================================== *)

Module Example.

Definition bmw : Brand.t :=
  {| Brand.id := js "bmw-uuid"; Brand.name := js "BMW";
     Brand.logo_url := Some (js "https://example.com/bmw.png") |}.

Definition audi : Brand.t :=
  {| Brand.id := js "audi-uuid"; Brand.name := js "Audi";
     Brand.logo_url := Some (js "https://example.com/audi.png") |}.

Definition series3 : Model.t :=
  {| Model.id := js "bmw-3-series"; Model.brand_id := js "bmw-uuid";
     Model.name := js "3 Series" |}.

Definition x5 : Model.t :=
  {| Model.id := js "bmw-x5"; Model.brand_id := js "bmw-uuid";
     Model.name := js "X5" |}.

Definition a4 : Model.t :=
  {| Model.id := js "audi-a4"; Model.brand_id := js "audi-uuid";
     Model.name := js "A4" |}.

Definition seller : Profile.t :=
  {| Profile.id := js "seller-uuid"; Profile.email := js "seller@example.com";
     Profile.full_name := Some (js "A Seller"); Profile.phone := None |}.

(** A BMW 3 Series with the given id, price (in hundredths) and time of
    creation. *)
Definition car (i : string) (price created : Z) : Listing.t :=
  {| Listing.id := js i; Listing.seller_id := js "seller-uuid";
     Listing.brand_id := js "bmw-uuid"; Listing.model_id := js "bmw-3-series";
     Listing.title := js "BMW 3 Series"; Listing.description := None;
     Listing.year := 2019; Listing.price := price; Listing.mileage := 50000;
     Listing.condition := cond_used; Listing.transmission := automatic;
     Listing.color := None; Listing.vin := None; Listing.images := [];
     Listing.created_at := created |}.

Definition db : database :=
  {| profiles := [seller];
     car_brands := [bmw; audi];
     car_models := [series3; x5; a4];
     car_listings :=
       [car "l1" 1500000 10; car "l2" 2500000 30; car "l3" 6000000 20] |}.

Definition user : ListingCreate.User := {| ListingCreate.id := js "seller-uuid" |}.

(** The controls of the creation form, filled in. *)
Definition filled : ListingCreate.Controls :=
  {| ListingCreate.title := js "BMW 3 Series";
     ListingCreate.model := js "bmw-3-series";
     ListingCreate.year := js "2021";
     ListingCreate.price := js "15999.99";
     ListingCreate.mileage := js "42000";
     ListingCreate.condition := js "used";
     ListingCreate.transmission := js "manual";
     ListingCreate.color := js "black";
     ListingCreate.vin := js "WBA00000000000000";
     ListingCreate.images := js "http://a,  http://b ,";
     ListingCreate.description := js "One owner" |}.

(** The creation form with BMW selected, its models loaded and the
    controls filled in. *)
Definition filled_form : ListingCreate.State :=
  {| ListingCreate.loading := true;
     ListingCreate.error := None;
     ListingCreate.brands := [audi; bmw];
     ListingCreate.models := [series3; x5];
     ListingCreate.selectedBrand := js "bmw-uuid";
     ListingCreate.controls := filled |}.

(** The listing index with the filter panel filled in: BMW, prices from
    20000 to 50000. *)
Definition priced : Home.Filters :=
  Home.set Home.f_maxPrice (Some (VNum (Fin 50000)))
    (Home.set Home.f_minPrice (Some (VNum (Fin 20000)))
       (Home.set Home.f_brand_id (Some (VStr (js "bmw-uuid")))
          Home.no_filters)).

Definition priced_home : Home.State :=
  Home.setFilters (fun _ => priced) Home.initial.

(** Filling in the creation form: BMW is chosen, its models arrive, the X5
    is chosen and the other fields are typed in. *)
Definition fill_in : list ListingCreate.event :=
  [ListingCreate.Mounted;
   ListingCreate.BrandsSettled (Fulfilled (Backend.ok [audi; bmw]));
   ListingCreate.SelectBrand (js "bmw-uuid");
   ListingCreate.ModelsSettled
     (Fulfilled (Backend.ok (Backend.models_of_brand db (js "bmw-uuid"))));
   ListingCreate.Input ListingCreate.c_model (js "bmw-x5");
   ListingCreate.Input ListingCreate.c_title (js "BMW X5");
   ListingCreate.Input ListingCreate.c_year (js "2021");
   ListingCreate.Input ListingCreate.c_price (js "15999.99");
   ListingCreate.Input ListingCreate.c_mileage (js "42000");
   ListingCreate.Input ListingCreate.c_condition (js "used");
   ListingCreate.Input ListingCreate.c_transmission (js "manual");
   ListingCreate.Input ListingCreate.c_color (js "black");
   ListingCreate.Input ListingCreate.c_vin (js "WBA00000000000000");
   ListingCreate.Input ListingCreate.c_description (js "One owner")].



(** The text of the [TypeError] of [new FormData(null)] in one browser. *)
Definition not_a_form_text : jsstring :=
  js "Failed to construct 'FormData': parameter 1 is not of type 'HTMLFormElement'.".

(** An error that is not an instance of [Error]. *)
Definition plain_error : error_value :=
  {| instanceof_Error := false; message := js "no rows" |}.

(** A failed request, as an instance of [Error]. *)
Definition failed_to_fetch : error_value :=
  {| instanceof_Error := true; message := js "Failed to fetch" |}.

End Example.

(* ===================================================================== *)
(** * The profile page: [Profile] *)
(* ===================================================================== *)

Module ProfilePage.

Record State : Type := {
  profile : option Profile.t;
  loading : bool;
  error : option jsstring
}.

Definition initial : State :=
  {| profile := None; loading := true; error := None |}.

Definition setProfile (v : option Profile.t) (s : State) : State :=
  {| profile := v; loading := loading s; error := error s |}.

Definition setLoading (v : bool) (s : State) : State :=
  {| profile := profile s; loading := v; error := error s |}.

Definition setError (v : option jsstring) (s : State) : State :=
  {| profile := profile s; loading := loading s; error := v |}.

Inductive call : Type :=
| GetUser
| Select (q : query)
| SignOut
| Navigate (path : string).

Definition handler : Type -> Type := Handler.t State call.

Definition profile_query (userId : jsstring) : query :=
  single (eq "id" (VStr userId) (select ["*"] (from "profiles"))).

Definition on_failure (e : error_value) : handler unit :=
  Handler.update (setError (Some (error_text e))).

(** [fetchProfile], up to [await supabase.auth.getUser()]. *)
Definition fetchProfile : handler unit :=
  Handler.try_catch_finally
    (Handler.await GetUser)
    on_failure
    (Handler.update (setLoading false)).

(** [fetchProfile], from the settled [getUser] up to the read of the
    profile. *)
Definition fetchProfile_user (r : settled (option ListingCreate.User))
  : handler unit :=
  Handler.try_catch_finally
    (user <- Handler.awaited r ;;
     match user with
     | None => Handler.call (Navigate "/login") ;; Handler.return_
     | Some user =>
         Handler.await (Select (profile_query (ListingCreate.id user)))
     end)
    on_failure
    (Handler.update (setLoading false)).

(** [fetchProfile], from the settled read to the end. *)
Definition fetchProfile_resumed (r : settled (response Profile.t))
  : handler unit :=
  Handler.try_catch_finally
    (res <- Handler.awaited r ;;
     match Js.error res with
     | Some e => Handler.throw e
     | None => Handler.update (setProfile (data res))
     end)
    on_failure
    (Handler.update (setLoading false)).

(** [handleSignOut], up to [await supabase.auth.signOut()]. *)
Definition handleSignOut : handler unit :=
  Handler.await SignOut.

(** [handleSignOut], from the settled [signOut] on: the answer is not
    looked at, and nothing catches a rejection. *)
Definition handleSignOut_resumed (r : settled (option error_value))
  : handler unit :=
  _ <- Handler.awaited r ;;
  Handler.call (Navigate "/").

Inductive event : Type :=
| Mounted
| UserSettled (r : settled (option ListingCreate.User))
| ProfileSettled (r : settled (response Profile.t))
| SignOutClicked
| SignOutSettled (r : settled (option error_value)).

Definition on_event (ev : event) : handler unit :=
  match ev with
  | Mounted => Handler.start fetchProfile
  | UserSettled r => fetchProfile_user r
  | ProfileSettled r => fetchProfile_resumed r
  | SignOutClicked => handleSignOut
  | SignOutSettled r => handleSignOut_resumed r
  end.

Definition step (ev : event) (st : State) : State * list call :=
  Handler.run (on_event ev) st.

Fixpoint steps (evs : list event) (st : State) : State * list call :=
  match evs with
  | [] => (st, [])
  | ev :: evs' =>
      let (st1, cs1) := step ev st in
      let (st2, cs2) := steps evs' st1 in
      (st2, cs1 ++ cs2)
  end.

(** What the component returns: the three early returns, then the page
    with the name, the email and [profile.phone || 'Not provided']. *)
Inductive view : Type :=
| Loading
| ErrorText (text : jsstring)
| ProfileNotFound
| Page (full_name : option jsstring) (email : jsstring) (phone : jsstring).

Definition phone_text (phone : option jsstring) : jsstring :=
  match phone with
  | Some p => if JsString.truthy p then p else js "Not provided"
  | None => js "Not provided"
  end.

Definition page (p : option Profile.t) : view :=
  match p with
  | None => ProfileNotFound
  | Some p =>
      Page (Profile.full_name p) (Profile.email p)
        (phone_text (Profile.phone p))
  end.

Definition render (st : State) : view :=
  if loading st then Loading
  else
    match error st with
    | Some e => if JsString.truthy e then ErrorText e else page (profile st)
    | None => page (profile st)
    end.

(** The profile reads that a list of calls makes. *)
Definition reads (cs : list call) : list query :=
  flat_map (fun c => match c with
                     | Select q => [q]
                     | _ => []
                     end) cs.

Definition navigations (cs : list call) : list string :=
  flat_map (fun c => match c with
                     | Navigate path => [path]
                     | _ => []
                     end) cs.

(** The meaning of a filter on a row of [profiles]. *)
Definition profile_holds (f : filter) (p : Profile.t) : bool :=
  if String.eqb (column f) "id" then on_text (op f) (Profile.id p) (value f)
  else false.

(** The answer of the service to the read of [fetchProfile] (no order is
    asked for: the rows come in the order of the table). *)
Definition answer (no_single_row : error_value) (db : database) (q : query)
  : response Profile.t :=
  single_of no_single_row
    (rows profile_holds (fun _ _ => true) (filters q) (profiles db)).

End ProfilePage.

(* ===================================================================== *)
(** * The navigation bar: [Navbar] *)
(* ===================================================================== *)

Module Navbar.

(** A session of the identity provider. *)
Record Session : Type := { user : ListingCreate.User }.

Record State : Type := { current : option ListingCreate.User }.

Definition initial : State := {| current := None |}.

Definition setUser (v : option ListingCreate.User) (s : State) : State :=
  {| current := v |}.

(** [session?.user ?? null]. *)
Definition session_user (session : option Session)
  : option ListingCreate.User :=
  option_map user session.

Inductive call : Type :=
| GetSession
| OnAuthStateChange
| Unsubscribe.

Inductive event : Type :=
| Mounted
| SessionResolved (session : option Session)
| AuthStateChanged (session : option Session)
| Unmounted.

Definition on_event (ev : event) : Handler.t State call unit :=
  match ev with
  | Mounted => Handler.call GetSession ;; Handler.call OnAuthStateChange
  | SessionResolved session => Handler.update (setUser (session_user session))
  | AuthStateChanged session => Handler.update (setUser (session_user session))
  | Unmounted => Handler.call Unsubscribe
  end.

Definition step (ev : event) (st : State) : State * list call :=
  Handler.run (on_event ev) st.

Fixpoint steps (evs : list event) (st : State) : State * list call :=
  match evs with
  | [] => (st, [])
  | ev :: evs' =>
      let (st1, cs1) := step ev st in
      let (st2, cs2) := steps evs' st1 in
      (st2, cs1 ++ cs2)
  end.

(** The targets of the links that the bar shows. *)
Definition links (st : State) : list string :=
  "/" :: match current st with
         | Some _ => ["/listings/create"; "/profile"]
         | None => ["/login"; "/register"]
         end.

End Navbar.

(* ===================================================================== *)
(** * Percent-decoding: [decodeURI] *)
(* ===================================================================== *)

(** The router matches the routes against the decoded pathname.
    [decodeURI] replaces every escape [%XX], or run of escapes that is the
    UTF-8 encoding of one code point, by that code point in UTF-16, except
    an escape of a reserved character, which stays as it is written; it
    throws a [URIError] on a malformed escape ([None]). *)
Module Uri.

Definition percent : code_unit := 37%N.

(** [; / ? : @ & = + $ ,] and [#]. *)
Definition reserved (c : code_unit) : bool :=
  existsb (N.eqb c) [59; 47; 63; 58; 64; 38; 61; 43; 36; 44; 35]%N.

(** An escape [%XX] at the head of the text: its octet, and what follows
    it. *)
Definition octet (s : jsstring) : option (N * jsstring) :=
  match s with
  | p :: h :: l :: rest =>
      if (p =? percent)%N then
        match hex_val h, hex_val l with
        | Some a, Some b => Some (Z.to_N (16 * a + b), rest)
        | _, _ => None
        end
      else None
  | _ => None
  end.

(** [n] escaped continuation octets [10xxxxxx], their six bits appended to
    [acc]. *)
Fixpoint continuation (n : nat) (acc : N) (s : jsstring)
  : option (N * jsstring) :=
  match n with
  | O => Some (acc, s)
  | S n' =>
      match octet s with
      | Some (b, rest) =>
          if ((128 <=? b) && (b <? 192))%N
          then continuation n' (acc * 64 + (b - 128)) rest
          else None
      | None => None
      end
  end.

(** The code point whose encoding starts with the octet [b] and goes on in
    [s]: the encoding has to be well-formed UTF-8 (shortest form, no
    surrogate, at most U+10FFFF). *)
Definition code_point (b : N) (s : jsstring) : option (N * jsstring) :=
  if (b <? 128)%N then Some (b, s)
  else if ((194 <=? b) && (b <? 224))%N then continuation 1 (b - 192) s
  else if ((224 <=? b) && (b <? 240))%N then
    match continuation 2 (b - 224) s with
    | Some (v, rest) =>
        if ((2048 <=? v) && negb ((55296 <=? v) && (v <? 57344)))%N
        then Some (v, rest) else None
    | None => None
    end
  else if ((240 <=? b) && (b <? 245))%N then
    match continuation 3 (b - 240) s with
    | Some (v, rest) =>
        if ((65536 <=? v) && (v <? 1114112))%N then Some (v, rest) else None
    | None => None
    end
  else None.

(** A code point in UTF-16. *)
Definition utf16 (v : N) : jsstring :=
  if (v <? 65536)%N then [v]
  else [55296 + (v - 65536) / 1024; 56320 + (v - 65536) mod 1024]%N.

(** Every round takes at least one code unit of the text, so [fuel] is its
    length. *)
Fixpoint decode (fuel : nat) (s : jsstring) : option jsstring :=
  match s with
  | [] => Some []
  | c :: rest =>
      match fuel with
      | O => None
      | S fuel' =>
          if (c =? percent)%N then
            match octet s with
            | Some (b, rest1) =>
                match code_point b rest1 with
                | Some (v, rest2) =>
                    let out := if (v <? 128)%N && reserved v
                               then firstn 3 s else utf16 v in
                    option_map (app out) (decode fuel' rest2)
                | None => None
                end
            | None => None
            end
          else option_map (cons c) (decode fuel' rest)
      end
  end.

Definition decodeURI (s : jsstring) : option jsstring :=
  decode (List.length s) s.

(** [safelyDecodeURI] of the router: the text itself when [decodeURI]
    throws. *)
Definition safelyDecodeURI (s : jsstring) : jsstring :=
  match decodeURI s with
  | Some decoded => decoded
  | None => s
  end.

End Uri.

(* ===================================================================== *)
(** * The routes of [App] *)
(* ===================================================================== *)

Module App.

Inductive page : Type :=
| HomePage | LoginPage | RegisterPage | ListingCreatePage
| ListingDetailsPage | ProfilePage.

(** The [Route] elements, in their order. *)
Definition routes : list (string * page) :=
  [("/", HomePage);
   ("/login", LoginPage);
   ("/register", RegisterPage);
   ("/listings/create", ListingCreatePage);
   ("/listings/:id", ListingDetailsPage);
   ("/profile", ProfilePage)].

Definition slash : code_unit := 47%N.

(** A word character of a regular expression: a letter, a digit or [_];
    parameter names may also contain [-]. *)
Definition name_char (c : code_unit) : bool :=
  (((48 <=? c) && (c <=? 57)) || ((65 <=? c) && (c <=? 90))
   || ((97 <=? c) && (c <=? 122)) || (c =? 95) || (c =? 45))%N.

(** A segment [:name] of a route path. *)
Definition is_param (segment : jsstring) : bool :=
  match segment with
  | 58%N :: c :: name => forallb name_char (c :: name)
  | _ => false
  end.

(** The router's score of a route path: the number of pieces between the
    slashes, plus 10 for a static piece, 3 for a parameter and 1 for an
    empty piece. *)
Definition score (path : string) : Z :=
  let segments := split slash (js path) in
  fold_left
    (fun score segment =>
       (score + (if is_param segment then 3
                 else match segment with
                      | [] => 1
                      | _ :: _ => 10
                      end))%Z)
    segments (Z.of_nat (List.length segments)).

(** The branches are tried by descending score, equal scores in the order
    of the routes. *)
Definition ranked : list (string * page) :=
  ordered (fun a b => (score (fst b) <=? score (fst a))%Z) routes.

(** Letters are compared without regard to case (the paths of the routes
    are ASCII, so only ASCII letters can differ in case). *)
Definition fold_case (c : code_unit) : code_unit :=
  if ((97 <=? c) && (c <=? 122))%N then (c - 32)%N else c.

(** [text] without the prefix [s], compared without regard to case. *)
Fixpoint strip_prefix (s text : jsstring) : option jsstring :=
  match s with
  | [] => Some text
  | c :: s' =>
      match text with
      | d :: text' =>
          if (fold_case c =? fold_case d)%N then strip_prefix s' text'
          else None
      | [] => None
      end
  end.

(** The longest prefix without a slash, and what follows it. *)
Fixpoint span_segment (text : jsstring) : jsstring * jsstring :=
  match text with
  | c :: text' =>
      if (c =? slash)%N then ([], text)
      else let (v, r) := span_segment text' in (c :: v, r)
  | [] => ([], [])
  end.

(** The segments of a route path, matched against a pathname: each one is
    a slash followed by the static text or by a non-empty parameter value;
    after the last one only slashes may follow. *)
Fixpoint match_segments (segments : list jsstring) (pathname : jsstring)
  : bool :=
  match segments with
  | [] => forallb (N.eqb slash) pathname
  | segment :: segments' =>
      match pathname with
      | c :: rest =>
          if (c =? slash)%N then
            if is_param segment then
              let (v, rest') := span_segment rest in
              JsString.truthy v && match_segments segments' rest'
            else
              match strip_prefix segment rest with
              | Some rest' => match_segments segments' rest'
              | None => false
              end
          else false
      | [] => false
      end
  end.

(** Whether a route path matches a whole (decoded) pathname.  The paths of
    [routes] are made of static pieces and parameters only; trailing
    slashes of the path are dropped and a leading slash is required. *)
Definition match_path (path : string) (pathname : jsstring) : bool :=
  match List.filter JsString.truthy (split slash (js path)) with
  | [] =>
      match pathname with
      | c :: rest => (c =? slash)%N && forallb (N.eqb slash) rest
      | [] => false
      end
  | segments => match_segments segments pathname
  end.

(** The page that [Routes] shows for a pathname, if a route matches: the
    branches are matched against the decoded pathname. *)
Definition matchRoutes (pathname : jsstring) : option page :=
  option_map snd
    (find (fun r => match_path (fst r) (Uri.safelyDecodeURI pathname))
       ranked).

End App.

(** The links of a card of the listing index:
    [<Link to={`/car/${listing.id}`}>], twice. *)
Module HomeCard.

Definition details_link (listing : Home.CarListing) : jsstring :=
  js "/car/" ++ Listing.id (Home.row listing).

End HomeCard.

(* ===================================================================== *)
(** * The seed of the migration *)
(* ===================================================================== *)

Module Seed.

(** One row of the [VALUES] list of the insert into [car_models]:
    [((SELECT id FROM car_brands WHERE name = brand), name)], with the id
    that [gen_random_uuid()] gives to the row. *)
Record value : Type := {
  brand : jsstring;
  name : jsstring;
  new_id : jsstring
}.

(** [(SELECT id FROM car_brands WHERE name = brand)]; names are unique. *)
Definition brand_id (brands : list Brand.t) (brand : jsstring)
  : option jsstring :=
  option_map Brand.id
    (find (fun b => JsString.eqb (Brand.name b) brand) brands).

(** The arbiter of [ON CONFLICT (name, brand_id)]: the unique constraint
    on [(brand_id, name)]. *)
Definition same_key (a b : Model.t) : bool :=
  JsString.eqb (Model.brand_id a) (Model.brand_id b)
  && JsString.eqb (Model.name a) (Model.name b).

Definition conflicts (m : Model.t) (table : list Model.t) : bool :=
  existsb (same_key m) table.

Definition id_taken (m : Model.t) (table : list Model.t) : bool :=
  existsb (fun x => JsString.eqb (Model.id x) (Model.id m)) table.

Inductive failure : Type :=
| not_null_violation      (* the brand of a row does not exist *)
| primary_key_violation.

(** [INSERT INTO car_models (brand_id, name) VALUES ... ON CONFLICT (name,
    brand_id) DO NOTHING]: the rows are taken in order; a row whose key is
    already in the table (from before, or from an earlier row of the same
    statement) is skipped; a failing row fails the statement. *)
Fixpoint insert_models (brands : list Brand.t) (values : list value)
  (table : list Model.t) : failure + list Model.t :=
  match values with
  | [] => inr table
  | v :: values' =>
      match brand_id brands (brand v) with
      | None => inl not_null_violation
      | Some b =>
          let m := {| Model.id := new_id v; Model.brand_id := b;
                      Model.name := name v |} in
          if conflicts m table then insert_models brands values' table
          else if id_taken m table then inl primary_key_violation
          else insert_models brands values' (table ++ [m])
      end
  end.

(** No two rows of the table have the same [(brand_id, name)]. *)
Fixpoint unique_keys (table : list Model.t) : bool :=
  match table with
  | [] => true
  | m :: table' => negb (conflicts m table') && unique_keys table'
  end.

End Seed.

(* ===================================================================== *)
(** * Theorems *)
(* ===================================================================== *)

(** ** Equality of strings *)

Lemma JsString_eqb_eq (a b : jsstring) : JsString.eqb a b = true <-> a = b.
Proof.
  revert b. induction a as [|x a IH]; destruct b as [|y b]; simpl;
    try (split; [discriminate | congruence]); [tauto|].
  rewrite andb_true_iff, N.eqb_eq, IH. split.
  - intros [-> ->]. reflexivity.
  - intros [= -> ->]. tauto.
Qed.

Lemma JsString_eqb_refl (a : jsstring) : JsString.eqb a a = true.
Proof. now apply JsString_eqb_eq. Qed.

Lemma JsString_eqb_neq (a b : jsstring) : JsString.eqb a b = false <-> a <> b.
Proof.
  rewrite <- JsString_eqb_eq. destruct (JsString.eqb a b); split; congruence.
Qed.

(** ** Strings: [split] and [trim] *)

Section StringFacts.

Import ImagesSpec.

Lemma split_not_nil (sep : code_unit) (s : jsstring) : split sep s <> [].
Proof.
  destruct s as [|c s]; simpl; [discriminate|].
  destruct (c =? sep)%N; [discriminate|].
  destruct (split sep s); discriminate.
Qed.

Lemma join_cons (sep : code_unit) (f : jsstring) (fs : list jsstring) :
  fs <> [] -> join sep (f :: fs) = f ++ sep :: join sep fs.
Proof. destruct fs; [congruence | reflexivity]. Qed.

Lemma join_split (sep : code_unit) (s : jsstring) : join sep (split sep s) = s.
Proof.
  induction s as [|c s IH]; [reflexivity|].
  simpl. destruct (N.eqb_spec c sep) as [->|Hne].
  - rewrite join_cons by apply split_not_nil. simpl. now rewrite IH.
  - pose proof (split_not_nil sep s) as Hnil.
    destruct (split sep s) as [|f fs]; [congruence|].
    destruct fs as [|g fs].
    + simpl in *. now rewrite IH.
    + change (join sep ((c :: f) :: g :: fs))
        with (c :: (f ++ sep :: join sep (g :: fs))).
      change (join sep (f :: g :: fs))
        with (f ++ sep :: join sep (g :: fs)) in IH.
      now rewrite IH.
Qed.

Lemma split_no_sep (sep : code_unit) (s : jsstring) :
  Forall (fun f => ~ In sep f) (split sep s).
Proof.
  induction s as [|c s IH]; simpl.
  - constructor; [intros [] | constructor].
  - destruct (N.eqb_spec c sep) as [->|Hne].
    + constructor; [intros [] | exact IH].
    + destruct (split sep s) as [|f fs].
      * constructor; [|constructor]. intros [H|[]]. congruence.
      * inversion IH as [|? ? Hf Hfs]; subst.
        constructor; [|exact Hfs].
        intros [H|H]; [congruence | now apply Hf].
Qed.

Lemma split_app_no_sep (sep : code_unit) (f s : jsstring) :
  ~ In sep f ->
  split sep (f ++ s) =
  match split sep s with
  | [] => [f]
  | g :: gs => (f ++ g) :: gs
  end.
Proof.
  pose proof (split_not_nil sep s) as Hnil.
  induction f as [|c f IH]; intros Hf; simpl.
  - destruct (split sep s); [congruence | reflexivity].
  - destruct (N.eqb_spec c sep) as [->|Hne].
    + exfalso. apply Hf. now left.
    + rewrite IH by (intros H; apply Hf; now right).
      destruct (split sep s); [congruence | reflexivity].
Qed.

Lemma split_join (sep : code_unit) (fs : list jsstring) :
  fs <> [] -> Forall (fun f => ~ In sep f) fs -> split sep (join sep fs) = fs.
Proof.
  induction fs as [|f fs IH]; intros Hnil Hall; [congruence|].
  inversion Hall as [|? ? Hf Hfs]; subst.
  destruct fs as [|g fs].
  - simpl. rewrite <- (app_nil_r f) at 1.
    rewrite split_app_no_sep by assumption. simpl. now rewrite app_nil_r.
  - rewrite join_cons by discriminate.
    rewrite split_app_no_sep by assumption.
    simpl. rewrite N.eqb_refl.
    change (split sep (join sep (g :: fs))) with
      (split sep match fs with [] => g | _ :: _ => g ++ sep :: join sep fs end).
    assert (H : split sep (join sep (g :: fs)) = g :: fs)
      by (apply IH; [discriminate | assumption]).
    simpl in H. rewrite H. now rewrite app_nil_r.
Qed.

Lemma split_chars (sep : code_unit) (s f : jsstring) (c : code_unit) :
  In f (split sep s) -> In c f -> In c s.
Proof.
  revert f. induction s as [|a s IH]; intros f Hf Hc; simpl in *.
  - destruct Hf as [<-|[]]. destruct Hc.
  - destruct (a =? sep)%N.
    + destruct Hf as [<-|Hf]; [destruct Hc|]. right. eapply IH; eauto.
    + destruct (split sep s) as [|g gs].
      * destruct Hf as [<-|[]]. destruct Hc as [->|[]]. now left.
      * destruct Hf as [<-|Hf].
        -- destruct Hc as [->|Hc]; [now left|].
           right. apply (IH g); [now left | assumption].
        -- right. apply (IH f); [now right | assumption].
Qed.

Lemma trimStart_split (s : jsstring) :
  exists l, s = l ++ trimStart s /\ all_white l.
Proof.
  induction s as [|c s (l & Hs & Hl)]; simpl.
  - exists []. split; [reflexivity | constructor].
  - destruct (is_white c) eqn:Hc.
    + exists (c :: l). split; [simpl; congruence | now constructor].
    + exists []. split; [reflexivity | constructor].
Qed.

Lemma trimStart_head (s : jsstring) (c : code_unit) :
  hd_error (trimStart s) = Some c -> is_white c = false.
Proof.
  induction s as [|a s IH]; simpl; [discriminate|].
  destruct (is_white a) eqn:Ha; [exact IH|].
  simpl. congruence.
Qed.

Lemma trimStart_all_white (l : jsstring) : all_white l -> trimStart l = [].
Proof.
  induction 1 as [|c l Hc _ IH]; simpl; [reflexivity|]. now rewrite Hc.
Qed.

Lemma trimStart_app_white (l u : jsstring) :
  all_white l -> trimStart (l ++ u) = trimStart u.
Proof.
  induction 1 as [|c l Hc _ IH]; simpl; [reflexivity|]. now rewrite Hc.
Qed.

Lemma trimStart_fixed (u : jsstring) :
  (forall c, hd_error u = Some c -> is_white c = false) -> trimStart u = u.
Proof.
  destruct u as [|c u]; intros H; [reflexivity|].
  simpl. now rewrite (H c eq_refl).
Qed.

Lemma all_white_rev (l : jsstring) : all_white l -> all_white (rev l).
Proof.
  unfold all_white. rewrite !Forall_forall. intros H c Hc.
  apply H. now apply in_rev.
Qed.

Lemma trimEnd_split (s : jsstring) :
  exists r, s = trimEnd s ++ r /\ all_white r.
Proof.
  destruct (trimStart_split (rev s)) as (l & Hs & Hl).
  exists (rev l). split; [|now apply all_white_rev].
  unfold trimEnd. rewrite <- rev_app_distr, <- Hs. now rewrite rev_involutive.
Qed.

Lemma trimEnd_last (s : jsstring) (c : code_unit) :
  hd_error (rev (trimEnd s)) = Some c -> is_white c = false.
Proof.
  unfold trimEnd. rewrite rev_involutive. apply trimStart_head.
Qed.

Lemma trimEnd_head (s : jsstring) (c : code_unit) :
  (forall a, hd_error s = Some a -> is_white a = false) ->
  hd_error (trimEnd s) = Some c -> is_white c = false.
Proof.
  intros Hs Hc. destruct (trimEnd_split s) as (r & Heq & _).
  apply Hs. rewrite Heq. destruct (trimEnd s); [discriminate|]. exact Hc.
Qed.

(** [trim] removes white space at both ends and nothing else. *)
Lemma trim_trimmed_of (t : jsstring) : trimmed_of t (trim t).
Proof.
  destruct (trimStart_split t) as (l & Hl & Hwl).
  destruct (trimEnd_split (trimStart t)) as (r & Hr & Hwr).
  exists l, r. repeat split; try assumption.
  - unfold trim. now rewrite <- Hr.
  - intros c. apply trimEnd_head. apply trimStart_head.
  - intros c. apply trimEnd_last.
Qed.

Lemma trimEnd_app_white (u r : jsstring) :
  all_white r -> trimEnd (u ++ r) = trimEnd u.
Proof.
  intros Hr. unfold trimEnd. rewrite rev_app_distr.
  now rewrite trimStart_app_white by now apply all_white_rev.
Qed.

Lemma trimEnd_fixed (u : jsstring) :
  (forall c, hd_error (rev u) = Some c -> is_white c = false) ->
  trimEnd u = u.
Proof.
  intros H. unfold trimEnd. rewrite trimStart_fixed by assumption.
  apply rev_involutive.
Qed.

Lemma trimmed_of_unique (t u : jsstring) : trimmed_of t u -> u = trim t.
Proof.
  intros (l & r & -> & Hl & Hr & Hhd & Htl).
  unfold trim. rewrite trimStart_app_white by assumption.
  destruct u as [|c u].
  - simpl. now rewrite (trimStart_all_white Hr).
  - rewrite trimStart_fixed.
    + rewrite trimEnd_app_white by assumption. symmetry.
      now apply trimEnd_fixed.
    + simpl. intros a [= <-]. now apply Hhd.
Qed.

Lemma trim_all_white (t : jsstring) : all_white t -> trim t = [].
Proof.
  intros H. unfold trim. now rewrite (trimStart_all_white H).
Qed.

Lemma Forall2_trimmed_map (fields trimmed : list jsstring) :
  Forall2 trimmed_of fields trimmed -> trimmed = List.map trim fields.
Proof.
  induction 1 as [|t u ts us Htu _ IH]; [reflexivity|].
  simpl. f_equal; [now apply trimmed_of_unique | exact IH].
Qed.

Lemma Forall2_map_trimmed (fields : list jsstring) :
  Forall2 trimmed_of fields (List.map trim fields).
Proof.
  induction fields; simpl; constructor; [apply trim_trimmed_of | assumption].
Qed.

End StringFacts.

(** ** The creation form: what a submission sends *)

Section SubmitFacts.

Import ListingCreate.

Lemma get_images (st : State) :
  get (form_data st) "images" = Some (images (controls st)).
Proof. unfold form_data. now destruct (model_disabled st). Qed.



Lemma get_typed (st : State) :
  get (form_data st) "year" = Some (year (controls st)) /\
  get (form_data st) "price" = Some (price (controls st)) /\
  get (form_data st) "mileage" = Some (mileage (controls st)) /\
  get (form_data st) "condition" = Some (condition (controls st)) /\
  get (form_data st) "transmission" = Some (transmission (controls st)).
Proof. unfold form_data. now destruct (model_disabled st). Qed.

(** With an identity and the form at hand, the second stretch of
    [handleSubmit] makes one call, the insert, and changes no state. *)
Lemma handleSubmit_user_inserts (user : User) (st : State) :
  Handler.run (handleSubmit_user (Fulfilled (Some user)) TheForm) st =
  (st, [Insert [submitted user st]]).
Proof.
  unfold Handler.run, handleSubmit_user, Handler.try_catch_finally,
    Handler.bind, Handler.awaited, Handler.ret, Handler.peek, submitted.
  rewrite get_images. reflexivity.
Qed.

End SubmitFacts.

Section CreateFacts.

Import ListingCreate.

Lemma step_user_inserts (user : User) (st : State) :
  step (UserSettled (Fulfilled (Some user)) TheForm) st =
  (rendered st, [Insert [submitted user st]]).
Proof.
  unfold step. cbn [on_event]. rewrite handleSubmit_user_inserts.
  now rewrite JsString_eqb_refl.
Qed.

End CreateFacts.

Section CreateCalls.

Import ListingCreate.

Ltac run_handler :=
  unfold Handler.run, on_event, handleSubmit, handleSubmit_user,
    handleSubmit_inserted, fetchBrands_resumed, fetchModels_resumed,
    brand_effect, fetchBrands, fetchModels, on_failure, log_error,
    Handler.try_catch, Handler.try_catch_finally, Handler.bind,
    Handler.awaited, Handler.start, Handler.await, Handler.read,
    Handler.peek, Handler.update, Handler.ret, Handler.call, Handler.throw,
    Handler.return_.

Lemma brand_effect_no_insert (st : State) (rows : list NewListing.t) :
  ~ In (Insert rows) (snd (Handler.run brand_effect st)).
Proof.
  run_handler.
  destruct (JsString.truthy (selectedBrand st)); cbn; intuition discriminate.
Qed.

Lemma on_event_insert (ev : event) (st : State) (rows : list NewListing.t) :
  In (Insert rows) (snd (Handler.run (on_event ev) st)) ->
  exists user,
    ev = UserSettled (Fulfilled (Some user)) TheForm /\
    rows = [submitted user st].
Proof.
  destruct ev as [ | v | name v | | r | r | r target | r ].
  - run_handler.
    destruct (JsString.truthy (selectedBrand st)); cbn; intuition discriminate.
  - run_handler.
    destruct (offered v (brand_options st)); cbn; intuition discriminate.
  - run_handler. destruct (can_input name v st); cbn; intuition discriminate.
  - run_handler. cbn; intuition discriminate.
  - run_handler.
    destruct r as [res|e]; cbn; [destruct (Js.error res); cbn|];
      intuition discriminate.
  - run_handler.
    destruct r as [res|e]; cbn; [destruct (Js.error res); cbn|];
      intuition discriminate.
  - destruct r as [[user|]|e]; [destruct target as [|thrown]| |].
    + change (on_event (UserSettled (Fulfilled (Some user)) TheForm))
        with (handleSubmit_user (Fulfilled (Some user)) TheForm).
      rewrite handleSubmit_user_inserts. cbn.
      intros [H|[]]. injection H as <-. eauto.
    + run_handler. cbn; intuition discriminate.
    + run_handler. cbn; intuition discriminate.
    + run_handler. cbn; intuition discriminate.
  - run_handler.
    destruct r as [res|e]; cbn; [destruct (Js.error res); cbn|];
      intuition discriminate.
Qed.

Lemma step_calls (ev : event) (st : State) :
  exists cs2,
    snd (step ev st) = snd (Handler.run (on_event ev) st) ++ cs2 /\
    forall rows, ~ In (Insert rows) cs2.
Proof.
  unfold step. destruct (Handler.run (on_event ev) st) as [st1 cs1].
  destruct (JsString.eqb (selectedBrand st) (selectedBrand st1)).
  - exists []. cbn. rewrite app_nil_r. split; [reflexivity | intros rows []].
  - pose proof (brand_effect_no_insert st1) as Hbe.
    destruct (Handler.run brand_effect st1) as [st2 cs2].
    exists cs2. now split.
Qed.

(** An insert is only ever issued by the stretch of [handleSubmit] that
    resumes with an identity, and it is the row built from that identity
    and the form. *)
Lemma insert_only_for_identity (ev : event) (st : State)
  (rows : list NewListing.t) :
  In (Insert rows) (snd (step ev st)) ->
  exists user,
    ev = UserSettled (Fulfilled (Some user)) TheForm /\
    rows = [submitted user st].
Proof.
  destruct (step_calls ev st) as (cs2 & -> & Hcs2).
  rewrite in_app_iff.
  intros [H|H]; [now apply on_event_insert | now apply Hcs2 in H].
Qed.

Lemma step_no_identity (st : State) (target : currentTarget) :
  step (UserSettled (Fulfilled None) target) st =
  (rendered (setLoading false st), [Navigate "/login"]).
Proof.
  unfold step. run_handler. cbn. now rewrite JsString_eqb_refl.
Qed.

Lemma step_submit (st : State) :
  step Submit st = (rendered (setError None (setLoading true st)),
                    [PreventDefault; GetUser]).
Proof.
  unfold step. run_handler. cbn. now rewrite JsString_eqb_refl.
Qed.

(** A failed insert: the message is stored, nothing else is called. *)
Lemma step_insert_failed (st : State) (r : settled (response unit))
  (e : error_value) :
  failure r = Some e ->
  step (InsertSettled r) st =
  (rendered (setLoading false (setError (Some (error_text e)) st)), []).
Proof.
  intros Hf. unfold step. run_handler.
  destruct r as [res|e']; cbn in Hf |- *.
  - rewrite Hf. cbn. now rewrite JsString_eqb_refl.
  - injection Hf as ->. now rewrite JsString_eqb_refl.
Qed.

Lemma step_insert_ok (st : State) (res : response unit) :
  Js.error res = None ->
  step (InsertSettled (Fulfilled res)) st =
  (rendered (setLoading false st), [Navigate "/"]).
Proof.
  intros Hf. unfold step. run_handler. cbn. rewrite Hf. cbn.
  now rewrite JsString_eqb_refl.
Qed.

(** A submission that cannot read the form, or whose [getUser] rejects. *)
Lemma step_user_failed (st : State) (r : settled (option User))
  (target : currentTarget) (e : error_value) :
  r = Rejected e \/
  (exists user, r = Fulfilled (Some user) /\ target = NotAForm e) ->
  step (UserSettled r target) st =
  (rendered (setLoading false (setError (Some (error_text e)) st)), []).
Proof.
  intros [->|(user & -> & ->)]; unfold step; run_handler; cbn;
    now rewrite JsString_eqb_refl.
Qed.

(** A failed read of the models or of the brands in the creation form:
    the error is logged and the state is not touched. *)
Lemma step_models_failed (st : State)
  (r : settled (response (list CarModel))) (e : error_value) :
  failure r = Some e ->
  step (ModelsSettled r) st
  = (rendered st, [ConsoleError "Error fetching models:" e]).
Proof.
  intros Hf. unfold step. run_handler.
  destruct r as [res|e']; cbn in Hf |- *.
  - rewrite Hf. cbn. now rewrite JsString_eqb_refl.
  - injection Hf as ->. now rewrite JsString_eqb_refl.
Qed.

Lemma step_brands_failed (st : State)
  (r : settled (response (list CarBrand))) (e : error_value) :
  failure r = Some e ->
  step (BrandsSettled r) st
  = (rendered st, [ConsoleError "Error fetching brands:" e]).
Proof.
  intros Hf. unfold step. run_handler.
  destruct r as [res|e']; cbn in Hf |- *.
  - rewrite Hf. cbn. now rewrite JsString_eqb_refl.
  - injection Hf as ->. now rewrite JsString_eqb_refl.
Qed.

(** A stretch of [handleSubmit] that fails stores the text of the error
    and calls nothing. *)
Lemma step_submission_failed (ev : event) (st : State) (e : error_value) :
  submission_failure ev = Some e ->
  step ev st
  = (rendered (setLoading false (setError (Some (error_text e)) st)), []).
Proof.
  destruct ev as [ | v | name v | | r | r | r target | r ];
    try discriminate; cbn [submission_failure].
  - destruct r as [[user|]|e']; [destruct target as [|thrown]| |];
      try discriminate; intros [= <-].
    + apply step_user_failed. right. now exists user.
    + apply step_user_failed. now left.
  - apply step_insert_failed.
Qed.

Lemma rendered_state (st : State) :
  loading (rendered st) = loading st /\
  error (rendered st) = error st /\
  brands (rendered st) = brands st /\
  models (rendered st) = models st /\
  selectedBrand (rendered st) = selectedBrand st.
Proof.
  unfold rendered.
  now destruct (offered (model (controls st)) (model_options st)).
Qed.

End CreateCalls.

(** ** The creation form under React's dispatch *)

Section DispatchFacts.

Import ListingCreate.

Lemma inserted_rows_none (cs : list call) :
  (forall rows, ~ In (Insert rows) cs) -> inserted_rows cs = [].
Proof.
  induction cs as [|c cs IH]; intros H; [reflexivity|].
  unfold inserted_rows. cbn [flat_map]. fold (inserted_rows cs).
  rewrite IH by (intros rows Hin; apply (H rows); now right).
  destruct c as [ | q | | inserted | path | label e]; try reflexivity.
  exfalso. apply (H inserted). now left.
Qed.

Lemma inserted_rows_app (cs1 cs2 : list call) :
  inserted_rows (cs1 ++ cs2) = inserted_rows cs1 ++ inserted_rows cs2.
Proof. unfold inserted_rows. apply flat_map_app. Qed.

(** No event that the form receives sends a row. *)
Lemma dispatched_step_no_insert (ev : event) (st : State) :
  dispatched ev = true -> inserted_rows (snd (step ev st)) = [].
Proof.
  intros Hd. apply inserted_rows_none. intros rows Hin.
  destruct (insert_only_for_identity _ _ _ Hin) as (user & -> & _).
  discriminate.
Qed.

Lemma dispatched_steps_no_insert (evs : list event) (st : State) :
  forallb dispatched evs = true -> inserted_rows (snd (steps evs st)) = [].
Proof.
  revert st. induction evs as [|ev evs IH]; intros st H; [reflexivity|].
  cbn [forallb] in H. apply andb_true_iff in H. destruct H as [Hev Hevs].
  cbn [steps]. pose proof (dispatched_step_no_insert ev st Hev) as Hs.
  destruct (step ev st) as [st1 cs1]. specialize (IH st1 Hevs).
  destruct (steps evs st1) as [st2 cs2]. cbn [snd] in *.
  now rewrite inserted_rows_app, Hs, IH.
Qed.

(** A submission by a signed-in user, as it runs. *)
Lemma submission_runs (user : User) (text : jsstring) (st : State) :
  steps (submission user text) st
  = (rendered
       (setLoading false
          (setError (Some text)
             (rendered (setError None (setLoading true st))))),
     [PreventDefault; GetUser]).
Proof.
  unfold submission. cbn [steps]. rewrite step_submit.
  rewrite (@step_user_failed _ (Fulfilled (Some user))
             (NotAForm (not_a_form text)) (not_a_form text))
    by (right; now exists user).
  reflexivity.
Qed.

Lemma submission_ends (user : User) (text : jsstring) (st : State) :
  let run := steps (submission user text) st in
  snd run = [PreventDefault; GetUser] /\
  inserted_rows (snd run) = [] /\
  navigations (snd run) = [] /\
  error (fst run) = Some text /\
  loading (fst run) = false.
Proof.
  cbv zeta. rewrite submission_runs. cbn [fst snd].
  split; [reflexivity|]. split; [reflexivity|]. split; [reflexivity|].
  match goal with
  | |- error (rendered ?x) = _ /\ _ =>
      destruct (rendered_state x) as (Hl & He & _)
  end.
  rewrite Hl, He. split; reflexivity.
Qed.

End DispatchFacts.

(* ===================================================================== *)
(** * The claims about the creation form *)
(* ===================================================================== *)

(** C3.  A submission that finds no authenticated identity issues no insert
    and navigates to the login view: the stretch of [handleSubmit] that
    resumes without a user makes exactly one call, [navigate('/login')].
    An insert is issued by no other event than the resumption of
    [handleSubmit] with an identity, and with an identity (and the form at
    hand) it is issued. *)
Theorem submit_requires_identity :
  forall (st : ListingCreate.State) (target : ListingCreate.currentTarget),
    snd (ListingCreate.step
           (ListingCreate.UserSettled (Fulfilled None) target) st)
    = [ListingCreate.Navigate "/login"] /\
    snd (ListingCreate.step ListingCreate.Submit st)
    = [ListingCreate.PreventDefault; ListingCreate.GetUser] /\
    (forall ev rows,
        In (ListingCreate.Insert rows) (snd (ListingCreate.step ev st)) ->
        exists user,
          ev = ListingCreate.UserSettled (Fulfilled (Some user))
                 ListingCreate.TheForm) /\
    (forall user,
        snd (ListingCreate.step
               (ListingCreate.UserSettled (Fulfilled (Some user))
                  ListingCreate.TheForm) st)
        = [ListingCreate.Insert [ListingCreate.submitted user st]]).
Proof.
  intros st target. repeat split.
  - now rewrite step_no_identity.
  - now rewrite step_submit.
  - intros ev rows H.
    destruct (insert_only_for_identity _ _ _ H) as (user & -> & _). eauto.
  - intros user. now rewrite step_user_inserts.
Qed.

Lemma submit_requires_identity_witness :
  exists user,
    ListingCreate.UserSettled (Fulfilled (Some Example.user))
      ListingCreate.TheForm
    = ListingCreate.UserSettled (Fulfilled (Some user)) ListingCreate.TheForm.
Proof.
  apply (proj1 (proj2 (proj2
           (submit_requires_identity Example.filled_form
              ListingCreate.TheForm)))
           _ [ListingCreate.submitted Example.user Example.filled_form]).
  vm_compute. left. reflexivity.
Defined.

(** The list that line 79 computes,
    [images.split(',').map(url => url.trim()).filter(url => url)], is the
    images input split at the commas, each field trimmed, the empty ones
    dropped, in order: [imageArray] satisfies that description and is the
    only list that does.  An input made of commas and white space only
    (the empty input included) gives the empty list, and
    ["http://a,  http://b ,"] gives [["http://a"; "http://b"]].  The row
    built with the form at hand carries that list. *)
Lemma imageArray_is_image_list :
  forall images : jsstring,
    ImagesSpec.image_list images (ListingCreate.imageArray images) /\
    (forall out,
        ImagesSpec.image_list images out ->
        out = ListingCreate.imageArray images) /\
    (Forall ImagesSpec.separator_or_white images ->
     ListingCreate.imageArray images = []) /\
    ListingCreate.imageArray (js "http://a,  http://b ,")
    = [js "http://a"; js "http://b"] /\
    (forall user st,
        ListingCreate.images (ListingCreate.controls st) = images ->
        NewListing.images (ListingCreate.submitted user st)
        = ListingCreate.imageArray images).
Proof.
  intros images. split; [|split; [|split; [|split]]].
  - exists (split comma images), (List.map trim (split comma images)).
    split; [|split].
    + split; [apply split_not_nil|]. split; [apply join_split|].
      apply split_no_sep.
    + apply Forall2_map_trimmed.
    + reflexivity.
  - intros out (fields & trimmed & (Hnil & Hjoin & Hsep) & Htrim & ->).
    rewrite (Forall2_trimmed_map Htrim).
    unfold ListingCreate.imageArray.
    rewrite <- Hjoin, split_join by assumption. reflexivity.
  - intros Hall. unfold ListingCreate.imageArray.
    assert (Hfields : forall f, In f (split comma images) -> trim f = []).
    { intros f Hf. apply trim_all_white. apply Forall_forall. intros c Hc.
      pose proof (split_no_sep comma images) as Hsep.
      rewrite Forall_forall in Hsep, Hall.
      destruct (Hall c (split_chars _ _ _ _ Hf Hc)) as [->|Hw];
        [|assumption].
      exfalso. now apply (Hsep f Hf). }
    induction (split comma images) as [|f fs IH]; [reflexivity|].
    simpl. rewrite (Hfields f) by now left. simpl.
    apply IH. intros g Hg. apply Hfields. now right.
  - vm_compute. reflexivity.
  - intros user st <-. reflexivity.
Qed.

(** C5, at the input where the code departs from it.  A signed-in user
    submits the form, whatever its images input.  When [handleSubmit]
    resumes after [await getUser()], React has reset [e.currentTarget] to
    [null] and [new FormData(e.currentTarget)] throws: line 79 is not
    reached, no insert is sent, so no image list is submitted, and the
    text of the [TypeError] is stored as the error of the form; an empty
    images input ends in that error like any other.  This is so in every
    state that the form reaches, and no event that the form receives sends
    a row.  The list that line 79 describes is the one of the claim. *)
Theorem submission_sends_no_image_list :
  forall (evs : list ListingCreate.event) (st : ListingCreate.State)
         (user : ListingCreate.User) (text : jsstring),
    forallb ListingCreate.dispatched evs = true ->
    let form := fst (ListingCreate.steps evs st) in
    let run :=
      ListingCreate.steps (ListingCreate.submission user text) form in
    ListingCreate.inserted_rows (snd (ListingCreate.steps evs st)) = [] /\
    snd run = [ListingCreate.PreventDefault; ListingCreate.GetUser] /\
    ListingCreate.inserted_rows (snd run) = [] /\
    ListingCreate.error (fst run) = Some text /\
    ListingCreate.loading (fst run) = false /\
    ImagesSpec.image_list
      (ListingCreate.images (ListingCreate.controls form))
      (ListingCreate.imageArray
         (ListingCreate.images (ListingCreate.controls form))).
Proof.
  intros evs st user text Hevs form run.
  split; [now apply dispatched_steps_no_insert|].
  destruct (submission_ends user text form) as (Hc & Hi & _ & He & Hl).
  fold run in Hc, Hi, He, Hl.
  split; [exact Hc|]. split; [exact Hi|]. split; [exact He|].
  split; [exact Hl|].
  apply imageArray_is_image_list.
Qed.

Lemma submission_sends_no_image_list_witness :
  ListingCreate.images
    (ListingCreate.controls
       (fst (ListingCreate.steps
               (Example.fill_in
                ++ [ListingCreate.Input ListingCreate.c_images
                      (js "http://a,  http://b ,")])
               ListingCreate.initial)))
  = js "http://a,  http://b ," /\
  snd (ListingCreate.steps
         (ListingCreate.submission Example.user Example.not_a_form_text)
         (fst (ListingCreate.steps
                 (Example.fill_in
                  ++ [ListingCreate.Input ListingCreate.c_images
                        (js "http://a,  http://b ,")])
                 ListingCreate.initial)))
  = [ListingCreate.PreventDefault; ListingCreate.GetUser].
Proof.
  split; [vm_compute; reflexivity|].
  apply (proj1 (proj2
           (@submission_sends_no_image_list
              (Example.fill_in
               ++ [ListingCreate.Input ListingCreate.c_images
                     (js "http://a,  http://b ,")])
              ListingCreate.initial Example.user Example.not_a_form_text
              ltac:(vm_compute; reflexivity)))).
Defined.

(** C6.  The seller reference of every inserted row is the id of the
    identity that [getUser] returned.  It does not depend on the form:
    whatever the entries of the form data (an entry named [seller_id]
    included) and whatever the state of the form, the same identity gives
    the same seller id, and that row passes the insert policy
    [auth.uid() = seller_id] for that identity. *)
Theorem seller_is_the_identity :
  (forall (user : ListingCreate.User) (formData : ListingCreate.FormData)
          (imageArray : list jsstring),
      NewListing.seller_id (ListingCreate.new_listing user formData imageArray)
      = ListingCreate.id user) /\
  (forall ev st rows row,
      In (ListingCreate.Insert rows) (snd (ListingCreate.step ev st)) ->
      In row rows ->
      exists user,
        ev = ListingCreate.UserSettled (Fulfilled (Some user))
               ListingCreate.TheForm /\
        NewListing.seller_id row = ListingCreate.id user /\
        Insert.policy_check (Some (ListingCreate.id user))
          (NewListing.seller_id row) = true) /\
  (forall user st1 st2,
      ListingCreate.inserted_sellers
        (snd (ListingCreate.step
                (ListingCreate.UserSettled (Fulfilled (Some user))
                   ListingCreate.TheForm) st1))
      = ListingCreate.inserted_sellers
          (snd (ListingCreate.step
                  (ListingCreate.UserSettled (Fulfilled (Some user))
                     ListingCreate.TheForm) st2))).
Proof.
  split; [|split].
  - reflexivity.
  - intros ev st rows row Hin Hrow.
    destruct (insert_only_for_identity _ _ _ Hin) as (user & -> & ->).
    destruct Hrow as [<-|[]]. exists user. repeat split.
    cbn. apply JsString_eqb_refl.
  - intros user st1 st2. now rewrite !step_user_inserts.
Qed.

Lemma seller_is_the_identity_witness :
  exists user,
    ListingCreate.UserSettled (Fulfilled (Some Example.user))
      ListingCreate.TheForm
    = ListingCreate.UserSettled (Fulfilled (Some user)) ListingCreate.TheForm
    /\ NewListing.seller_id
         (ListingCreate.submitted Example.user Example.filled_form)
       = ListingCreate.id user
    /\ Insert.policy_check (Some (ListingCreate.id user))
         (NewListing.seller_id
            (ListingCreate.submitted Example.user Example.filled_form))
       = true.
Proof.
  apply (proj1 (proj2 seller_is_the_identity)
           _ Example.filled_form
           [ListingCreate.submitted Example.user Example.filled_form]).
  - vm_compute. left. reflexivity.
  - left. reflexivity.
Defined.

(** What an accepted insert stores, column by column. *)
Lemma insert_row_columns (db : database) (uid : option jsstring)
  (new_id : jsstring) (now : Z) (r : NewListing.t) (l : Listing.t) :
  Insert.row db uid new_id now r = inr l ->
  Insert.convert integer_in (JsonNumber.json_number (NewListing.year r))
  = inr (Some (Listing.year l)) /\
  Insert.convert decimal_12_2_in (JsonNumber.json_number (NewListing.price r))
  = inr (Some (Listing.price l)) /\
  Insert.convert integer_in (JsonNumber.json_number (NewListing.mileage r))
  = inr (Some (Listing.mileage l)) /\
  Insert.convert car_condition_in (NewListing.condition r)
  = inr (Some (Listing.condition l)) /\
  Insert.convert transmission_in (NewListing.transmission r)
  = inr (Some (Listing.transmission l)) /\
  Insert.policy_check uid (NewListing.seller_id r) = true /\
  Listing.seller_id l = NewListing.seller_id r /\
  NewListing.brand_id r = Some (Listing.brand_id l) /\
  NewListing.model_id r = Some (Listing.model_id l) /\
  Listing.images l = NewListing.images r.
Proof.
  unfold Insert.row, Insert.bind, Insert.required, Insert.check.
  repeat (match goal with
          | |- context [match ?x with _ => _ end] => destruct x eqn:?
          end; try discriminate).
  intros [= <-].
  repeat match goal with
         | H : match ?x with _ => _ end = _ |- _ =>
             destruct x eqn:?; try discriminate H; injection H as ?
         end.
  subst. cbn. repeat split; try assumption; try reflexivity.
Qed.

Lemma submitted_typed (user : ListingCreate.User) (st : ListingCreate.State) :
  let c := ListingCreate.controls st in
  let r := ListingCreate.submitted user st in
  NewListing.year r = parseInt (ListingCreate.year c) /\
  NewListing.price r = parseFloat (ListingCreate.price c) /\
  NewListing.mileage r = parseInt (ListingCreate.mileage c) /\
  NewListing.condition r = Some (ListingCreate.condition c) /\
  NewListing.transmission r = Some (ListingCreate.transmission c).
Proof.
  destruct (get_typed st) as (Hy & Hp & Hm & Hc & Ht).
  intros c r. subst c r.
  unfold ListingCreate.submitted, ListingCreate.new_listing.
  cbn [NewListing.year NewListing.price NewListing.mileage
       NewListing.condition NewListing.transmission].
  rewrite Hy, Hp, Hm, Hc, Ht. repeat split.
Qed.

(** The row that lines 81-99 build from the year ["2021"], the price
    ["15999.99"], the mileage ["42000"], the condition ["used"] and the
    transmission ["manual"], with the form at hand: its year is the number
    2021 and its mileage the number 42000 ([parseInt]), its price is the
    binary64 value nearest to 15999.99 ([parseFloat]), written on the wire
    as 15999.99, and its condition and transmission are the two strings.
    Every row that the database stores for it has the integer year 2021,
    the price 15999.99 as a [decimal(12,2)] (1599999 hundredths), the
    integer mileage 42000, the condition [used] and the transmission
    [manual]. *)
Lemma typed_fields_row :
  forall (user : ListingCreate.User) (st : ListingCreate.State),
    ListingCreate.year (ListingCreate.controls st) = js "2021" ->
    ListingCreate.price (ListingCreate.controls st) = js "15999.99" ->
    ListingCreate.mileage (ListingCreate.controls st) = js "42000" ->
    ListingCreate.condition (ListingCreate.controls st) = js "used" ->
    ListingCreate.transmission (ListingCreate.controls st) = js "manual" ->
    let r := ListingCreate.submitted user st in
    NewListing.year r = Fin 2021 /\
    NewListing.price r = Fin (8796087524649861 # 549755813888) /\
    NewListing.price r = of_Q (1599999 # 100) /\
    JsonNumber.json_number (NewListing.price r) = Some (1599999 # 100) /\
    NewListing.mileage r = Fin 42000 /\
    NewListing.condition r = Some (js "used") /\
    NewListing.transmission r = Some (js "manual") /\
    (forall db uid new_id now l,
        Insert.row db uid new_id now r = inr l ->
        Listing.year l = 2021%Z /\
        Listing.price l = 1599999%Z /\
        Listing.mileage l = 42000%Z /\
        Listing.condition l = cond_used /\
        Listing.transmission l = manual).
Proof.
  intros user st Hy Hp Hm Hc Ht r.
  destruct (submitted_typed user st) as (Ey & Ep & Em & Ec & Et).
  fold r in Ey, Ep, Em, Ec, Et.
  rewrite Hy in Ey. rewrite Hp in Ep. rewrite Hm in Em.
  rewrite Hc in Ec. rewrite Ht in Et.
  assert (Vy : parseInt (js "2021") = Fin 2021) by (vm_compute; reflexivity).
  assert (Vp : parseFloat (js "15999.99")
               = Fin (8796087524649861 # 549755813888))
    by (vm_compute; reflexivity).
  assert (Vm : parseInt (js "42000") = Fin 42000) by (vm_compute; reflexivity).
  rewrite Vy in Ey. rewrite Vp in Ep. rewrite Vm in Em.
  split; [exact Ey|]. split; [exact Ep|].
  split; [rewrite Ep; vm_compute; reflexivity|].
  split; [rewrite Ep; vm_compute; reflexivity|].
  split; [exact Em|]. split; [exact Ec|]. split; [exact Et|].
  intros db uid new_id now l H.
  destruct (insert_row_columns _ _ _ _ _ H) as (Cy & Cp & Cm & Cc & Ct & _).
  rewrite Ey in Cy. rewrite Ep in Cp. rewrite Em in Cm.
  rewrite Ec in Cc. rewrite Et in Ct.
  assert (Dy : Insert.convert integer_in
                 (JsonNumber.json_number (Fin 2021)) = inr (Some 2021%Z))
    by (vm_compute; reflexivity).
  assert (Dp : Insert.convert decimal_12_2_in
                 (JsonNumber.json_number
                    (Fin (8796087524649861 # 549755813888)))
               = inr (Some 1599999%Z))
    by (vm_compute; reflexivity).
  assert (Dm : Insert.convert integer_in
                 (JsonNumber.json_number (Fin 42000)) = inr (Some 42000%Z))
    by (vm_compute; reflexivity).
  assert (Dc : Insert.convert car_condition_in (Some (js "used"))
               = inr (Some cond_used))
    by (vm_compute; reflexivity).
  assert (Dt : Insert.convert transmission_in (Some (js "manual"))
               = inr (Some manual))
    by (vm_compute; reflexivity).
  rewrite Dy in Cy. rewrite Dp in Cp. rewrite Dm in Cm.
  rewrite Dc in Cc. rewrite Dt in Ct.
  injection Cy as <-. injection Cp as <-. injection Cm as <-.
  injection Cc as <-. injection Ct as <-. repeat split.
Qed.

(** C7, at the input where the code departs from it.  A signed-in user
    submits the form with year ["2021"], price ["15999.99"], mileage
    ["42000"], condition ["used"] and transmission ["manual"].  The
    handler asks for the user and, resumed, throws at
    [new FormData(e.currentTarget)], React having reset
    [e.currentTarget]: no insert is sent and no listing row is produced,
    the form is not left and the text of the [TypeError] is its error.
    The row that lines 81-99 describe, had they run, is the one of the
    claim, and the database would store the values of the claim for it. *)
Theorem typed_submission_produces_no_row :
  forall (user : ListingCreate.User) (text : jsstring)
         (st : ListingCreate.State),
    ListingCreate.year (ListingCreate.controls st) = js "2021" ->
    ListingCreate.price (ListingCreate.controls st) = js "15999.99" ->
    ListingCreate.mileage (ListingCreate.controls st) = js "42000" ->
    ListingCreate.condition (ListingCreate.controls st) = js "used" ->
    ListingCreate.transmission (ListingCreate.controls st) = js "manual" ->
    let run := ListingCreate.steps (ListingCreate.submission user text) st in
    let r := ListingCreate.submitted user st in
    (snd run = [ListingCreate.PreventDefault; ListingCreate.GetUser] /\
     ListingCreate.inserted_rows (snd run) = [] /\
     ListingCreate.navigations (snd run) = [] /\
     ListingCreate.error (fst run) = Some text /\
     ListingCreate.loading (fst run) = false) /\
    (NewListing.year r = Fin 2021 /\
     JsonNumber.json_number (NewListing.price r) = Some (1599999 # 100) /\
     NewListing.mileage r = Fin 42000 /\
     NewListing.condition r = Some (js "used") /\
     NewListing.transmission r = Some (js "manual") /\
     forall db uid new_id now l,
       Insert.row db uid new_id now r = inr l ->
       Listing.year l = 2021%Z /\
       Listing.price l = 1599999%Z /\
       Listing.mileage l = 42000%Z /\
       Listing.condition l = cond_used /\
       Listing.transmission l = manual).
Proof.
  intros user text st Hy Hp Hm Hc Ht run r.
  split; [apply submission_ends|].
  destruct (typed_fields_row user st Hy Hp Hm Hc Ht)
    as (Ey & _ & _ & Ej & Em & Ec & Et & Hrow).
  fold r in Ey, Ej, Em, Ec, Et, Hrow.
  split; [exact Ey|]. split; [exact Ej|]. split; [exact Em|].
  split; [exact Ec|]. split; [exact Et|]. exact Hrow.
Qed.

Lemma typed_submission_produces_no_row_witness :
  ListingCreate.year (ListingCreate.controls Example.filled_form)
  = js "2021" /\
  ListingCreate.inserted_rows
    (snd (ListingCreate.steps
            (ListingCreate.submission Example.user Example.not_a_form_text)
            Example.filled_form)) = [] /\
  ListingCreate.error
    (fst (ListingCreate.steps
            (ListingCreate.submission Example.user Example.not_a_form_text)
            Example.filled_form)) = Some Example.not_a_form_text.
Proof.
  split; [reflexivity|].
  pose proof (@typed_submission_produces_no_row Example.user
                Example.not_a_form_text Example.filled_form
                eq_refl eq_refl eq_refl eq_refl eq_refl) as H.
  cbv zeta in H. destruct H as ((_ & Hi & _ & He & _) & _).
  split; [exact Hi | exact He].
Defined.

(* ===================================================================== *)
(** * The answers of the service: order and conjunction *)
(* ===================================================================== *)

Section OrderedFacts.

Variable Row : Type.
Variable holds : filter -> Row -> bool.
Variable before : Row -> Row -> bool.

Lemma insert_ordered_perm (r : Row) (l : list Row) :
  Permutation (r :: l) (insert_ordered before r l).
Proof.
  induction l as [|x l IH]; simpl; [reflexivity|].
  destruct (before r x); [reflexivity|].
  rewrite perm_swap. now constructor.
Qed.

Lemma ordered_perm (l : list Row) : Permutation l (ordered before l).
Proof.
  induction l as [|x l IH]; simpl; [constructor|].
  rewrite <- insert_ordered_perm. now constructor.
Qed.

Lemma rows_perm (fs : list filter) (t : list Row) :
  Permutation (List.filter (matches holds fs) t) (rows holds before fs t).
Proof. apply ordered_perm. Qed.

(** The filters of a request are a conjunction. *)
Lemma rows_in (fs : list filter) (t : list Row) (r : Row) :
  In r (rows holds before fs t) <->
  In r t /\ forall f, In f fs -> holds f r = true.
Proof.
  rewrite <- (Permutation_in' eq_refl (rows_perm fs t)).
  rewrite filter_In. unfold matches. now rewrite forallb_forall.
Qed.

Hypothesis before_total : forall a b, before a b = true \/ before b a = true.
Hypothesis before_trans :
  forall a b c, before a b = true -> before b c = true -> before a c = true.

Lemma insert_ordered_sorted (r : Row) (l : list Row) :
  StronglySorted (fun a b => before a b = true) l ->
  StronglySorted (fun a b => before a b = true) (insert_ordered before r l).
Proof.
  induction 1 as [|x l Hl IH Hx]; simpl.
  - constructor; constructor.
  - destruct (before r x) eqn:Hrx.
    + constructor; [now constructor|].
      constructor; [assumption|].
      rewrite Forall_forall in Hx |- *. intros y Hy.
      eapply before_trans; eauto.
    + constructor; [assumption|].
      rewrite Forall_forall in Hx |- *. intros y Hy.
      apply (Permutation_in _ (Permutation_sym (insert_ordered_perm r l)))
        in Hy.
      destruct Hy as [<-|Hy]; [|now apply Hx].
      destruct (before_total r x) as [H|H]; congruence.
Qed.

Lemma ordered_sorted (l : list Row) :
  StronglySorted (fun a b => before a b = true) (ordered before l).
Proof.
  induction l as [|x l IH]; simpl; [constructor|].
  now apply insert_ordered_sorted.
Qed.

End OrderedFacts.

Lemma newest_first_total (a b : Listing.t) :
  newest_first a b = true \/ newest_first b a = true.
Proof. unfold newest_first. rewrite !Z.leb_le. lia. Qed.

Lemma newest_first_trans (a b c : Listing.t) :
  newest_first a b = true -> newest_first b c = true ->
  newest_first a c = true.
Proof. unfold newest_first. rewrite !Z.leb_le. lia. Qed.

(** The rows of a listing read come newest first. *)
Lemma listing_rows_sorted (db : database) (q : query) :
  StronglySorted FilterSpec.not_older (Backend.listing_rows db q).
Proof.
  pose proof (ordered_sorted newest_first newest_first_total
                newest_first_trans
                (List.filter (matches listing_holds (filters q))
                   (car_listings db))) as H.
  unfold Backend.listing_rows, rows.
  induction H as [|x l Hl IH Hx]; constructor; [assumption|].
  rewrite Forall_forall in Hx |- *. intros y Hy.
  unfold FilterSpec.not_older. apply Z.leb_le. now apply Hx.
Qed.

(* ===================================================================== *)
(** * The listing index: the request that [fetchListings] builds *)
(* ===================================================================== *)

Section QueryFacts.

Import Home FilterSpec.

Lemma when_truthy_filters (v : option jsval) (mk : jsval -> query -> query)
  (F : jsval -> filter) (q : query) :
  (forall x q', Postgrest.filters (mk x q') = Postgrest.filters q' ++ [F x]) ->
  Postgrest.filters (when_truthy v mk q) =
  Postgrest.filters q ++ match v with
               | Some x => if truthy x then [F x] else []
               | None => []
               end.
Proof.
  intros Hmk. unfold when_truthy. destruct v as [x|].
  - destruct (truthy x); [apply Hmk | now rewrite app_nil_r].
  - now rewrite app_nil_r.
Qed.

Lemma when_truthy_shape (v : option jsval) (mk : jsval -> query -> query)
  (q : query) :
  (forall x q', table (mk x q') = table q' /\
                columns (mk x q') = columns q' /\
                order_by (mk x q') = order_by q' /\
                single_row (mk x q') = single_row q') ->
  table (when_truthy v mk q) = table q /\
  columns (when_truthy v mk q) = columns q /\
  order_by (when_truthy v mk q) = order_by q /\
  single_row (when_truthy v mk q) = single_row q.
Proof.
  intros Hmk. unfold when_truthy. destruct v as [x|]; [|tauto].
  destruct (truthy x); [apply Hmk | tauto].
Qed.

(** The filters of the request, field by field. *)
Lemma listings_query_filters (f : Filters) :
  Postgrest.filters (listings_query f) = truthy_filters f.
Proof.
  unfold listings_query.
  repeat (erewrite when_truthy_filters by (intros; reflexivity)).
  cbn [Postgrest.filters order select from].
  unfold truthy_filters, all_fields, of_truthy.
  cbn [flat_map get predicate_of].
  rewrite app_nil_r, <- !app_assoc. reflexivity.
Qed.

Lemma listings_query_shape (f : Filters) :
  table (listings_query f) = "car_listings" /\
  columns (listings_query f)
  = ["*"; "car_brands (name)"; "car_models (name)"] /\
  order_by (listings_query f) = Some ("created_at", false) /\
  single_row (listings_query f) = false.
Proof.
  unfold listings_query. repeat split.
  - repeat (erewrite (fun v mk q H => proj1 (when_truthy_shape v mk q H))
              by (intros; repeat split)).
    reflexivity.
  - repeat (erewrite
              (fun v mk q H => proj1 (proj2 (when_truthy_shape v mk q H)))
              by (intros; repeat split)).
    reflexivity.
  - repeat (erewrite
              (fun v mk q H =>
                 proj1 (proj2 (proj2 (when_truthy_shape v mk q H))))
              by (intros; repeat split)).
    reflexivity.
  - repeat (erewrite
              (fun v mk q H =>
                 proj2 (proj2 (proj2 (when_truthy_shape v mk q H))))
              by (intros; repeat split)).
    reflexivity.
Qed.

End QueryFacts.

Section FilterFacts.

Import Home FilterSpec.

Lemma predicate_of_inj (n n' : field) (v v' : jsval) :
  predicate_of n v = predicate_of n' v' -> n = n' /\ v = v'.
Proof.
  destruct n, n'; cbn; intros H; try discriminate H;
    injection H as ->; split; reflexivity.
Qed.

Lemma all_fields_complete (n : field) : In n all_fields.
Proof. destruct n; cbn; tauto. Qed.

(** A predicate is in the request exactly when its field holds a truthy
    value. *)
Lemma truthy_filters_in (f : Filters) (name : field) (v : jsval) :
  In (predicate_of name v) (truthy_filters f) <->
  get name f = Some v /\ truthy v = true.
Proof.
  unfold truthy_filters. rewrite in_flat_map. split.
  - intros (n & _ & Hin). unfold of_truthy in Hin.
    destruct (get n f) as [v'|] eqn:Hget; [|destruct Hin].
    destruct (truthy v') eqn:Htr; [|destruct Hin].
    destruct Hin as [Heq|[]].
    apply predicate_of_inj in Heq. destruct Heq as [-> ->]. now split.
  - intros [Hget Htr]. exists name. split; [apply all_fields_complete|].
    unfold of_truthy. rewrite Hget, Htr. now left.
Qed.

Lemma truthy_filters_length (f : Filters) :
  List.length (truthy_filters f) = truthy_count f.
Proof.
  unfold truthy_filters, truthy_count.
  induction all_fields as [|n l IH]; [reflexivity|].
  cbn [flat_map List.filter]. rewrite length_app, IH.
  unfold of_truthy, truthy_opt.
  destruct (get n f) as [v|]; [destruct (truthy v)|]; reflexivity.
Qed.

(** Every predicate of the request is the one of some field. *)
Lemma truthy_filters_origin (f : Filters) (p : filter) :
  In p (truthy_filters f) ->
  exists name v, p = predicate_of name v /\ get name f = Some v /\
                 truthy v = true.
Proof.
  unfold truthy_filters. rewrite in_flat_map.
  intros (n & _ & Hin). unfold of_truthy in Hin.
  destruct (get n f) as [v|] eqn:Hget; [|destruct Hin].
  destruct (truthy v) eqn:Htr; [|destruct Hin].
  destruct Hin as [<-|[]]. eauto.
Qed.

End FilterFacts.

(** ** The steps of the listing index *)

Section HomeFacts.

Import Home.

Lemma Q_eqb_refl (q : Q) : Q_eqb q q = true.
Proof. unfold Q_eqb. now rewrite Z.eqb_refl, Pos.eqb_refl. Qed.

Lemma jsval_eqb_refl (v : jsval) : jsval_eqb v v = true.
Proof.
  destruct v as [s|[|b|q]]; cbn.
  - apply JsString_eqb_refl.
  - reflexivity.
  - now destruct b.
  - apply Q_eqb_refl.
Qed.

Lemma object_is_refl (v : option jsval) : object_is v v = true.
Proof. destruct v; [apply jsval_eqb_refl | reflexivity]. Qed.

Ltac run_handler :=
  unfold Handler.run, on_event, handleFilterChange, applyFilters,
    resetFilters, toggleFilters, mount_effect, brand_effect, fetchListings,
    fetchListings_resumed, fetchBrands, fetchBrands_resumed, fetchModels,
    fetchModels_resumed, log_error,
    Handler.try_catch, Handler.try_catch_finally, Handler.bind,
    Handler.awaited, Handler.start, Handler.await, Handler.read,
    Handler.peek, Handler.update, Handler.ret, Handler.call, Handler.throw,
    Handler.return_.

(** A step that leaves [filters.brand_id] as it is runs no effect. *)
Lemma step_same_brand (ev : event) (st st1 : State) (cs : list call) :
  Handler.run (on_event ev) st = (st1, cs) ->
  brand_id (filters st1) = brand_id (filters st) ->
  step ev st = (st1, cs).
Proof.
  intros Hrun Hb. unfold step. rewrite Hrun, Hb. now rewrite object_is_refl.
Qed.

(** The brand effect when the brand is set: the models are fetched, the
    state is not touched. *)
Lemma brand_effect_truthy (st : State) (b : jsval) :
  brand_id (filters st) = Some b -> truthy b = true ->
  Handler.run brand_effect st =
  (st, [Select (order "name" true
                  (eq "brand_id" b (select ["*"] (from "car_models"))))]).
Proof.
  intros Hb Ht. run_handler. rewrite Hb, Ht. reflexivity.
Qed.

(** The brand effect when there is no brand: the model list is emptied and
    the model filter is cleared. *)
Lemma brand_effect_falsy (st : State) :
  truthy_opt (brand_id (filters st)) = false ->
  Handler.run brand_effect st =
  (setFilters (set f_model_id None) (setModels [] st), []).
Proof.
  intros Hb. run_handler. unfold truthy_opt in Hb.
  destruct (brand_id (filters st)) as [b|]; [rewrite Hb|]; reflexivity.
Qed.

Lemma step_listings_failed (st : State)
  (r : settled (response (list CarListing))) (e : error_value) :
  failure r = Some e ->
  step (ListingsSettled r) st =
  (setLoading false st, [ConsoleError "Error fetching listings:" e]).
Proof.
  intros Hf. apply step_same_brand; [|reflexivity]. run_handler.
  destruct r as [res|e']; cbn in Hf |- *.
  - now rewrite Hf.
  - now injection Hf as ->.
Qed.

Lemma step_listings_ok (st : State) (res : response (list CarListing)) :
  error res = None ->
  step (ListingsSettled (Fulfilled res)) st =
  (setLoading false (setListings (or_empty (data res)) st), []).
Proof.
  intros Hf. apply step_same_brand; [|reflexivity]. run_handler. cbn.
  now rewrite Hf.
Qed.

Lemma step_models_settled (st : State)
  (r : settled (response (list CarModel))) :
  filters (fst (step (ModelsSettled r) st)) = filters st.
Proof.
  destruct r as [res|e].
  - erewrite step_same_brand; [| run_handler; reflexivity | reflexivity].
    reflexivity.
  - erewrite step_same_brand; [| run_handler; reflexivity | reflexivity].
    reflexivity.
Qed.

(** Choosing a model: only the model filter changes. *)
Lemma step_select_model (st : State) (M : jsstring) :
  JsString.truthy M = true ->
  filters (fst (step (onSelect f_model_id M) st))
  = set f_model_id (Some (VStr M)) (filters st).
Proof.
  intros HM. unfold onSelect. rewrite HM.
  erewrite step_same_brand; [| run_handler; reflexivity | reflexivity].
  reflexivity.
Qed.

(** Choosing a brand: only the brand filter changes; the effect that runs
    when the brand is a different one fetches its models and leaves the
    model filter alone. *)
Lemma step_select_brand (st : State) (B : jsstring) :
  JsString.truthy B = true ->
  filters (fst (step (onSelect f_brand_id B) st))
  = set f_brand_id (Some (VStr B)) (filters st).
Proof.
  intros HB. unfold onSelect. rewrite HB. unfold step.
  replace (Handler.run (on_event (FilterChange f_brand_id (Some (VStr B)))) st)
    with (setFilters (set f_brand_id (Some (VStr B))) st, @nil call)
    by (run_handler; reflexivity).
  destruct (object_is _ _); [reflexivity|].
  rewrite (@brand_effect_truthy _ (VStr B)); [reflexivity | reflexivity |].
  exact HB.
Qed.

(** Clearing the brand: the brand filter is cleared and, when a brand was
    selected before, the effect empties the model list and clears the
    model filter. *)
Lemma step_clear_brand (st : State) :
  truthy_opt (brand_id (filters st)) = true ->
  step (onSelect f_brand_id []) st
  = (setFilters (set f_model_id None)
       (setModels [] (setFilters (set f_brand_id None) st)), []).
Proof.
  intros Hb. unfold onSelect. cbn [JsString.truthy]. unfold step.
  replace (Handler.run (on_event (FilterChange f_brand_id None)) st)
    with (setFilters (set f_brand_id None) st, @nil call)
    by (run_handler; reflexivity).
  cbn [filters setFilters set brand_id].
  destruct (brand_id (filters st)) as [b|]; [|discriminate].
  cbn [object_is]. rewrite brand_effect_falsy by reflexivity. reflexivity.
Qed.

Lemma steps_cons (ev : event) (evs : list event) (st : State) :
  fst (steps (ev :: evs) st) = fst (steps evs (fst (step ev st))).
Proof.
  cbn [steps]. destruct (step ev st) as [st1 cs1]. cbn [fst].
  now destruct (steps evs st1).
Qed.

(** [resetFilters]: the request is built from the filters of the render in
    which the button was pressed. *)
Lemma step_reset (st : State) :
  step ResetFilters st =
  (if object_is (brand_id (filters st)) None
   then setShowFilters false
          (setLoading true (setFilters (fun _ => no_filters) st))
   else setFilters (set f_model_id None)
          (setModels []
             (setShowFilters false
                (setLoading true (setFilters (fun _ => no_filters) st)))),
   [Select (listings_query (filters st))]).
Proof.
  unfold step.
  replace (Handler.run (on_event ResetFilters) st)
    with (setShowFilters false
            (setLoading true (setFilters (fun _ => no_filters) st)),
          [Select (listings_query (filters st))])
    by (run_handler; reflexivity).
  cbn [filters setShowFilters setLoading setFilters no_filters brand_id].
  destruct (object_is (brand_id (filters st)) None); [reflexivity|].
  rewrite brand_effect_falsy by reflexivity. reflexivity.
Qed.

(** [fetchModels] and [fetchBrands] of the listing index do not look at
    the [error] of the answer: an answer with an error and no data empties
    the list ([data || []]); only a rejected request leaves it alone. *)
Lemma step_models_error_answer (st : State) (e : error_value) :
  step (ModelsSettled (Fulfilled {| data := None; error := Some e |})) st
  = (setModels [] st, []).
Proof.
  apply step_same_brand; [run_handler|]; reflexivity.
Qed.

Lemma step_models_rejected (st : State) (e : error_value) :
  step (ModelsSettled (Rejected e)) st
  = (st, [ConsoleError "Error fetching models:" e]).
Proof.
  apply step_same_brand; [run_handler|]; reflexivity.
Qed.

Lemma step_brands_error_answer (st : State) (e : error_value) :
  step (BrandsSettled (Fulfilled {| data := None; error := Some e |})) st
  = (setBrands [] st, []).
Proof.
  apply step_same_brand; [run_handler|]; reflexivity.
Qed.

Lemma step_brands_rejected (st : State) (e : error_value) :
  step (BrandsSettled (Rejected e)) st
  = (st, [ConsoleError "Error fetching brands:" e]).
Proof.
  apply step_same_brand; [run_handler|]; reflexivity.
Qed.

Lemma step_apply (st : State) :
  step ApplyFilters st =
  (setShowFilters false (setLoading true st),
   [Select (listings_query (filters st))]).
Proof.
  apply step_same_brand; [run_handler|]; reflexivity.
Qed.

End HomeFacts.

(* ===================================================================== *)
(** * The claims about the listing index *)
(* ===================================================================== *)

Lemma filter_no_filters (Row : Type) (holds : filter -> Row -> bool)
  (t : list Row) :
  List.filter (matches holds []) t = t.
Proof. induction t as [|x l IH]; [reflexivity|]. cbn. now rewrite IH. Qed.

(** C1, as the code has it.  For every filter set the request of
    [fetchListings] reads [car_listings] ordered by [created_at]
    descending, and carries exactly one predicate for each field whose
    value is truthy (a non-empty string, a number other than [0] and
    [NaN]): equality for brand id, model id, transmission and condition,
    [>=] for the three minima, [<=] for the three maxima.  A field that is
    absent, or present with the value [0], [NaN] or the empty string,
    contributes no predicate.  The predicates are combined conjunctively:
    for a filter set of the declared types whose brand and model are ids
    of the database, the service either refuses the request, which it does
    exactly when an operand is not taken as input for its column (a year
    or mileage bound that is not a whole number within 32 bits, a
    transmission or condition that is not a label), or answers with the
    listings that satisfy all the predicates, newest first.  The empty
    filter set has no predicate and is answered with all listings, newest
    first. *)
Theorem listings_query_truthy_fields :
  forall f : Home.Filters,
    let q := Home.listings_query f in
    (table q = "car_listings" /\ order_by q = Some ("created_at", false)) /\
    filters q = FilterSpec.truthy_filters f /\
    (forall name v,
        In (FilterSpec.predicate_of name v) (filters q) <->
        Home.get name f = Some v /\ truthy v = true) /\
    (forall p,
        In p (filters q) ->
        exists name v, p = FilterSpec.predicate_of name v /\
                       Home.get name f = Some v) /\
    List.length (filters q) = FilterSpec.truthy_count f /\
    (forall (invalid_input : error_value) (db : database),
        Home.typed f = true -> Backend.known_ids db f = true ->
        ((exists p, In p (filters q) /\ listing_operand_ok p = false) ->
         Backend.listings invalid_input db q
         = {| data := None; error := Some invalid_input |}) /\
        ((forall p, In p (filters q) -> listing_operand_ok p = true) ->
         exists rows,
           Backend.listings invalid_input db q
           = Backend.ok (List.map (Backend.home_row db) rows) /\
           (forall l,
               In l rows <->
               In l (car_listings db) /\
               forall p, In p (filters q) -> listing_holds p l = true) /\
           Permutation
             (List.filter (matches listing_holds (filters q))
                (car_listings db)) rows /\
           StronglySorted FilterSpec.not_older rows)) /\
    filters (Home.listings_query Home.no_filters) = [] /\
    (forall (invalid_input : error_value) (db : database),
        exists rows,
          Backend.listings invalid_input db
            (Home.listings_query Home.no_filters)
          = Backend.ok (List.map (Backend.home_row db) rows) /\
          Permutation (car_listings db) rows /\
          StronglySorted FilterSpec.not_older rows) /\
    (forall st,
        Home.filters st = f ->
        snd (Home.step Home.ApplyFilters st) = [Home.Select q]).
Proof.
  intros f q. subst q.
  split; [|split; [|split; [|split; [|split; [|split; [|split; [|split]]]]]]].
  9: { intros st <-. now rewrite step_apply. }
  - destruct (listings_query_shape f) as (Ht & _ & Ho & _). now split.
  - apply listings_query_filters.
  - intros name v. rewrite listings_query_filters.
    apply truthy_filters_in.
  - intros p Hp. rewrite listings_query_filters in Hp.
    destruct (truthy_filters_origin _ _ Hp) as (name & v & -> & Hget & _).
    eauto.
  - rewrite listings_query_filters. apply truthy_filters_length.
  - intros invalid_input db _ _. unfold Backend.listings. split.
    + intros (p & Hp & Hbad).
      destruct (forallb listing_operand_ok
                  (filters (Home.listings_query f))) eqn:E; [|reflexivity].
      rewrite forallb_forall in E. rewrite (E p Hp) in Hbad. discriminate.
    + intros Hall.
      assert (E : forallb listing_operand_ok
                    (filters (Home.listings_query f)) = true)
        by now apply forallb_forall.
      rewrite E. exists (Backend.listing_rows db (Home.listings_query f)).
      split; [reflexivity|]. split; [intros l; apply rows_in|].
      split; [apply rows_perm | apply listing_rows_sorted].
  - reflexivity.
  - intros invalid_input db.
    exists (Backend.listing_rows db (Home.listings_query Home.no_filters)).
    split; [reflexivity|]. split; [|apply listing_rows_sorted].
    pose proof (rows_perm listing_holds newest_first [] (car_listings db))
      as H.
    now rewrite filter_no_filters in H.
Qed.

Lemma listings_query_truthy_fields_witness :
  (Home.get Home.f_minPrice
     (Home.set Home.f_minPrice (Some (VNum (Fin 20000))) Home.no_filters)
   = Some (VNum (Fin 20000)) /\
   truthy (VNum (Fin 20000)) = true) /\
  Backend.listings Example.plain_error Example.db
    (Home.listings_query
       (Home.set Home.f_minYear (Some (VNum (Fin (4037 # 2))))
          Home.no_filters))
  = {| data := None; error := Some Example.plain_error |} /\
  exists rows,
    Backend.listings Example.plain_error Example.db
      (Home.listings_query Example.priced)
    = Backend.ok (List.map (Backend.home_row Example.db) rows) /\
    StronglySorted FilterSpec.not_older rows.
Proof.
  split; [|split].
  - pose proof (listings_query_truthy_fields
                  (Home.set Home.f_minPrice (Some (VNum (Fin 20000)))
                     Home.no_filters)) as H.
    cbv zeta in H. destruct H as (_ & _ & H & _).
    apply (proj1 (H Home.f_minPrice (VNum (Fin 20000)))).
    left. reflexivity.
  - pose proof (listings_query_truthy_fields
                  (Home.set Home.f_minYear (Some (VNum (Fin (4037 # 2))))
                     Home.no_filters)) as H.
    cbv zeta in H. destruct H as (_ & _ & _ & _ & _ & H & _).
    apply (proj1 (H Example.plain_error Example.db eq_refl eq_refl)).
    exists {| column := "year"; op := op_gte;
              value := VNum (Fin (4037 # 2)) |}.
    split; [left; reflexivity | vm_compute; reflexivity].
  - pose proof (listings_query_truthy_fields Example.priced) as H.
    cbv zeta in H. destruct H as (_ & _ & _ & _ & _ & H & _).
    destruct (proj2 (H Example.plain_error Example.db eq_refl eq_refl))
      as (rows & Hrows & _ & _ & Hsorted).
    + intros p Hp. vm_compute in Hp.
      repeat (destruct Hp as [<-|Hp]; [vm_compute; reflexivity|]).
      contradiction.
    + exists rows. now split.
Defined.

(** C1, as it is stated, fails.  The filter set [{ maxPrice: 0 }] has a
    present field, yet the request carries no predicate: it is the request
    of the empty filter set and not the one with [price <= 0], and the
    listing priced 15000 is answered although its price is not [<= 0].
    The same happens to a field that holds the empty string. *)
Lemma zero_valued_filter_is_dropped :
  let f := Home.set Home.f_maxPrice (Some (VNum (Fin 0))) Home.no_filters in
  let g := Home.set Home.f_brand_id (Some (VStr [])) Home.no_filters in
  Home.get Home.f_maxPrice f = Some (VNum (Fin 0)) /\
  filters (Home.listings_query f) = [] /\
  FilterSpec.present_filters f
  = [{| column := "price"; op := op_lte; value := VNum (Fin 0) |}] /\
  filters (Home.listings_query f) <> FilterSpec.present_filters f /\
  In (Example.car "l1" 1500000 10)
    (Backend.listing_rows Example.db (Home.listings_query f)) /\
  listing_holds (FilterSpec.predicate_of Home.f_maxPrice (VNum (Fin 0)))
    (Example.car "l1" 1500000 10) = false /\
  Home.get Home.f_brand_id g = Some (VStr []) /\
  filters (Home.listings_query g) = [] /\
  filters (Home.listings_query g) <> FilterSpec.present_filters g.
Proof.
  cbv zeta.
  split; [vm_compute; reflexivity|].
  split; [vm_compute; reflexivity|].
  split; [vm_compute; reflexivity|].
  split; [vm_compute; discriminate|].
  split; [vm_compute; tauto|].
  split; [vm_compute; reflexivity|].
  split; [vm_compute; reflexivity|].
  split; [vm_compute; reflexivity|].
  vm_compute; discriminate.
Qed.


(** C10.  [resetFilters] empties the stored filter record, but the request
    that [fetchListings] sends from the same handler is built from the
    filters of the render in which the button was pressed.  It carries
    their predicates: with the panel set to BMW and prices from 20000 to
    50000 the request is not the one of the empty filter set, and it is
    answered with one listing where the empty filter set is answered with
    three. *)
Theorem reset_fetches_with_previous_filters :
  forall st : Home.State,
    Home.filters (fst (Home.step Home.ResetFilters st)) = Home.no_filters /\
    snd (Home.step Home.ResetFilters st)
    = [Home.Select (Home.listings_query (Home.filters st))] /\
    snd (Home.step Home.ResetFilters Example.priced_home)
    <> [Home.Select (Home.listings_query Home.no_filters)] /\
    List.map Listing.id
      (Backend.listing_rows Example.db
         (Home.listings_query (Home.filters Example.priced_home)))
    = [js "l2"] /\
    List.map Listing.id
      (Backend.listing_rows Example.db (Home.listings_query Home.no_filters))
    = [js "l2"; js "l3"; js "l1"].
Proof.
  intros st. rewrite step_reset.
  split; [|split; [|split; [|split]]].
  - now destruct (object_is _ _).
  - reflexivity.
  - rewrite step_reset. cbn [snd]. intros H.
    apply (f_equal (fun cs => match cs with
                              | [Home.Select q] => filters q
                              | _ => []
                              end)) in H.
    vm_compute in H. discriminate.
  - vm_compute. reflexivity.
  - vm_compute. reflexivity.
Qed.

(** C8, at the input where the code departs from it.  [fetchModels] and
    [fetchBrands] of the listing index do not look at the [error] of the
    answer: a read that is answered with an error and no data empties the
    list on display ([setModels(data || [])]) and nothing is logged or
    shown.  The other failures of the index and of the creation form
    leave the prior state: a rejected read of the models or of the brands
    and a failed read of the listings (a rejection or an answer with an
    error) are logged and change no list; the reads of the creation form,
    which do test the [error], log the failure and keep their lists; and
    a submission that fails at any of its points (a rejected [getUser], the [FormData] constructor throwing,
    a rejected insert or one answered with an error) makes no call, so the
    form is not left, stores the text of the error, which is shown when it
    is not empty, ends the loading state and keeps the brand, the models
    and the brands. *)
Theorem error_answer_empties_the_lists :
  (forall (st : Home.State) (e : error_value),
      Home.step
        (Home.ModelsSettled (Fulfilled {| data := None; error := Some e |}))
        st
      = (Home.setModels [] st, []) /\
      Home.step
        (Home.BrandsSettled (Fulfilled {| data := None; error := Some e |}))
        st
      = (Home.setBrands [] st, [])) /\
  (forall (st : Home.State) (e : error_value),
      Home.step (Home.ModelsSettled (Rejected e)) st
      = (st, [Home.ConsoleError "Error fetching models:" e]) /\
      Home.step (Home.BrandsSettled (Rejected e)) st
      = (st, [Home.ConsoleError "Error fetching brands:" e])) /\
  (forall (st : Home.State) (r : settled (response (list Home.CarListing)))
          (e : error_value),
      failure r = Some e ->
      Home.listings (fst (Home.step (Home.ListingsSettled r) st))
      = Home.listings st /\
      Home.step (Home.ListingsSettled r) st
      = (Home.setLoading false st,
         [Home.ConsoleError "Error fetching listings:" e])) /\
  (forall (st : ListingCreate.State)
          (r : settled (response (list ListingCreate.CarModel)))
          (e : error_value),
      failure r = Some e ->
      let st' := fst (ListingCreate.step (ListingCreate.ModelsSettled r) st) in
      snd (ListingCreate.step (ListingCreate.ModelsSettled r) st)
      = [ListingCreate.ConsoleError "Error fetching models:" e] /\
      ListingCreate.models st' = ListingCreate.models st /\
      ListingCreate.brands st' = ListingCreate.brands st) /\
  (forall (st : ListingCreate.State)
          (r : settled (response (list ListingCreate.CarBrand)))
          (e : error_value),
      failure r = Some e ->
      let st' := fst (ListingCreate.step (ListingCreate.BrandsSettled r) st) in
      snd (ListingCreate.step (ListingCreate.BrandsSettled r) st)
      = [ListingCreate.ConsoleError "Error fetching brands:" e] /\
      ListingCreate.models st' = ListingCreate.models st /\
      ListingCreate.brands st' = ListingCreate.brands st) /\
  (forall (st : ListingCreate.State) (ev : ListingCreate.event)
          (e : error_value),
      ListingCreate.submission_failure ev = Some e ->
      let st' := fst (ListingCreate.step ev st) in
      snd (ListingCreate.step ev st) = [] /\
      ListingCreate.error st' = Some (error_text e) /\
      ListingCreate.error_shown st'
      = (if JsString.truthy (error_text e) then Some (error_text e)
         else None) /\
      ListingCreate.loading st' = false /\
      ListingCreate.selectedBrand st' = ListingCreate.selectedBrand st /\
      ListingCreate.models st' = ListingCreate.models st /\
      ListingCreate.brands st' = ListingCreate.brands st).
Proof.
  split; [|split; [|split; [|split; [|split]]]].
  - intros st e. split;
      [apply step_models_error_answer | apply step_brands_error_answer].
  - intros st e. split;
      [apply step_models_rejected | apply step_brands_rejected].
  - intros st r e Hf. rewrite (step_listings_failed st r Hf). now split.
  - intros st r e Hf st'. subst st'.
    rewrite (step_models_failed st r Hf). cbn [fst snd].
    destruct (rendered_state st) as (_ & _ & Hb & Hm & _).
    now rewrite Hb, Hm.
  - intros st r e Hf st'. subst st'.
    rewrite (step_brands_failed st r Hf). cbn [fst snd].
    destruct (rendered_state st) as (_ & _ & Hb & Hm & _).
    now rewrite Hb, Hm.
  - intros st ev e Hf st'. subst st'.
    rewrite (step_submission_failed ev st Hf). cbn [fst snd].
    destruct (rendered_state
                (ListingCreate.setLoading false
                   (ListingCreate.setError (Some (error_text e)) st)))
      as (Hl & He & Hb & Hm & Hs).
    split; [reflexivity|]. split; [now rewrite He|].
    split; [|now rewrite Hl, Hs, Hm, Hb].
    unfold ListingCreate.error_shown. now rewrite He.
Qed.

Lemma error_answer_empties_the_lists_witness :
  Home.models (Home.setModels [Example.series3; Example.x5] Home.initial)
  = [Example.series3; Example.x5] /\
  Home.step
    (Home.ModelsSettled
       (Fulfilled {| data := None; error := Some Example.plain_error |}))
    (Home.setModels [Example.series3; Example.x5] Home.initial)
  = (Home.setModels [] (Home.setModels [Example.series3; Example.x5]
                          Home.initial), []) /\
  ListingCreate.error
    (fst (ListingCreate.step
            (ListingCreate.UserSettled (Fulfilled (Some Example.user))
               (ListingCreate.NotAForm
                  (ListingCreate.not_a_form Example.not_a_form_text)))
            Example.filled_form))
  = Some Example.not_a_form_text.
Proof.
  split; [reflexivity|]. split.
  - apply (proj1 (proj1 error_answer_empties_the_lists
                    (Home.setModels [Example.series3; Example.x5]
                       Home.initial)
                    Example.plain_error)).
  - pose proof (proj2 (proj2 (proj2 (proj2 (proj2
                   error_answer_empties_the_lists))))
                   Example.filled_form
                   (ListingCreate.UserSettled (Fulfilled (Some Example.user))
                      (ListingCreate.NotAForm
                         (ListingCreate.not_a_form Example.not_a_form_text)))
                   (ListingCreate.not_a_form Example.not_a_form_text)
                   eq_refl) as H.
    cbv zeta in H. destruct H as (_ & H & _). exact H.
Defined.

(** C2, at the input where the code departs from it.  In the filter panel,
    after a brand and then a model were chosen, choosing another brand
    leaves the model filter as it was, whatever the model reads answer: the
    effect on [filters.brand_id] clears the model filter only in its
    [else] branch, when no brand is selected.  The next [applyFilters]
    sends the predicate of the old model next to the one of the new
    brand. *)
Theorem brand_change_keeps_model_filter :
  forall (st : Home.State) (B B' M : jsstring)
         (r1 r2 : settled (response (list Home.CarModel))),
    JsString.truthy B = true -> JsString.truthy B' = true ->
    JsString.truthy M = true -> B <> B' ->
    let st' :=
      fst (Home.steps
             [Home.onSelect Home.f_brand_id B; Home.ModelsSettled r1;
              Home.onSelect Home.f_model_id M;
              Home.onSelect Home.f_brand_id B'; Home.ModelsSettled r2] st) in
    Home.brand_id (Home.filters st') = Some (VStr B') /\
    Home.model_id (Home.filters st') = Some (VStr M) /\
    exists q,
      snd (Home.step Home.ApplyFilters st') = [Home.Select q] /\
      In {| column := "brand_id"; op := op_eq; value := VStr B' |} (filters q) /\
      In {| column := "model_id"; op := op_eq; value := VStr M |} (filters q).
Proof.
  intros st B B' M r1 r2 HB HB' HM _ st'.
  assert (Hf : Home.filters st'
               = Home.set Home.f_brand_id (Some (VStr B'))
                   (Home.set Home.f_model_id (Some (VStr M))
                      (Home.set Home.f_brand_id (Some (VStr B))
                         (Home.filters st)))).
  { subst st'. rewrite !steps_cons. cbn [Home.steps fst].
    rewrite step_models_settled, (@step_select_brand _ B' HB').
    rewrite (@step_select_model _ M HM), step_models_settled.
    now rewrite (@step_select_brand _ B HB). }
  split; [now rewrite Hf|]. split; [now rewrite Hf|].
  exists (Home.listings_query (Home.filters st')).
  rewrite step_apply. split; [reflexivity|].
  rewrite listings_query_filters.
  split.
  - apply (truthy_filters_in (Home.filters st') Home.f_brand_id (VStr B')).
    rewrite Hf. now split.
  - apply (truthy_filters_in (Home.filters st') Home.f_model_id (VStr M)).
    rewrite Hf. now split.
Qed.

Lemma brand_change_keeps_model_filter_witness :
  Home.model_id
    (Home.filters
       (fst (Home.steps
               [Home.onSelect Home.f_brand_id (js "bmw-uuid");
                Home.ModelsSettled
                  (Fulfilled
                     (Backend.ok
                        (Backend.models_of_brand Example.db (js "bmw-uuid"))));
                Home.onSelect Home.f_model_id (js "bmw-x5");
                Home.onSelect Home.f_brand_id (js "audi-uuid");
                Home.ModelsSettled
                  (Fulfilled
                     (Backend.ok
                        (Backend.models_of_brand Example.db
                           (js "audi-uuid"))))]
               Home.initial)))
  = Some (VStr (js "bmw-x5")).
Proof.
  apply (proj1 (proj2
           (@brand_change_keeps_model_filter Home.initial
              (js "bmw-uuid") (js "audi-uuid") (js "bmw-x5")
              (Fulfilled
                 (Backend.ok
                    (Backend.models_of_brand Example.db (js "bmw-uuid"))))
              (Fulfilled
                 (Backend.ok
                    (Backend.models_of_brand Example.db (js "audi-uuid"))))
              eq_refl eq_refl eq_refl
              ltac:(vm_compute; discriminate)))).
Defined.

(** The part of the cascade that the filter panel does carry out: clearing
    the brand empties the model list and clears the model filter. *)
Lemma clearing_brand_clears_model_filter (st : Home.State) :
  truthy_opt (Home.brand_id (Home.filters st)) = true ->
  let st' := fst (Home.step (Home.onSelect Home.f_brand_id []) st) in
  Home.models st' = [] /\
  Home.brand_id (Home.filters st') = None /\
  Home.model_id (Home.filters st') = None.
Proof.
  intros Hb st'. subst st'. rewrite (@step_clear_brand st Hb).
  repeat split.
Qed.

(* ===================================================================== *)
(** * The claims about the listing page *)
(* ===================================================================== *)

Lemma filter_nothing (A : Type) (f : A -> bool) (l : list A) :
  (forall x, In x l -> f x = false) -> List.filter f l = [].
Proof.
  induction l as [|x l IH]; intros H; [reflexivity|].
  cbn. rewrite (H x) by now left. apply IH. intros y Hy. apply H. now right.
Qed.

(** The read of a listing id that no row has selects no row. *)
Lemma listing_rows_missing (db : database) (listingId : jsstring) :
  (forall l, In l (car_listings db) -> Listing.id l <> listingId) ->
  Backend.listing_rows db (ListingDetails.listing_query listingId) = [].
Proof.
  intros Hnone. unfold Backend.listing_rows, rows.
  rewrite filter_nothing; [reflexivity|].
  intros l Hl. cbn. rewrite andb_true_r.
  apply JsString_eqb_neq. now apply Hnone.
Qed.

(** C4, at the input where the code departs from it.  For a listing id
    that no row has, [.single()] answers with an error and no data;
    [fetchListing] throws it and its [catch] stores the error text, exactly
    as for a failed request: the state reached is the one reached when the
    request is rejected with the same error, and the page shows the error
    text, not the "Listing not found" return.  When the error is not an
    instance of [Error] the state is the one of any such failure, with the
    text "An error occurred". *)
Theorem missing_listing_is_shown_as_error :
  forall (db : database) (listingId : jsstring) (no_single_row : error_value),
    JsString.truthy listingId = true ->
    (forall l, In l (car_listings db) -> Listing.id l <> listingId) ->
    let answer :=
      Backend.listing no_single_row db
        (ListingDetails.listing_query listingId) in
    let st :=
      fst (ListingDetails.steps
             [ListingDetails.Mounted (Some listingId);
              ListingDetails.ListingSettled (Fulfilled answer)]
             ListingDetails.initial) in
    answer = {| data := None; error := Some no_single_row |} /\
    st = {| ListingDetails.listing := None;
            ListingDetails.loading := false;
            ListingDetails.error := Some (error_text no_single_row) |} /\
    st = fst (ListingDetails.steps
                [ListingDetails.Mounted (Some listingId);
                 ListingDetails.ListingSettled (Rejected no_single_row)]
                ListingDetails.initial) /\
    (JsString.truthy (error_text no_single_row) = true ->
     ListingDetails.render st
     = ListingDetails.ErrorText (error_text no_single_row)) /\
    (instanceof_Error no_single_row = false ->
     ListingDetails.render st
     = ListingDetails.ErrorText (js "An error occurred") /\
     forall failed : error_value,
       instanceof_Error failed = false ->
       st = fst (ListingDetails.steps
                   [ListingDetails.Mounted (Some listingId);
                    ListingDetails.ListingSettled (Rejected failed)]
                   ListingDetails.initial)).
Proof.
  intros db listingId e Hid Hnone answer st.
  assert (Ha : answer = {| data := None; error := Some e |}).
  { subst answer. unfold Backend.listing.
    now rewrite (listing_rows_missing db Hnone). }
  destruct listingId as [|c id]; [discriminate|].
  assert (Hst : st = {| ListingDetails.listing := None;
                        ListingDetails.loading := false;
                        ListingDetails.error := Some (error_text e) |}).
  { subst st. rewrite Ha. reflexivity. }
  split; [exact Ha|]. split; [exact Hst|].
  split; [rewrite Hst; reflexivity|].
  split.
  - intros Ht. rewrite Hst. cbn. now rewrite Ht.
  - intros He. split.
    + rewrite Hst. unfold error_text. now rewrite He.
    + intros failed Hf. rewrite Hst. cbn.
      unfold error_text. now rewrite He, Hf.
Qed.

Lemma missing_listing_is_shown_as_error_witness :
  ListingDetails.render
    (fst (ListingDetails.steps
            [ListingDetails.Mounted (Some (js "no-such-id"));
             ListingDetails.ListingSettled
               (Fulfilled
                  (Backend.listing Example.plain_error Example.db
                     (ListingDetails.listing_query (js "no-such-id"))))]
            ListingDetails.initial))
  = ListingDetails.ErrorText (js "An error occurred").
Proof.
  refine (proj1 (proj2 (proj2 (proj2 (proj2
            (@missing_listing_is_shown_as_error Example.db (js "no-such-id")
               Example.plain_error eq_refl _)))) eq_refl)).
  intros l Hl.
  repeat (destruct Hl as [<-|Hl]; [vm_compute; discriminate|]).
  destruct Hl.
Defined.

(* ===================================================================== *)
(** * The brand -> model cascade of the creation form *)
(* ===================================================================== *)

Section CascadeFacts.

Import ListingCreate.

Lemma offered_in (v : jsstring) (options : list jsstring) :
  offered v options = true <-> In v options.
Proof.
  unfold offered. rewrite existsb_exists. split.
  - intros (x & Hx & Heq). apply JsString_eqb_eq in Heq. now subst.
  - intros Hin. exists v. split; [assumption | apply JsString_eqb_refl].
Qed.

(** After a render the model select shows one of its options. *)
Lemma rendered_offered (st : State) :
  offered (model (controls (rendered st))) (model_options (rendered st))
  = true.
Proof.
  unfold rendered.
  destruct (offered (model (controls st)) (model_options st)) eqn:H;
    [exact H | reflexivity].
Qed.

Lemma step_offered (ev : event) (st : State) :
  offered (model (controls (fst (step ev st))))
    (model_options (fst (step ev st))) = true.
Proof.
  unfold step. destruct (Handler.run (on_event ev) st) as [st1 cs1].
  destruct (JsString.eqb (selectedBrand st) (selectedBrand st1)).
  - apply rendered_offered.
  - destruct (Handler.run brand_effect st1) as [st2 cs2].
    apply rendered_offered.
Qed.

Lemma steps_offered (evs : list event) (st : State) :
  offered (model (controls st)) (model_options st) = true ->
  offered (model (controls (fst (steps evs st))))
    (model_options (fst (steps evs st))) = true.
Proof.
  revert st. induction evs as [|ev evs IH]; intros st H; [exact H|].
  cbn [steps]. pose proof (step_offered ev st) as Hs.
  destruct (step ev st) as [st1 cs1]. cbn [fst] in Hs.
  specialize (IH st1 Hs). now destruct (steps evs st1).
Qed.

(** The models answered for a brand are models of that brand. *)
Lemma models_of_brand_in (db : database) (brandId : jsstring) (m : Model.t) :
  In m (Backend.models_of_brand db brandId) ->
  In m (car_models db) /\ Model.brand_id m = brandId.
Proof.
  unfold Backend.models_of_brand, Backend.model_rows. rewrite rows_in.
  intros [Hin Hall]. split; [exact Hin|].
  specialize (Hall _ (or_introl eq_refl)). cbn in Hall.
  now apply JsString_eqb_eq.
Qed.

End CascadeFacts.




(** ** The cascade in the creation form, step by step *)

Section FormCascade.

Import ListingCreate.

Ltac run_handler :=
  unfold Handler.run, on_event, brand_effect, fetchModels,
    fetchModels_resumed, log_error,
    Handler.try_catch, Handler.try_catch_finally, Handler.bind,
    Handler.awaited, Handler.start, Handler.await, Handler.read,
    Handler.update, Handler.ret, Handler.call, Handler.throw.

Lemma rendered_id (st : State) :
  offered (model (controls st)) (model_options st) = true -> rendered st = st.
Proof. intros H. unfold rendered. now rewrite H. Qed.

Lemma rendered_reset (st : State) :
  offered (model (controls st)) (model_options st) = false ->
  model (controls (rendered st)) = [] /\ models (rendered st) = models st /\
  selectedBrand (rendered st) = selectedBrand st.
Proof. intros H. unfold rendered. rewrite H. repeat split. Qed.

(** Choosing another brand changes [selectedBrand] and asks for its models;
    the model list and the chosen model stay as they are until the answer
    arrives. *)
Lemma form_brand_change_keeps_model (st : State) (B' : jsstring) :
  JsString.truthy B' = true ->
  offered B' (brand_options st) = true ->
  offered (model (controls st)) (model_options st) = true ->
  fst (step (SelectBrand B') st) = setSelectedBrand B' st.
Proof.
  intros HB Hoff Hm.
  assert (Hrun : Handler.run (on_event (SelectBrand B')) st
                 = (setSelectedBrand B' st, [])).
  { run_handler. now rewrite Hoff. }
  assert (Heff : Handler.run brand_effect (setSelectedBrand B' st)
                 = (setSelectedBrand B' st,
                    [Select (order "name" true
                               (eq "brand_id" (VStr B')
                                  (select ["*"] (from "car_models"))))])).
  { run_handler. cbn [selectedBrand setSelectedBrand]. now rewrite HB. }
  unfold step. rewrite Hrun.
  destruct (JsString.eqb (selectedBrand st)
              (selectedBrand (setSelectedBrand B' st))).
  - cbn [fst]. now apply rendered_id.
  - rewrite Heff. cbn [fst]. now apply rendered_id.
Qed.

(** When the models of the new brand arrive and the chosen model is not
    among them, the model select falls back to its placeholder. *)
Lemma form_models_arrive (st : State) (l : list CarModel) :
  ~ In (model (controls st)) (List.map Model.id l) ->
  let st' := fst (step (ModelsSettled (Fulfilled (Backend.ok l))) st) in
  models st' = l /\ model (controls st') = [].
Proof.
  intros Hnot st'. subst st'.
  assert (Hrun : Handler.run
                   (on_event (ModelsSettled (Fulfilled (Backend.ok l)))) st
                 = (setModels l st, [])).
  { run_handler. reflexivity. }
  unfold step. rewrite Hrun. cbn [selectedBrand setModels].
  rewrite JsString_eqb_refl. cbn [fst].
  destruct (offered (model (controls (setModels l st)))
              (model_options (setModels l st))) eqn:Ho.
  - rewrite (rendered_id _ Ho). split; [reflexivity|].
    apply offered_in in Ho. destruct Ho as [Ho|Ho]; [now rewrite <- Ho|].
    contradiction.
  - destruct (rendered_reset _ Ho) as (Hm & Hl & _). now rewrite Hm, Hl.
Qed.

(** Clearing the brand empties the model list, and the model select shows
    its placeholder. *)
Lemma form_clearing_brand_clears_model (st : State) :
  JsString.truthy (selectedBrand st) = true ->
  let st' := fst (step (SelectBrand []) st) in
  selectedBrand st' = [] /\ models st' = [] /\ model (controls st') = [].
Proof.
  intros Hb st'. subst st'.
  assert (Hrun : Handler.run (on_event (SelectBrand [])) st
                 = (setSelectedBrand [] st, [])).
  { run_handler. reflexivity. }
  assert (Heff : Handler.run brand_effect (setSelectedBrand [] st)
                 = (setModels [] (setSelectedBrand [] st), [])).
  { run_handler. reflexivity. }
  unfold step. rewrite Hrun. cbn [selectedBrand setSelectedBrand].
  destruct (selectedBrand st) as [|c s]; [discriminate|].
  cbn [JsString.eqb]. rewrite Heff. cbn [fst].
  destruct (offered (model (controls (setModels [] (setSelectedBrand [] st))))
              (model_options (setModels [] (setSelectedBrand [] st))))
    eqn:Ho.
  - rewrite (rendered_id _ Ho). split; [reflexivity|].
    split; [reflexivity|].
    apply offered_in in Ho. destruct Ho as [Ho|[]]. now rewrite <- Ho.
  - destruct (rendered_reset _ Ho) as (Hm & Hl & Hs).
    now rewrite Hm, Hl, Hs.
Qed.

End FormCascade.

(* ===================================================================== *)
(** * Further properties of the creation form *)
(* ===================================================================== *)

Section ImageFacts.

Import ImagesSpec.

Lemma trimmed_of_chars (t u : jsstring) (c : code_unit) :
  trimmed_of t u -> In c u -> In c t.
Proof.
  intros (l & r & -> & _) Hc. rewrite !in_app_iff. tauto.
Qed.

Lemma all_white_no_comma (l : jsstring) : all_white l -> ~ In comma l.
Proof.
  unfold all_white. rewrite Forall_forall. intros H Hin.
  specialize (H _ Hin). vm_compute in H. discriminate.
Qed.

Lemma trimmed_of_no_comma (t u : jsstring) :
  trimmed_of t u -> ~ In comma u -> ~ In comma t.
Proof.
  intros (l & r & -> & Hl & Hr & _) Hu. rewrite !in_app_iff.
  intros [H|[H|H]]; [now apply (@all_white_no_comma _ Hl) | now apply Hu |].
  now apply (@all_white_no_comma _ Hr).
Qed.

Lemma filter_all (A : Type) (f : A -> bool) (l : list A) :
  Forall (fun x => f x = true) l -> List.filter f l = l.
Proof.
  induction 1 as [|x l Hx _ IH]; [reflexivity|]. cbn. now rewrite Hx, IH.
Qed.

End ImageFacts.

Lemma imageArray_entry (images u : jsstring) :
  In u (ListingCreate.imageArray images) ->
  u <> [] /\ ~ In comma u /\ ImagesSpec.no_white_ends u /\
  forall c, In c u -> In c images.
Proof.
  intros Hin. unfold ListingCreate.imageArray in Hin.
  apply filter_In in Hin. destruct Hin as [Hin Hne].
  apply in_map_iff in Hin. destruct Hin as (f & <- & Hf).
  pose proof (trim_trimmed_of f) as Ht.
  pose proof (split_no_sep comma images) as Hsep.
  rewrite Forall_forall in Hsep. specialize (Hsep f Hf).
  split; [intros E; rewrite E in Hne; discriminate|].
  split; [intros Hc; apply Hsep; now apply (@trimmed_of_chars _ _ _ Ht)|].
  split; [now destruct Ht as (l & r & _ & _ & _ & H)|].
  intros c Hc. apply (split_chars comma images f); [exact Hf|].
  now apply (@trimmed_of_chars _ _ _ Ht).
Qed.

(** X1.  Every entry of the image list that a submission sends is not
    empty, contains no comma, has no white space at its two ends, and is
    made of characters of the input. *)
Theorem imageArray_entries_clean :
  forall (images u : jsstring),
    In u (ListingCreate.imageArray images) ->
    u <> [] /\ ~ In comma u /\ ImagesSpec.no_white_ends u /\
    forall c, In c u -> In c images.
Proof.
  intros images u Hin. now apply imageArray_entry.
Qed.

Lemma imageArray_entries_clean_witness :
  js "http://b" <> [] /\ ~ In comma (js "http://b") /\
  ImagesSpec.no_white_ends (js "http://b") /\
  forall c, In c (js "http://b") -> In c (js "http://a,  http://b ,").
Proof.
  apply (imageArray_entries_clean (js "http://a,  http://b ,")).
  vm_compute. right. left. reflexivity.
Defined.

(** X2.  Writing and reading back: a list of entries that are not empty and
    contain no comma, each written with any white space around it and the
    whole joined with commas, is read back as exactly that list.  In
    particular the image list of any input, joined with commas, is read
    back unchanged. *)
Theorem imageArray_reads_back :
  (forall (entries padded : list jsstring),
      Forall (fun u => u <> [] /\ ~ In comma u) entries ->
      Forall2 ImagesSpec.trimmed_of padded entries ->
      ListingCreate.imageArray (ImagesSpec.join comma padded) = entries) /\
  (forall images : jsstring,
      ListingCreate.imageArray
        (ImagesSpec.join comma (ListingCreate.imageArray images))
      = ListingCreate.imageArray images).
Proof.
  assert (General :
    forall entries padded : list jsstring,
      Forall (fun u => u <> [] /\ ~ In comma u) entries ->
      Forall2 ImagesSpec.trimmed_of padded entries ->
      ListingCreate.imageArray (ImagesSpec.join comma padded) = entries).
  { intros entries padded Hclean Hpad.
    unfold ListingCreate.imageArray.
    destruct padded as [|p ps].
    - inversion Hpad; subst. reflexivity.
    - rewrite split_join.
      + rewrite <- (@Forall2_trimmed_map _ _ Hpad).
        apply filter_all. eapply Forall_impl; [|exact Hclean].
        intros u [Hne _]. now destruct u.
      + discriminate.
      + clear - Hclean Hpad.
        induction Hpad as [|t u ts us Htu _ IH]; [constructor|].
        inversion Hclean as [|? ? [_ Hu] Hus]; subst.
        constructor; [now apply (@trimmed_of_no_comma _ _ Htu) | now apply IH]. }
  split; [exact General|].
  intros images. apply General.
  - apply Forall_forall. intros u Hu.
    destruct (imageArray_entry images u Hu) as (H1 & H2 & _). now split.
  - assert (Hall : forall u, In u (ListingCreate.imageArray images) ->
                             ImagesSpec.trimmed_of u u).
    { intros u Hu. destruct (imageArray_entry images u Hu) as (_ & _ & H & _).
      exists [], []. rewrite app_nil_r. repeat split; try constructor;
        apply H. }
    induction (ListingCreate.imageArray images) as [|u l IH];
      constructor.
    + apply Hall. now left.
    + apply IH. intros v Hv. apply Hall. now right.
Qed.

Lemma imageArray_reads_back_witness :
  ListingCreate.imageArray
    (ImagesSpec.join comma [js " http://a"; js "http://b  "])
  = [js "http://a"; js "http://b"].
Proof.
  apply (proj1 imageArray_reads_back).
  - constructor; [|constructor; [|constructor]].
    + split; [discriminate|]. vm_compute. intuition discriminate.
    + split; [discriminate|]. vm_compute. intuition discriminate.
  - constructor; [|constructor; [|constructor]].
    + exists (js " "), []. split; [reflexivity|].
      split; [repeat constructor|]. split; [constructor|].
      split; intros c H; vm_compute in H; injection H as <-; reflexivity.
    + exists [], (js "  "). split; [reflexivity|].
      split; [constructor|]. split; [repeat constructor|].
      split; intros c H; vm_compute in H; injection H as <-; reflexivity.
Defined.

(** ** Numbers of a submission *)

From Stdlib Require Import Qround Lqa.












(** X4.  A row whose year, price or mileage is [NaN] or infinite (written
    as [null]) is never stored; in particular a submission with an empty
    year, price or mileage field stores nothing, whoever submits it. *)
Theorem unparsed_number_is_never_stored :
  (forall (db : database) (uid : option jsstring) (new_id : jsstring)
          (now : Z) (r : NewListing.t) (l : Listing.t),
      JsonNumber.json_number (NewListing.year r) = None \/
      JsonNumber.json_number (NewListing.price r) = None \/
      JsonNumber.json_number (NewListing.mileage r) = None ->
      Insert.row db uid new_id now r <> inr l) /\
  (forall (user : ListingCreate.User) (st : ListingCreate.State)
          (db : database) (uid : option jsstring) (new_id : jsstring)
          (now : Z) (l : Listing.t),
      ListingCreate.year (ListingCreate.controls st) = [] \/
      ListingCreate.price (ListingCreate.controls st) = [] \/
      ListingCreate.mileage (ListingCreate.controls st) = [] ->
      Insert.row db uid new_id now (ListingCreate.submitted user st)
      <> inr l).
Proof.
  assert (General :
    forall db uid new_id now r l,
      JsonNumber.json_number (NewListing.year r) = None \/
      JsonNumber.json_number (NewListing.price r) = None \/
      JsonNumber.json_number (NewListing.mileage r) = None ->
      Insert.row db uid new_id now r <> inr l).
  { intros db uid new_id now r l H Hrow.
    destruct (insert_row_columns _ _ _ _ _ Hrow) as (Cy & Cp & Cm & _).
    destruct H as [H|[H|H]].
    - rewrite H in Cy. discriminate.
    - rewrite H in Cp. discriminate.
    - rewrite H in Cm. discriminate. }
  split; [exact General|].
  intros user st db uid new_id now l H. apply General.
  destruct (submitted_typed user st) as (Ey & Ep & Em & _).
  destruct H as [H|[H|H]].
  - left. rewrite Ey, H. reflexivity.
  - right. left. rewrite Ep, H. reflexivity.
  - right. right. rewrite Em, H. reflexivity.
Qed.

Lemma unparsed_number_is_never_stored_witness :
  ListingCreate.year
    (ListingCreate.controls
       (ListingCreate.setControls
          (ListingCreate.set_control ListingCreate.c_year [])
          Example.filled_form)) = [] /\
  Insert.row Example.db (Some (js "seller-uuid")) (js "new-uuid") 40
    (ListingCreate.submitted Example.user
       (ListingCreate.setControls
          (ListingCreate.set_control ListingCreate.c_year [])
          Example.filled_form))
  <> inr (Example.car "new-uuid" 2000000 40).
Proof.
  split; [reflexivity|].
  apply (proj2 unparsed_number_is_never_stored). left. reflexivity.
Defined.



(** ** What the database accepts *)

(** The checks that an accepted insert has passed. *)
Lemma insert_row_checks (db : database) (uid : option jsstring)
  (new_id : jsstring) (now : Z) (r : NewListing.t) (l : Listing.t) :
  Insert.row db uid new_id now r = inr l ->
  Insert.policy_check uid (Listing.seller_id l) = true /\
  Insert.has_profile db (Listing.seller_id l) = true /\
  Insert.has_brand db (Listing.brand_id l) = true /\
  Insert.has_model db (Listing.model_id l) = true /\
  Listing.id l = new_id /\
  Listing.created_at l = now /\
  NewListing.title r = Some (Listing.title l).
Proof.
  unfold Insert.row, Insert.bind, Insert.required, Insert.check.
  repeat (match goal with
          | |- context [match ?x with _ => _ end] => destruct x eqn:?
          end; try discriminate).
  intros [= <-].
  repeat match goal with
         | H : match ?x with _ => _ end = _ |- _ =>
             destruct x eqn:?; try discriminate H; injection H as ?
         end.
  subst. cbn. repeat split; try assumption; try reflexivity.
Qed.

Lemma existsb_id (A : Type) (key : A -> jsstring) (i : jsstring)
  (t : list A) :
  existsb (fun x => JsString.eqb (key x) i) t = true ->
  exists x, In x t /\ key x = i.
Proof.
  rewrite existsb_exists. intros (x & Hx & E).
  apply JsString_eqb_eq in E. eauto.
Qed.

(** X6.  A listing is stored only for its caller and only with references
    that exist: the caller is authenticated and is the seller of the stored
    row, the seller has a profile, and the brand and the model are rows of
    their tables.  The stored row has the generated id and time, and it is
    the caller and nobody else who passes [auth.uid() = seller_id] on it,
    the test of the update and delete policies. *)
Theorem stored_listing_belongs_to_caller :
  forall (db : database) (uid : option jsstring) (new_id : jsstring)
         (now : Z) (r : NewListing.t) (l : Listing.t),
    Insert.row db uid new_id now r = inr l ->
    uid = Some (Listing.seller_id l) /\
    Listing.seller_id l = NewListing.seller_id r /\
    (exists p, In p (profiles db) /\ Profile.id p = Listing.seller_id l) /\
    (exists b, In b (car_brands db) /\ Brand.id b = Listing.brand_id l) /\
    (exists m, In m (car_models db) /\ Model.id m = Listing.model_id l) /\
    Listing.id l = new_id /\ Listing.created_at l = now /\
    (forall other : option jsstring,
        Insert.policy_check other (Listing.seller_id l) = true <->
        other = uid).
Proof.
  intros db uid new_id now r l Hrow.
  destruct (insert_row_checks _ _ _ _ _ Hrow)
    as (Hpol & Hprof & Hbrand & Hmodel & Hid & Hnow & _).
  destruct (insert_row_columns _ _ _ _ _ Hrow)
    as (_ & _ & _ & _ & _ & _ & Hseller & _).
  assert (Huid : uid = Some (Listing.seller_id l)).
  { unfold Insert.policy_check in Hpol. destruct uid as [u|]; [|discriminate].
    apply JsString_eqb_eq in Hpol. now subst. }
  split; [exact Huid|]. split; [exact Hseller|].
  split; [now apply existsb_id|].
  split; [now apply existsb_id|].
  split; [now apply existsb_id|].
  split; [exact Hid|]. split; [exact Hnow|].
  intros other. rewrite Huid. unfold Insert.policy_check. split.
  - destruct other as [o|]; [|discriminate].
    intros E. apply JsString_eqb_eq in E. now subst.
  - intros ->. apply JsString_eqb_refl.
Qed.

Lemma stored_listing_belongs_to_caller_witness :
  exists l,
    Insert.row Example.db (Some (js "seller-uuid")) (js "new-uuid") 40
      (ListingCreate.submitted Example.user Example.filled_form) = inr l /\
    Some (js "seller-uuid") = Some (Listing.seller_id l).
Proof.
  destruct (Insert.row Example.db (Some (js "seller-uuid")) (js "new-uuid") 40
              (ListingCreate.submitted Example.user Example.filled_form))
    as [e|l] eqn:Hrow.
  - vm_compute in Hrow. discriminate.
  - exists l. split; [reflexivity|].
    exact (proj1 (stored_listing_belongs_to_caller _ _ _ _ _ Hrow)).
Defined.

Lemma Qfloor'_Qfloor (q : Q) : Qfloor' q = Qfloor q.
Proof. now destruct q. Qed.

(** An [integer] column takes whole numbers of 32 bits, unchanged. *)
Lemma integer_in_exact (d : Q) (z : Z) :
  integer_in d = Some z ->
  inject_Z z == d /\ (- 2 ^ 31 <= z < 2 ^ 31)%Z.
Proof.
  unfold integer_in.
  destruct (Pos.eqb_spec (Qden (Qred d)) 1) as [Hden|]; [|discriminate].
  destruct (Z.leb_spec (- 2 ^ 31) (Qnum (Qred d))); [|discriminate].
  destruct (Z.ltb_spec (Qnum (Qred d)) (2 ^ 31)); [|discriminate].
  cbn [andb]. intros [= <-]. split; [|lia].
  rewrite <- (Qred_correct d) at 2.
  destruct (Qred d) as [n den]. cbn in *. subst den. reflexivity.
Qed.

(** Rounding moves a number by at most one half. *)
Lemma round_half_away_near (x : Q) :
  Qabs (inject_Z (round_half_away x) - x) <= 1 # 2.
Proof.
  unfold round_half_away. rewrite Qfloor'_Qfloor.
  pose proof (Qfloor_le (Qabs x + (1 # 2))) as Hlo.
  pose proof (Qlt_floor (Qabs x + (1 # 2))) as Hhi.
  set (m := Qfloor (Qabs x + (1 # 2))) in *.
  rewrite inject_Z_plus in Hhi. change (inject_Z 1) with 1 in Hhi.
  destruct (Qle_bool 0 x) eqn:Hs.
  - apply Qle_bool_iff in Hs. rewrite (Qabs_pos x Hs) in Hlo, Hhi.
    apply Qabs_Qle_condition. split; lra.
  - assert (Hneg : x < 0).
    { apply Qnot_le_lt. intros H. apply Qle_bool_iff in H. congruence. }
    rewrite (Qabs_neg x) in Hlo, Hhi by lra.
    rewrite inject_Z_opp. apply Qabs_Qle_condition. split; lra.
Qed.

(** X7.  The numbers of a stored listing.  The year and the mileage are
    stored only when the numbers sent are whole and fit 32 bits, and then
    unchanged; the price is stored in hundredths, at most half a hundredth
    away from the number sent, and below 10^10 in absolute value. *)
Theorem stored_numbers :
  forall (db : database) (uid : option jsstring) (new_id : jsstring)
         (now : Z) (r : NewListing.t) (l : Listing.t),
    Insert.row db uid new_id now r = inr l ->
    exists year price mileage : Q,
      JsonNumber.json_number (NewListing.year r) = Some year /\
      JsonNumber.json_number (NewListing.price r) = Some price /\
      JsonNumber.json_number (NewListing.mileage r) = Some mileage /\
      inject_Z (Listing.year l) == year /\
      (- 2 ^ 31 <= Listing.year l < 2 ^ 31)%Z /\
      inject_Z (Listing.mileage l) == mileage /\
      (- 2 ^ 31 <= Listing.mileage l < 2 ^ 31)%Z /\
      Qabs (inject_Z (Listing.price l) - price * 100) <= 1 # 2 /\
      (Z.abs (Listing.price l) < 10 ^ 12)%Z.
Proof.
  intros db uid new_id now r l Hrow.
  destruct (insert_row_columns _ _ _ _ _ Hrow) as (Cy & Cp & Cm & _).
  unfold Insert.convert in Cy, Cp, Cm.
  destruct (JsonNumber.json_number (NewListing.year r)) as [y|];
    [|discriminate].
  destruct (JsonNumber.json_number (NewListing.price r)) as [p|];
    [|discriminate].
  destruct (JsonNumber.json_number (NewListing.mileage r)) as [m|];
    [|discriminate].
  destruct (integer_in y) as [y'|] eqn:Hy; [|discriminate].
  destruct (decimal_12_2_in p) as [p'|] eqn:Hp; [|discriminate].
  destruct (integer_in m) as [m'|] eqn:Hm; [|discriminate].
  injection Cy as ->. injection Cp as ->. injection Cm as ->.
  destruct (integer_in_exact _ Hy) as [Ey Ry].
  destruct (integer_in_exact _ Hm) as [Em Rm].
  exists y, p, m. repeat (split; [first [reflexivity | assumption]|]).
  unfold decimal_12_2_in in Hp.
  destruct (Z.ltb_spec (Z.abs (round_half_away (p * 100))) (10 ^ 12));
    [|discriminate].
  injection Hp as <-. split; [apply round_half_away_near | assumption].
Qed.

Lemma stored_numbers_witness :
  exists (l : Listing.t) (price : Q),
    Insert.row Example.db (Some (js "seller-uuid")) (js "new-uuid") 40
      (ListingCreate.submitted Example.user Example.filled_form) = inr l /\
    Qabs (inject_Z (Listing.price l) - price * 100) <= 1 # 2.
Proof.
  destruct (Insert.row Example.db (Some (js "seller-uuid")) (js "new-uuid") 40
              (ListingCreate.submitted Example.user Example.filled_form))
    as [e|l] eqn:Hrow.
  - vm_compute in Hrow. discriminate.
  - destruct (stored_numbers _ _ _ _ _ Hrow)
      as (y & p & m & _ & _ & _ & _ & _ & _ & _ & Hp & _).
    exists l, p. split; [reflexivity | exact Hp].
Defined.

(* ===================================================================== *)
(** * Further properties of the listing index *)
(* ===================================================================== *)

Section HomeMore.

Import Home.

Ltac run_handler :=
  unfold Handler.run, on_event, handleFilterChange, applyFilters,
    resetFilters, toggleFilters, mount_effect, brand_effect, fetchListings,
    fetchListings_resumed, fetchBrands, fetchBrands_resumed, fetchModels,
    fetchModels_resumed, log_error,
    Handler.try_catch, Handler.try_catch_finally, Handler.bind,
    Handler.awaited, Handler.start, Handler.await, Handler.read,
    Handler.peek, Handler.update, Handler.ret, Handler.call, Handler.throw,
    Handler.return_.

Lemma Q_eqb_eq (p q : Q) : Q_eqb p q = true -> p = q.
Proof.
  unfold Q_eqb. rewrite andb_true_iff, Z.eqb_eq, Pos.eqb_eq.
  destruct p, q. cbn. intros [-> ->]. reflexivity.
Qed.

Lemma jsval_eqb_eq (a b : jsval) : jsval_eqb a b = true -> a = b.
Proof.
  destruct a as [s|m], b as [t|n]; cbn; try discriminate.
  - intros H. apply JsString_eqb_eq in H. now subst.
  - destruct m as [|x|p], n as [|y|q]; cbn; try discriminate.
    + reflexivity.
    + intros H. apply Bool.eqb_prop in H. now subst.
    + intros H. apply Q_eqb_eq in H. now subst.
Qed.

Lemma object_is_eq (a b : option jsval) : object_is a b = true -> a = b.
Proof.
  destruct a, b; cbn; try discriminate; [|reflexivity].
  intros H. apply jsval_eqb_eq in H. now subst.
Qed.

(** The reads of the brand effect are reads of models. *)
Lemma brand_effect_reads (st : State) (q : query) :
  In (Select q) (snd (Handler.run brand_effect st)) ->
  table q = "car_models".
Proof.
  run_handler.
  destruct (brand_id (filters st)) as [b|]; [destruct (truthy b)|]; cbn;
    intros H; repeat (destruct H as [H|H]); try contradiction.
  injection H as <-. reflexivity.
Qed.

Lemma step_reads (ev : event) (st : State) :
  exists cs2,
    snd (step ev st) = snd (Handler.run (on_event ev) st) ++ cs2 /\
    forall q, In (Select q) cs2 -> table q = "car_models".
Proof.
  unfold step. destruct (Handler.run (on_event ev) st) as [st1 cs1].
  destruct (object_is _ _).
  - exists []. cbn. rewrite app_nil_r. split; [reflexivity | intros q []].
  - pose proof (brand_effect_reads st1) as Hbe.
    destruct (Handler.run brand_effect st1) as [st2 cs2].
    exists cs2. now split.
Qed.

Lemma on_event_listing_reads (ev : event) (st : State) (q : query) :
  In (Select q) (snd (Handler.run (on_event ev) st)) ->
  table q = "car_listings" ->
  (ev = Mounted \/ ev = ApplyFilters \/ ev = ResetFilters) /\
  q = listings_query (filters st).
Proof.
  intros Hin Ht.
  assert (Hq : table (listings_query (filters st)) = "car_listings")
    by apply listings_query_shape.
  destruct ev as [ | | name v | | | r | r | r ].
  - revert Hin. run_handler.
    destruct (brand_id (filters st)) as [b|]; [destruct (truthy b)|]; cbn;
      intros [H|[H|H]]; try (injection H as <-; discriminate Ht);
      try (injection H as <-; split; [tauto | reflexivity]);
      try contradiction.
    destruct H as [H|[]]. injection H as <-. discriminate Ht.
  - revert Hin. run_handler. cbn. intros [].
  - revert Hin. run_handler. cbn. intros [].
  - revert Hin. run_handler. cbn. intros [H|[]]. injection H as <-.
    split; [tauto | reflexivity].
  - revert Hin. run_handler. cbn. intros [H|[]]. injection H as <-.
    split; [tauto | reflexivity].
  - revert Hin. run_handler. destruct r; cbn; intuition discriminate.
  - revert Hin. run_handler. destruct r; cbn; intuition discriminate.
  - revert Hin. run_handler.
    destruct r as [res|e]; cbn; [destruct (error res); cbn|];
      intuition discriminate.
Qed.

Lemma get_set_same (name : field) (v : option jsval) (f : Filters) :
  get name (set name v f) = v.
Proof. now destruct name. Qed.

Lemma get_set_other (name other : field) (v : option jsval) (f : Filters) :
  other <> name -> get other (set name v f) = get other f.
Proof. destruct name, other; intros H; try reflexivity; congruence. Qed.

End HomeMore.

(** X8.  The listings are read on three occasions only: when the page is
    mounted, on Apply and on Reset, and each time the request is the one
    built from the filters of the render in which it happens.  Editing a
    filter, opening the panel and the arrival of any answer never read the
    listings. *)
Theorem listings_are_read_on_mount_apply_reset :
  forall (ev : Home.event) (st : Home.State) (q : query),
    In (Home.Select q) (snd (Home.step ev st)) ->
    table q = "car_listings" ->
    (ev = Home.Mounted \/ ev = Home.ApplyFilters \/ ev = Home.ResetFilters) /\
    q = Home.listings_query (Home.filters st).
Proof.
  intros ev st q Hin Ht.
  destruct (step_reads ev st) as (cs2 & E & Hcs2). rewrite E in Hin.
  apply in_app_iff in Hin. destruct Hin as [Hin|Hin].
  - now apply on_event_listing_reads.
  - apply Hcs2 in Hin. rewrite Ht in Hin. discriminate.
Qed.

Lemma listings_are_read_on_mount_apply_reset_witness :
  (Home.ApplyFilters = Home.Mounted \/ Home.ApplyFilters = Home.ApplyFilters
   \/ Home.ApplyFilters = Home.ResetFilters) /\
  Home.listings_query Example.priced
  = Home.listings_query (Home.filters Example.priced_home).
Proof.
  apply (@listings_are_read_on_mount_apply_reset Home.ApplyFilters
           Example.priced_home (Home.listings_query Example.priced)).
  - vm_compute. left. reflexivity.
  - reflexivity.
Defined.

(** X9.  Editing a filter other than the brand stores the value under its
    field, leaves the nine other fields, the listings and the models as
    they are, and makes no request. *)
Theorem filter_edit_changes_one_field :
  forall (st : Home.State) (name : Home.field) (v : option jsval),
    name <> Home.f_brand_id ->
    let st' := fst (Home.step (Home.FilterChange name v) st) in
    snd (Home.step (Home.FilterChange name v) st) = [] /\
    Home.get name (Home.filters st') = v /\
    (forall other, other <> name ->
                   Home.get other (Home.filters st')
                   = Home.get other (Home.filters st)) /\
    Home.listings st' = Home.listings st /\
    Home.models st' = Home.models st.
Proof.
  intros st name v Hname st'.
  assert (E : Home.step (Home.FilterChange name v) st
              = (Home.setFilters (Home.set name v) st, [])).
  { apply step_same_brand; [reflexivity|].
    destruct name; try reflexivity. congruence. }
  subst st'. rewrite E. cbn [fst snd].
  split; [reflexivity|]. split; [apply get_set_same|].
  split; [|split; reflexivity].
  intros other Ho. now apply get_set_other.
Qed.

Lemma filter_edit_changes_one_field_witness :
  Home.get Home.f_maxYear
    (Home.filters
       (fst (Home.step
               (Home.FilterChange Home.f_maxYear (Some (VNum (Fin 2020))))
               Example.priced_home)))
  = Some (VNum (Fin 2020)).
Proof.
  refine (proj1 (proj2 (@filter_edit_changes_one_field Example.priced_home
                          Home.f_maxYear (Some (VNum (Fin 2020))) _))).
  discriminate.
Defined.

(** X10.  Choosing a brand in the filter panel asks for the models of that
    brand exactly when the brand differs from the selected one: choosing
    the selected brand again makes no request, choosing another one makes
    the single read [car_models] with [brand_id = B] ordered by name. *)
Theorem brand_choice_reads_models_once :
  forall (st : Home.State) (B : jsstring),
    JsString.truthy B = true ->
    (Home.brand_id (Home.filters st) = Some (VStr B) ->
     snd (Home.step (Home.onSelect Home.f_brand_id B) st) = []) /\
    (Home.brand_id (Home.filters st) <> Some (VStr B) ->
     snd (Home.step (Home.onSelect Home.f_brand_id B) st)
     = [Home.Select
          (order "name" true
             (eq "brand_id" (VStr B) (select ["*"] (from "car_models"))))]).
Proof.
  intros st B HB. unfold Home.onSelect. rewrite HB. unfold Home.step.
  replace (Handler.run
             (Home.on_event (Home.FilterChange Home.f_brand_id (Some (VStr B))))
             st)
    with (Home.setFilters (Home.set Home.f_brand_id (Some (VStr B))) st,
          @nil Home.call) by reflexivity.
  cbn [Home.filters Home.setFilters Home.set Home.brand_id].
  split; intros Hb.
  - rewrite Hb, object_is_refl. reflexivity.
  - destruct (object_is (Home.brand_id (Home.filters st)) (Some (VStr B)))
      eqn:E; [apply object_is_eq in E; contradiction|].
    rewrite (@brand_effect_truthy _ (VStr B)); [reflexivity | reflexivity |].
    exact HB.
Qed.

Lemma brand_choice_reads_models_once_witness :
  snd (Home.step (Home.onSelect Home.f_brand_id (js "bmw-uuid"))
         Example.priced_home) = [].
Proof.
  apply (proj1 (@brand_choice_reads_models_once Example.priced_home
                  (js "bmw-uuid") eq_refl)).
  reflexivity.
Defined.

(** X11.  Reset followed by Apply: the first request still carries the
    filters of before the reset, the second one, made in the next render,
    is the request without predicates. *)
Theorem reset_then_apply_reads_everything :
  forall st : Home.State,
    snd (Home.steps [Home.ResetFilters; Home.ApplyFilters] st)
    = [Home.Select (Home.listings_query (Home.filters st));
       Home.Select (Home.listings_query Home.no_filters)] /\
    filters (Home.listings_query Home.no_filters) = [].
Proof.
  intros st. split; [|reflexivity].
  cbn [Home.steps]. rewrite step_reset.
  destruct (object_is (Home.brand_id (Home.filters st)) None);
    rewrite step_apply; reflexivity.
Qed.

(** X12.  Answers are applied in the order of their arrival.  When brand
    [B] and then brand [B'] are chosen and the models of [B'] arrive before
    the models of [B], the list on display at the end is the one of [B]:
    every model in it is a model of [B], while the brand filter is [B']. *)
Theorem late_models_answer_overwrites :
  forall (db : database) (st : Home.State) (B B' : jsstring),
    JsString.truthy B = true -> JsString.truthy B' = true ->
    let st' :=
      fst (Home.steps
             [Home.onSelect Home.f_brand_id B;
              Home.onSelect Home.f_brand_id B';
              Home.ModelsSettled
                (Fulfilled (Backend.ok (Backend.models_of_brand db B')));
              Home.ModelsSettled
                (Fulfilled (Backend.ok (Backend.models_of_brand db B)))]
             st) in
    Home.brand_id (Home.filters st') = Some (VStr B') /\
    Home.models st' = Backend.models_of_brand db B /\
    forall m, In m (Home.models st') -> Model.brand_id m = B.
Proof.
  intros db st B B' HB HB' st'.
  assert (Hmodels : forall s l,
             Home.step (Home.ModelsSettled (Fulfilled (Backend.ok l))) s
             = (Home.setModels l s, [])).
  { intros s l. apply step_same_brand; reflexivity. }
  assert (Hm : Home.models st' = Backend.models_of_brand db B).
  { subst st'. rewrite !steps_cons. cbn [Home.steps fst].
    now rewrite Hmodels. }
  split; [|split; [exact Hm|]].
  - subst st'. rewrite !steps_cons. cbn [Home.steps fst].
    rewrite !step_models_settled.
    now rewrite (@step_select_brand _ B' HB').
  - intros m Hin. rewrite Hm in Hin. now apply models_of_brand_in in Hin.
Qed.

Lemma late_models_answer_overwrites_witness :
  Home.models
    (fst (Home.steps
            [Home.onSelect Home.f_brand_id (js "bmw-uuid");
             Home.onSelect Home.f_brand_id (js "audi-uuid");
             Home.ModelsSettled
               (Fulfilled
                  (Backend.ok
                     (Backend.models_of_brand Example.db (js "audi-uuid"))));
             Home.ModelsSettled
               (Fulfilled
                  (Backend.ok
                     (Backend.models_of_brand Example.db (js "bmw-uuid"))))]
            Home.initial))
  = Backend.models_of_brand Example.db (js "bmw-uuid").
Proof.
  apply (proj1 (proj2 (@late_models_answer_overwrites Example.db Home.initial
                         (js "bmw-uuid") (js "audi-uuid") eq_refl eq_refl))).
Defined.

(* ===================================================================== *)
(** * Further properties of the listing page and of the creation form *)
(* ===================================================================== *)

Section DetailsMore.

Import ListingDetails.

Ltac run_handler :=
  unfold step, Handler.run, on_event, id_effect, fetchListing,
    fetchListing_resumed,
    Handler.try_catch_finally, Handler.bind, Handler.awaited, Handler.start,
    Handler.await, Handler.update, Handler.ret, Handler.throw.

Lemma details_step_effect (id : option jsstring) (st : State) :
  fst (step (Mounted id) st) = st.
Proof.
  run_handler. destruct id as [[|c i]|]; reflexivity.
Qed.

Lemma details_step_settled (r : settled (response CarListing)) (st : State) :
  loading (fst (step (ListingSettled r) st)) = false /\
  (error (fst (step (ListingSettled r) st)) = error st \/
   exists e, error (fst (step (ListingSettled r) st)) = Some e).
Proof.
  run_handler.
  destruct r as [res|e]; cbn; [destruct (Js.error res); cbn|]; eauto.
Qed.

Lemma details_steps_cons (ev : event) (evs : list event) (st : State) :
  fst (steps (ev :: evs) st) = fst (steps evs (fst (step ev st))).
Proof.
  cbn [steps]. destruct (step ev st) as [st1 cs1]. cbn [fst].
  now destruct (steps evs st1).
Qed.

End DetailsMore.

(** X13.  On the listing page an error is never cleared and the loading
    state never comes back: once a read has settled, [loading] stays false
    through every later event, and once an error is stored some error
    stays stored.  So after a failed read a later successful read, for
    another id say, still shows the error text and not the listing. *)
Theorem details_error_is_never_cleared :
  forall (evs : list ListingDetails.event) (st : ListingDetails.State),
    (ListingDetails.loading st = false ->
     ListingDetails.loading (fst (ListingDetails.steps evs st)) = false) /\
    (ListingDetails.error st <> None ->
     ListingDetails.error (fst (ListingDetails.steps evs st)) <> None) /\
    (forall (e : jsstring) (l : ListingDetails.CarListing),
        ListingDetails.loading st = false ->
        ListingDetails.error st = Some e -> JsString.truthy e = true ->
        ListingDetails.render
          (fst (ListingDetails.step
                  (ListingDetails.ListingSettled (Fulfilled (Backend.ok l)))
                  st))
        = ListingDetails.ErrorText e).
Proof.
  intros evs st. split; [|split].
  - revert st. induction evs as [|ev evs IH]; intros st H; [exact H|].
    rewrite details_steps_cons. apply IH.
    destruct ev as [id|r]; [now rewrite details_step_effect|].
    apply details_step_settled.
  - revert st. induction evs as [|ev evs IH]; intros st H; [exact H|].
    rewrite details_steps_cons. apply IH.
    destruct ev as [id|r]; [now rewrite details_step_effect|].
    destruct (details_step_settled r st) as (_ & [E|(e & E)]);
      rewrite E; [exact H | discriminate].
  - intros e l Hl He Ht. cbn.
    unfold ListingDetails.render. cbn. now rewrite He, Ht.
Qed.

Lemma details_error_is_never_cleared_witness :
  ListingDetails.render
    (fst (ListingDetails.steps
            [ListingDetails.Mounted (Some (js "no-such-id"));
             ListingDetails.ListingSettled (Rejected Example.failed_to_fetch);
             ListingDetails.Mounted (Some (js "l1"));
             ListingDetails.ListingSettled
               (Fulfilled
                  (Backend.ok
                     (Backend.details_row Example.db
                        (Example.car "l1" 1500000 10))))]
            ListingDetails.initial))
  = ListingDetails.ErrorText (js "Failed to fetch").
Proof.
  refine (proj2 (proj2
            (details_error_is_never_cleared []
               (fst (ListingDetails.steps
                       [ListingDetails.Mounted (Some (js "no-such-id"));
                        ListingDetails.ListingSettled
                          (Rejected Example.failed_to_fetch);
                        ListingDetails.Mounted (Some (js "l1"))]
                       ListingDetails.initial))))
            (js "Failed to fetch")
            (Backend.details_row Example.db (Example.car "l1" 1500000 10))
            eq_refl eq_refl eq_refl).
Defined.

Section CreateMore.

Import ListingCreate.

Ltac run_handler :=
  unfold Handler.run, on_event, handleSubmit, handleSubmit_user,
    handleSubmit_inserted, fetchBrands_resumed, fetchModels_resumed,
    brand_effect, fetchBrands, fetchModels, on_failure, log_error,
    Handler.try_catch, Handler.try_catch_finally, Handler.bind,
    Handler.awaited, Handler.start, Handler.await, Handler.read,
    Handler.peek, Handler.update, Handler.ret, Handler.call, Handler.throw,
    Handler.return_.

Lemma brand_effect_no_navigation (st : State) (path : string) :
  ~ In (Navigate path) (snd (Handler.run brand_effect st)).
Proof.
  run_handler.
  destruct (JsString.truthy (selectedBrand st)); cbn; intuition discriminate.
Qed.

Lemma on_event_navigation (ev : event) (st : State) (path : string) :
  In (Navigate path) (snd (Handler.run (on_event ev) st)) ->
  (path = "/login" /\ exists target, ev = UserSettled (Fulfilled None) target)
  \/
  (path = "/" /\
   exists res, ev = InsertSettled (Fulfilled res) /\ Js.error res = None).
Proof.
  destruct ev as [ | v | name v | | r | r | r target | r ].
  - run_handler.
    destruct (JsString.truthy (selectedBrand st)); cbn; intuition discriminate.
  - run_handler.
    destruct (offered v (brand_options st)); cbn; intuition discriminate.
  - run_handler. destruct (can_input name v st); cbn; intuition discriminate.
  - run_handler. cbn; intuition discriminate.
  - run_handler.
    destruct r as [res|e]; cbn; [destruct (Js.error res); cbn|];
      intuition discriminate.
  - run_handler.
    destruct r as [res|e]; cbn; [destruct (Js.error res); cbn|];
      intuition discriminate.
  - destruct r as [[user|]|e]; [destruct target as [|thrown]| |].
    + change (on_event (UserSettled (Fulfilled (Some user)) TheForm))
        with (handleSubmit_user (Fulfilled (Some user)) TheForm).
      rewrite handleSubmit_user_inserts. cbn. intuition discriminate.
    + run_handler. cbn; intuition discriminate.
    + run_handler. cbn. intros [H|[]]. injection H as <-. left. eauto.
    + run_handler. cbn; intuition discriminate.
  - run_handler.
    destruct r as [res|e]; cbn; [destruct (Js.error res) eqn:E; cbn|];
      try (intuition discriminate).
    intros [H|[]]. injection H as <-. right. eauto.
Qed.

End CreateMore.

(** X14.  The creation form navigates on two occasions only: to ["/login"]
    when [handleSubmit] resumes without an identity, and to ["/"] when the
    insert is answered without an error.  No other event, and no failure,
    leaves the form. *)
Theorem form_navigates_on_login_and_success_only :
  forall (ev : ListingCreate.event) (st : ListingCreate.State)
         (path : string),
    In (ListingCreate.Navigate path) (snd (ListingCreate.step ev st)) ->
    (path = "/login" /\
     exists target,
       ev = ListingCreate.UserSettled (Fulfilled None) target) \/
    (path = "/" /\
     exists res,
       ev = ListingCreate.InsertSettled (Fulfilled res) /\
       Js.error res = None).
Proof.
  intros ev st path Hin. unfold ListingCreate.step in Hin.
  pose proof (@on_event_navigation ev st path) as Hev.
  destruct (Handler.run (ListingCreate.on_event ev) st) as [st1 cs1].
  destruct (JsString.eqb _ _); [now apply Hev|].
  pose proof (@brand_effect_no_navigation st1 path) as Hbe.
  destruct (Handler.run ListingCreate.brand_effect st1) as [st2 cs2].
  cbn [snd] in *. apply in_app_iff in Hin.
  destruct Hin as [Hin|Hin]; [now apply Hev | contradiction].
Qed.

Lemma form_navigates_on_login_and_success_only_witness :
  ("/" = "/login" /\
   exists target,
     ListingCreate.InsertSettled (Fulfilled (Backend.ok tt))
     = ListingCreate.UserSettled (Fulfilled None) target) \/
  ("/" = "/" /\
   exists res,
     ListingCreate.InsertSettled (Fulfilled (Backend.ok tt))
     = ListingCreate.InsertSettled (Fulfilled res) /\
     Js.error res = None).
Proof.
  apply (@form_navigates_on_login_and_success_only
           (ListingCreate.InsertSettled (Fulfilled (Backend.ok tt)))
           Example.filled_form "/").
  vm_compute. left. reflexivity.
Defined.

(** X15.  In every state that the creation form can reach, the value of
    the model select is one of the options on display: the placeholder or
    the id of a model of the list last fetched. *)
Theorem chosen_model_is_a_displayed_option :
  forall evs : list ListingCreate.event,
    let st := fst (ListingCreate.steps evs ListingCreate.initial) in
    ListingCreate.model (ListingCreate.controls st) = [] \/
    exists m,
      In m (ListingCreate.models st) /\
      Model.id m = ListingCreate.model (ListingCreate.controls st).
Proof.
  intros evs st.
  pose proof (steps_offered evs ListingCreate.initial eq_refl) as H.
  fold st in H. apply offered_in in H. destruct H as [H|H]; [now left|].
  right. apply in_map_iff in H. destruct H as (m & E & Hin). eauto.
Qed.

(* ===================================================================== *)
(** * The profile page *)
(* ===================================================================== *)

Section ProfileFacts.

Import ProfilePage.

Ltac run_handler :=
  unfold step, Handler.run, on_event, fetchProfile, fetchProfile_user,
    fetchProfile_resumed, handleSignOut, handleSignOut_resumed, on_failure,
    Handler.try_catch_finally, Handler.bind, Handler.awaited, Handler.start,
    Handler.await, Handler.update, Handler.ret, Handler.call, Handler.throw,
    Handler.return_.

Lemma profile_step_mounted (st : State) :
  step Mounted st = (st, [GetUser]).
Proof. reflexivity. Qed.

Lemma profile_step_no_identity (st : State) :
  step (UserSettled (Fulfilled None)) st
  = (setLoading false st, [Navigate "/login"]).
Proof. reflexivity. Qed.

Lemma profile_step_identity (st : State) (user : ListingCreate.User) :
  step (UserSettled (Fulfilled (Some user))) st
  = (st, [Select (profile_query (ListingCreate.id user))]).
Proof. reflexivity. Qed.

Lemma profile_step_failed (st : State) (r : settled (response Profile.t))
  (e : error_value) :
  failure r = Some e ->
  step (ProfileSettled r) st
  = (setLoading false (setError (Some (error_text e)) st), []).
Proof.
  intros Hf. run_handler. destruct r as [res|e']; cbn in Hf |- *.
  - now rewrite Hf.
  - now injection Hf as ->.
Qed.

Lemma profile_step_ok (st : State) (res : response Profile.t) :
  Js.error res = None ->
  step (ProfileSettled (Fulfilled res)) st
  = (setLoading false (setProfile (data res) st), []).
Proof. intros Hf. run_handler. cbn. now rewrite Hf. Qed.

Lemma profile_reads (ev : event) (st : State) (q : query) :
  In (Select q) (snd (step ev st)) ->
  exists user,
    ev = UserSettled (Fulfilled (Some user)) /\
    q = profile_query (ListingCreate.id user).
Proof.
  destruct ev as [ | r | r | | r ].
  - cbn. intuition discriminate.
  - destruct r as [[user|]|e]; cbn; try (intuition discriminate).
    intros [H|[]]. injection H as <-. eauto.
  - run_handler.
    destruct r as [res|e]; cbn; [destruct (Js.error res); cbn|];
      intuition discriminate.
  - cbn. intuition discriminate.
  - destruct r as [res|e]; cbn; intuition discriminate.
Qed.

(** The rows of an unordered read are the matching rows of the table. *)
Lemma rows_unordered (Row : Type) (holds : filter -> Row -> bool)
  (fs : list filter) (t : list Row) :
  rows holds (fun _ _ => true) fs t = List.filter (matches holds fs) t.
Proof.
  unfold rows. generalize (List.filter (matches holds fs) t). intros l.
  unfold ordered. induction l as [|x l IH]; [reflexivity|].
  cbn [fold_right]. rewrite IH. now destruct l.
Qed.

Lemma answer_missing (no_single_row : error_value) (db : database)
  (userId : jsstring) :
  (forall p, In p (profiles db) -> Profile.id p <> userId) ->
  answer no_single_row db (profile_query userId)
  = {| data := None; Js.error := Some no_single_row |}.
Proof.
  intros Hnone. unfold answer. rewrite rows_unordered.
  rewrite filter_nothing; [reflexivity|].
  intros p Hp. cbn. rewrite andb_true_r.
  apply JsString_eqb_neq. now apply Hnone.
Qed.

End ProfileFacts.

(** X16.  The profile page reads a profile only for the identity that
    [getUser] returned, and only by that identity's id: every read it
    makes is the single-row read of [profiles] with [id = user.id].
    Without an identity it makes no read, navigates to ["/login"], and what
    it shows once loading ends is "Profile not found". *)
Theorem profile_is_read_for_the_identity_only :
  forall (ev : ProfilePage.event) (st : ProfilePage.State) (q : query),
    (In (ProfilePage.Select q) (snd (ProfilePage.step ev st)) ->
     exists user,
       ev = ProfilePage.UserSettled (Fulfilled (Some user)) /\
       q = ProfilePage.profile_query (ListingCreate.id user) /\
       table q = "profiles" /\ single_row q = true /\
       filters q = [{| column := "id"; op := op_eq;
                       value := VStr (ListingCreate.id user) |}]) /\
    snd (ProfilePage.step (ProfilePage.UserSettled (Fulfilled None)) st)
    = [ProfilePage.Navigate "/login"] /\
    (ProfilePage.profile st = None -> ProfilePage.error st = None ->
     ProfilePage.render
       (fst (ProfilePage.step (ProfilePage.UserSettled (Fulfilled None)) st))
     = ProfilePage.ProfileNotFound).
Proof.
  intros ev st q. split; [|split].
  - intros Hin. destruct (profile_reads _ _ _ Hin) as (user & -> & ->).
    exists user. repeat split.
  - reflexivity.
  - intros Hp He. rewrite profile_step_no_identity.
    unfold ProfilePage.render. cbn. now rewrite He, Hp.
Qed.

Lemma profile_is_read_for_the_identity_only_witness :
  ProfilePage.render
    (fst (ProfilePage.step (ProfilePage.UserSettled (Fulfilled None))
            ProfilePage.initial))
  = ProfilePage.ProfileNotFound.
Proof.
  apply (proj2 (proj2
           (profile_is_read_for_the_identity_only
              ProfilePage.Mounted ProfilePage.initial
              (ProfilePage.profile_query []))));
    reflexivity.
Defined.

(** X17.  An identity without a profile row: [.single()] answers with an
    error, [fetchProfile] throws it, and the page ends with the error text
    stored and shown; the "Profile not found" return is not reached (the
    read fails in the same way as a rejected request). *)
Theorem missing_profile_is_shown_as_error :
  forall (db : database) (user : ListingCreate.User)
         (no_single_row : error_value),
    (forall p, In p (profiles db) -> Profile.id p <> ListingCreate.id user) ->
    let st :=
      fst (ProfilePage.steps
             [ProfilePage.Mounted;
              ProfilePage.UserSettled (Fulfilled (Some user));
              ProfilePage.ProfileSettled
                (Fulfilled
                   (ProfilePage.answer no_single_row db
                      (ProfilePage.profile_query (ListingCreate.id user))))]
             ProfilePage.initial) in
    st = {| ProfilePage.profile := None;
            ProfilePage.loading := false;
            ProfilePage.error := Some (error_text no_single_row) |} /\
    st = fst (ProfilePage.steps
                [ProfilePage.Mounted;
                 ProfilePage.UserSettled (Fulfilled (Some user));
                 ProfilePage.ProfileSettled (Rejected no_single_row)]
                ProfilePage.initial) /\
    (JsString.truthy (error_text no_single_row) = true ->
     ProfilePage.render st = ProfilePage.ErrorText (error_text no_single_row)).
Proof.
  intros db user e Hnone st.
  assert (Hst : st = {| ProfilePage.profile := None;
                        ProfilePage.loading := false;
                        ProfilePage.error := Some (error_text e) |}).
  { subst st. rewrite (answer_missing e db Hnone). reflexivity. }
  split; [exact Hst|]. split; [rewrite Hst; reflexivity|].
  intros Ht. rewrite Hst. unfold ProfilePage.render. cbn. now rewrite Ht.
Qed.

Lemma missing_profile_is_shown_as_error_witness :
  ProfilePage.render
    (fst (ProfilePage.steps
            [ProfilePage.Mounted;
             ProfilePage.UserSettled
               (Fulfilled (Some {| ListingCreate.id := js "nobody" |}));
             ProfilePage.ProfileSettled
               (Fulfilled
                  (ProfilePage.answer Example.failed_to_fetch Example.db
                     (ProfilePage.profile_query (js "nobody"))))]
            ProfilePage.initial))
  = ProfilePage.ErrorText (js "Failed to fetch").
Proof.
  refine (proj2 (proj2
            (@missing_profile_is_shown_as_error Example.db
               {| ListingCreate.id := js "nobody" |}
               Example.failed_to_fetch _)) eq_refl).
  intros p Hp.
  repeat (destruct Hp as [<-|Hp]; [vm_compute; discriminate|]).
  destruct Hp.
Defined.

(** X18.  Signing out navigates to ["/"] whenever [signOut] settles without
    rejecting, whether or not its answer carries an error, since the answer
    is not looked at; when [signOut] rejects nothing is called.  In no case
    is the state of the page touched. *)
Theorem sign_out_navigates_home :
  forall (st : ProfilePage.State) (r : settled (option error_value)),
    ProfilePage.step ProfilePage.SignOutClicked st
    = (st, [ProfilePage.SignOut]) /\
    fst (ProfilePage.step (ProfilePage.SignOutSettled r) st) = st /\
    snd (ProfilePage.step (ProfilePage.SignOutSettled r) st)
    = match r with
      | Fulfilled _ => [ProfilePage.Navigate "/"]
      | Rejected _ => []
      end.
Proof.
  intros st r. split; [reflexivity|]. destruct r; split; reflexivity.
Qed.

(** X19.  A profile that arrives is shown with its name, its email and its
    phone; the phone reads "Not provided" exactly when the stored phone is
    null, empty or that very text. *)
Theorem profile_page_shows_phone_or_fallback :
  forall (st : ProfilePage.State) (p : Profile.t),
    (ProfilePage.error st = None ->
     ProfilePage.render
       (fst (ProfilePage.step
               (ProfilePage.ProfileSettled (Fulfilled (Backend.ok p))) st))
     = ProfilePage.Page (Profile.full_name p) (Profile.email p)
         (ProfilePage.phone_text (Profile.phone p))) /\
    (ProfilePage.phone_text (Profile.phone p) = js "Not provided" <->
     Profile.phone p = None \/ Profile.phone p = Some [] \/
     Profile.phone p = Some (js "Not provided")) /\
    (forall ph, Profile.phone p = Some ph -> ph <> [] ->
                ProfilePage.phone_text (Profile.phone p) = ph).
Proof.
  intros st p. split; [|split].
  - intros He. rewrite profile_step_ok by reflexivity.
    unfold ProfilePage.render. cbn. now rewrite He.
  - unfold ProfilePage.phone_text.
    destruct (Profile.phone p) as [[|c ph]|]; cbn.
    + split; [tauto | reflexivity].
    + split; [intros ->; tauto|].
      intros [H|[H|H]]; congruence.
    + split; [tauto | reflexivity].
  - intros ph -> Hne. destruct ph; [congruence | reflexivity].
Qed.

Lemma profile_page_shows_phone_or_fallback_witness :
  ProfilePage.render
    (fst (ProfilePage.step
            (ProfilePage.ProfileSettled (Fulfilled (Backend.ok Example.seller)))
            ProfilePage.initial))
  = ProfilePage.Page (Some (js "A Seller")) (js "seller@example.com")
      (js "Not provided").
Proof.
  apply (proj1 (profile_page_shows_phone_or_fallback ProfilePage.initial
                  Example.seller)).
  reflexivity.
Defined.

(* ===================================================================== *)
(** * The routes *)
(* ===================================================================== *)

Section RouteFacts.

Import App.

Lemma ranked_routes :
  ranked = [("/listings/create", ListingCreatePage);
            ("/listings/:id", ListingDetailsPage);
            ("/login", LoginPage);
            ("/register", RegisterPage);
            ("/profile", ProfilePage);
            ("/", HomePage)].
Proof. vm_compute. reflexivity. Qed.

Lemma span_segment_whole (seg : jsstring) :
  ~ In slash seg -> span_segment seg = (seg, []).
Proof.
  induction seg as [|c seg IH]; intros H; [reflexivity|].
  cbn. destruct (N.eqb_spec c slash) as [->|_].
  - exfalso. apply H. now left.
  - rewrite IH; [reflexivity|]. intros Hin. apply H. now right.
Qed.

Lemma strip_prefix_rest (s text rest : jsstring) (c : code_unit) :
  strip_prefix s text = Some rest -> In c rest -> In c text.
Proof.
  revert text. induction s as [|a s IH]; intros text H Hc; cbn in H.
  - injection H as <-. exact Hc.
  - destruct text as [|d text]; [discriminate|].
    destruct (fold_case a =? fold_case d)%N; [|discriminate].
    right. now apply (IH text).
Qed.

Lemma only_slashes_without_slash (rest : jsstring) :
  ~ In slash rest ->
  forallb (N.eqb slash) rest = match rest with [] => true | _ => false end.
Proof.
  destruct rest as [|c rest]; [reflexivity|]. intros H. cbn [forallb].
  destruct (N.eqb_spec slash c) as [<-|_]; [|reflexivity].
  exfalso. apply H. now left.
Qed.

(** The length of the text is enough fuel for [decode]: more fuel gives
    the same result. *)
Lemma octet_rest (s rest : jsstring) (b : N) :
  Uri.octet s = Some (b, rest) -> (S (List.length rest) < List.length s)%nat.
Proof.
  destruct s as [|p [|h [|l s']]]; try discriminate. cbn [Uri.octet].
  destruct (p =? Uri.percent)%N; [|discriminate].
  destruct (hex_val h); [|discriminate]. destruct (hex_val l); [|discriminate].
  intros [= _ <-]. cbn [List.length]. lia.
Qed.

Lemma continuation_rest (n : nat) :
  forall (acc : N) (s rest : jsstring) (v : N),
    Uri.continuation n acc s = Some (v, rest) ->
    (List.length rest <= List.length s)%nat.
Proof.
  induction n as [|n IH]; intros acc s rest v; cbn [Uri.continuation].
  - intros [= _ <-]. lia.
  - destruct (Uri.octet s) as [[b rest1]|] eqn:E; [|discriminate].
    apply octet_rest in E.
    destruct ((128 <=? b) && (b <? 192))%N; [|discriminate].
    intros H. apply IH in H. lia.
Qed.

Lemma code_point_rest (b v : N) (s rest : jsstring) :
  Uri.code_point b s = Some (v, rest) ->
  (List.length rest <= List.length s)%nat.
Proof.
  unfold Uri.code_point.
  destruct (b <? 128)%N; [intros [= _ <-]; lia|].
  destruct ((194 <=? b) && (b <? 224))%N; [apply continuation_rest|].
  destruct ((224 <=? b) && (b <? 240))%N.
  { destruct (Uri.continuation 2 (b - 224) s) as [[w r]|] eqn:E;
      [|discriminate].
    apply continuation_rest in E.
    destruct ((2048 <=? w) && negb ((55296 <=? w) && (w <? 57344)))%N;
      [|discriminate].
    intros [= _ <-]. exact E. }
  destruct ((240 <=? b) && (b <? 245))%N; [|discriminate].
  destruct (Uri.continuation 3 (b - 240) s) as [[w r]|] eqn:E;
    [|discriminate].
  apply continuation_rest in E.
  destruct ((65536 <=? w) && (w <? 1114112))%N; [|discriminate].
  intros [= _ <-]. exact E.
Qed.

Lemma decode_enough_fuel (fuel : nat) :
  forall (fuel' : nat) (s : jsstring),
    (List.length s <= fuel)%nat -> (List.length s <= fuel')%nat ->
    Uri.decode fuel s = Uri.decode fuel' s.
Proof.
  induction fuel as [|fuel IH]; intros fuel' s H H'.
  - destruct s; [now destruct fuel' | cbn in H; lia].
  - destruct s as [|c rest]; [now destruct fuel'|].
    destruct fuel' as [|fuel']; [cbn in H'; lia|].
    cbn [List.length] in H, H'. cbn [Uri.decode].
    destruct (c =? Uri.percent)%N.
    + destruct (Uri.octet (c :: rest)) as [[b rest1]|] eqn:E; [|reflexivity].
      apply octet_rest in E. cbn [List.length] in E.
      destruct (Uri.code_point b rest1) as [[v rest2]|] eqn:F;
        [|reflexivity].
      apply code_point_rest in F.
      rewrite (IH fuel' rest2) by lia. reflexivity.
    + rewrite (IH fuel' rest) by lia. reflexivity.
Qed.

(** Decoding leaves a code unit that is not [%] as it is. *)
Lemma decode_plain_head (fuel : nat) (c : code_unit) (s : jsstring) :
  c <> Uri.percent ->
  Uri.decode (S fuel) (c :: s) = option_map (cons c) (Uri.decode fuel s).
Proof.
  intros Hc. cbn [Uri.decode].
  destruct (N.eqb_spec c Uri.percent) as [E|_]; [contradiction | reflexivity].
Qed.

(** A text without [%] is its own decoding. *)
Lemma decodeURI_plain (s : jsstring) :
  ~ In Uri.percent s -> Uri.decodeURI s = Some s.
Proof.
  unfold Uri.decodeURI. induction s as [|c s IH]; intros H; [reflexivity|].
  cbn [List.length]. rewrite decode_plain_head.
  - rewrite IH; [reflexivity|]. intros Hin. apply H. now right.
  - intros ->. apply H. now left.
Qed.

Lemma safelyDecodeURI_plain (s : jsstring) :
  ~ In Uri.percent s -> Uri.safelyDecodeURI s = s.
Proof.
  intros H. unfold Uri.safelyDecodeURI. now rewrite decodeURI_plain.
Qed.

(** Decoding keeps the prefix [/car/]. *)
Lemma safelyDecodeURI_car (i : jsstring) :
  exists d, Uri.safelyDecodeURI (js "/car/" ++ i) = js "/car/" ++ d.
Proof.
  unfold Uri.safelyDecodeURI, Uri.decodeURI.
  change (js "/car/") with [47; 99; 97; 114; 47]%N.
  cbn [app List.length].
  rewrite !decode_plain_head by discriminate.
  destruct (Uri.decode (List.length i) i) as [d|]; cbn [option_map]; eauto.
Qed.

(** The two routes below [/listings], on a decoded pathname. *)
Lemma listings_segment_matches (segment : jsstring) :
  segment <> [] -> ~ In slash segment ->
  option_map snd
    (find (fun r => match_path (fst r) (js "/listings/" ++ segment)) ranked)
  = Some (match strip_prefix (js "create") segment with
          | Some [] => ListingCreatePage
          | _ => ListingDetailsPage
          end).
Proof.
  intros Hne Hslash. rewrite ranked_routes. cbn [find fst].
  assert (Hcreate :
    match_path "/listings/create" (js "/listings/" ++ segment)
    = match strip_prefix (js "create") segment with
      | Some rest => forallb (N.eqb slash) rest
      | None => false
      end) by reflexivity.
  assert (Hid :
    match_path "/listings/:id" (js "/listings/" ++ segment)
    = (let (v, rest) := span_segment segment in
       JsString.truthy v && forallb (N.eqb slash) rest)) by reflexivity.
  rewrite Hcreate, Hid. rewrite (@span_segment_whole segment Hslash).
  destruct (strip_prefix (js "create") segment) as [rest|] eqn:E.
  - rewrite only_slashes_without_slash.
    + destruct rest; [reflexivity|].
      destruct segment; [congruence | reflexivity].
    + intros Hin. apply Hslash.
      now apply (@strip_prefix_rest (js "create") segment rest slash E).
  - destruct segment; [congruence | reflexivity].
Qed.

End RouteFacts.

(** X20.  The links of the cards of the listing index lead nowhere: for
    every listing, the pathname [/car/<id>] of its two links matches no
    route of [App]. *)
Theorem card_links_match_no_route :
  forall listing : Home.CarListing,
    App.matchRoutes (HomeCard.details_link listing) = None /\
    Forall (fun r => App.match_path (fst r) (HomeCard.details_link listing)
                     = false) App.routes.
Proof.
  intros listing. unfold HomeCard.details_link.
  generalize (Listing.id (Home.row listing)). intros i.
  split.
  - unfold App.matchRoutes.
    destruct (safelyDecodeURI_car i) as (d & ->).
    rewrite ranked_routes. reflexivity.
  - repeat constructor.
Qed.

(** X21.  Below [/listings/] the static route wins over the parameter.
    A pathname that reads [/listings/<segment>] once it is decoded, with a
    non-empty segment that contains no slash, shows the creation form when
    the decoded segment is [create] in any letter case, and the listing
    page for every other segment; so [/listings/cr%65ate] is the creation
    form.  A segment without [%] is its own decoding. *)
Theorem listings_segment_routes :
  forall pathname segment : jsstring,
    segment <> [] -> ~ In App.slash segment ->
    (Uri.safelyDecodeURI pathname = js "/listings/" ++ segment ->
     App.matchRoutes pathname
     = Some (match App.strip_prefix (js "create") segment with
             | Some [] => App.ListingCreatePage
             | _ => App.ListingDetailsPage
             end)) /\
    (~ In Uri.percent segment ->
     App.matchRoutes (js "/listings/" ++ segment)
     = Some (match App.strip_prefix (js "create") segment with
             | Some [] => App.ListingCreatePage
             | _ => App.ListingDetailsPage
             end)).
Proof.
  intros pathname segment Hne Hslash.
  assert (General : forall p,
    Uri.safelyDecodeURI p = js "/listings/" ++ segment ->
    App.matchRoutes p
    = Some (match App.strip_prefix (js "create") segment with
            | Some [] => App.ListingCreatePage
            | _ => App.ListingDetailsPage
            end)).
  { intros p Hp. unfold App.matchRoutes. rewrite Hp.
    now apply listings_segment_matches. }
  split; [apply General|].
  intros Hpercent. apply General. apply safelyDecodeURI_plain.
  rewrite in_app_iff. intros [H|H]; [|contradiction].
  vm_compute in H. intuition discriminate.
Qed.

Lemma listings_segment_routes_witness :
  App.matchRoutes (js "/listings/cr%65ate") = Some App.ListingCreatePage /\
  App.matchRoutes (js "/listings/" ++ js "l1") = Some App.ListingDetailsPage.
Proof.
  split.
  - apply (proj1 (@listings_segment_routes (js "/listings/cr%65ate")
                    (js "create") ltac:(discriminate)
                    ltac:(vm_compute; intuition discriminate))).
    vm_compute. reflexivity.
  - apply (proj2 (@listings_segment_routes [] (js "l1") ltac:(discriminate)
                    ltac:(vm_compute; intuition discriminate))).
    vm_compute. intuition discriminate.
Defined.

(** X22.  Every link of the navigation bar, signed in or not, resolves to
    the route that is declared with exactly that path; so do the two
    targets that the pages navigate to, ["/login"] and ["/"]. *)
Theorem navbar_links_resolve :
  forall (st : Navbar.State) (path : string),
    (In path (Navbar.links st) ->
     exists page,
       In (path, page) App.routes /\
       App.matchRoutes (js path) = Some page) /\
    App.matchRoutes (js "/login") = Some App.LoginPage /\
    App.matchRoutes (js "/") = Some App.HomePage.
Proof.
  intros st path. split; [|split; vm_compute; reflexivity].
  unfold Navbar.links. destruct (Navbar.current st); cbn [In].
  - intros [<-|[<-|[<-|[]]]].
    + exists App.HomePage. split; [cbn; tauto | vm_compute; reflexivity].
    + exists App.ListingCreatePage.
      split; [cbn; tauto | vm_compute; reflexivity].
    + exists App.ProfilePage. split; [cbn; tauto | vm_compute; reflexivity].
  - intros [<-|[<-|[<-|[]]]].
    + exists App.HomePage. split; [cbn; tauto | vm_compute; reflexivity].
    + exists App.LoginPage. split; [cbn; tauto | vm_compute; reflexivity].
    + exists App.RegisterPage. split; [cbn; tauto | vm_compute; reflexivity].
Qed.

Lemma navbar_links_resolve_witness :
  exists page,
    In ("/profile", page) App.routes /\
    App.matchRoutes (js "/profile") = Some page.
Proof.
  apply (proj1 (navbar_links_resolve
                  {| Navbar.current := Some Example.user |} "/profile")).
  cbn. tauto.
Defined.

(* ===================================================================== *)
(** * The seed of the models *)
(* ===================================================================== *)

Section SeedFacts.

Import Seed.

Lemma same_key_sym (a b : Model.t) : same_key a b = same_key b a.
Proof.
  unfold same_key.
  assert (H : forall x y, JsString.eqb x y = JsString.eqb y x).
  { intros x y. destruct (JsString.eqb x y) eqn:E.
    - apply JsString_eqb_eq in E. subst. now rewrite JsString_eqb_refl.
    - symmetry. apply JsString_eqb_neq. apply JsString_eqb_neq in E.
      congruence. }
  now rewrite (H (Model.brand_id a)), (H (Model.name a)).
Qed.

Lemma conflicts_app (x : Model.t) (t u : list Model.t) :
  conflicts x (t ++ u) = conflicts x t || conflicts x u.
Proof. unfold conflicts. apply existsb_app. Qed.

Lemma unique_keys_snoc (t : list Model.t) (m : Model.t) :
  unique_keys t = true -> conflicts m t = false ->
  unique_keys (t ++ [m]) = true.
Proof.
  induction t as [|x t IH]; intros Hu Hc; [reflexivity|].
  cbn in Hu, Hc |- *. apply andb_true_iff in Hu. destruct Hu as [Hx Ht].
  apply orb_false_iff in Hc. destruct Hc as [Hmx Hmt].
  rewrite conflicts_app, IH by assumption.
  apply negb_true_iff in Hx. rewrite Hx. cbn.
  rewrite same_key_sym, Hmx. reflexivity.
Qed.

Lemma insert_models_result (brands : list Brand.t) (values : list value) :
  forall table table' : list Model.t,
    insert_models brands values table = inr table' ->
    (exists added, table' = table ++ added) /\
    (unique_keys table = true -> unique_keys table' = true) /\
    (forall v, In v values ->
               exists b m,
                 brand_id brands (brand v) = Some b /\ In m table' /\
                 Model.brand_id m = b /\ Model.name m = name v).
Proof.
  induction values as [|v values IH]; intros table table' H.
  - cbn in H. injection H as <-. split; [exists []; now rewrite app_nil_r|].
    split; [tauto | intros v []].
  - cbn in H. destruct (brand_id brands (brand v)) as [b|] eqn:Hb;
      [|discriminate].
    set (m := {| Model.id := new_id v; Model.brand_id := b;
                 Model.name := name v |}) in *.
    destruct (conflicts m table) eqn:Hc.
    + destruct (IH _ _ H) as ((added & Ha) & Hu & Hall).
      split; [eauto|]. split; [exact Hu|].
      intros w [<-|Hw]; [|now apply Hall].
      unfold conflicts in Hc. apply existsb_exists in Hc.
      destruct Hc as (x & Hx & Hk). unfold same_key in Hk.
      apply andb_true_iff in Hk. destruct Hk as [Hk1 Hk2].
      apply JsString_eqb_eq in Hk1, Hk2. subst m. cbn in Hk1, Hk2.
      exists b, x. rewrite Ha. rewrite in_app_iff.
      split; [exact Hb|]. split; [now left|]. split; congruence.
    + destruct (id_taken m table); [discriminate|].
      destruct (IH _ _ H) as ((added & Ha) & Hu & Hall).
      split; [exists (m :: added); now rewrite Ha, <- app_assoc|].
      split; [intros Ht; apply Hu; now apply unique_keys_snoc|].
      intros w [<-|Hw]; [|now apply Hall].
      exists b, m. rewrite Ha, !in_app_iff. cbn. tauto.
Qed.

End SeedFacts.

(** X23.  The insert of the models with [ON CONFLICT (name, brand_id) DO
    NOTHING], when it succeeds, keeps every row that was in the table, adds
    rows at its end only, leaves no two rows with the same brand and name
    if there were none before (a pair listed twice is inserted once), and
    leaves a row for every listed pair. *)
Theorem seed_keeps_models_unique :
  forall (brands : list Brand.t) (values : list Seed.value)
         (table table' : list Model.t),
    Seed.insert_models brands values table = inr table' ->
    (exists added, table' = table ++ added) /\
    (Seed.unique_keys table = true -> Seed.unique_keys table' = true) /\
    (forall v, In v values ->
               exists b m,
                 Seed.brand_id brands (Seed.brand v) = Some b /\
                 In m table' /\ Model.brand_id m = b /\
                 Model.name m = Seed.name v).
Proof.
  intros brands values table table' H. now apply insert_models_result.
Qed.

Lemma seed_keeps_models_unique_witness :
  Seed.insert_models [Example.bmw; Example.audi]
    [{| Seed.brand := js "BMW"; Seed.name := js "3 Series";
        Seed.new_id := js "id-1" |};
     {| Seed.brand := js "BMW"; Seed.name := js "3 Series";
        Seed.new_id := js "id-2" |}] []
  = inr [{| Model.id := js "id-1"; Model.brand_id := js "bmw-uuid";
            Model.name := js "3 Series" |}] /\
  Seed.unique_keys [{| Model.id := js "id-1"; Model.brand_id := js "bmw-uuid";
                       Model.name := js "3 Series" |}] = true.
Proof.
  split; [vm_compute; reflexivity|].
  apply (proj1 (proj2
    (@seed_keeps_models_unique [Example.bmw; Example.audi]
       [{| Seed.brand := js "BMW"; Seed.name := js "3 Series";
           Seed.new_id := js "id-1" |};
        {| Seed.brand := js "BMW"; Seed.name := js "3 Series";
           Seed.new_id := js "id-2" |}] []
       [{| Model.id := js "id-1"; Model.brand_id := js "bmw-uuid";
           Model.name := js "3 Series" |}]
       ltac:(vm_compute; reflexivity)))).
  reflexivity.
Defined.

(** X24.  Running the insert again changes nothing: after a successful
    insert, inserting any rows whose brand and name are among the pairs
    just listed (with whatever fresh ids) succeeds and leaves the table as
    it is. *)
Theorem seed_is_idempotent :
  forall (brands : list Brand.t) (values again : list Seed.value)
         (table table' : list Model.t),
    Seed.insert_models brands values table = inr table' ->
    (forall w, In w again ->
               exists v, In v values /\ Seed.brand v = Seed.brand w /\
                         Seed.name v = Seed.name w) ->
    Seed.insert_models brands again table' = inr table'.
Proof.
  intros brands values again table table' H Hagain.
  destruct (insert_models_result _ _ _ H) as (_ & _ & Hall).
  induction again as [|w again IH]; [reflexivity|].
  cbn. destruct (Hagain w (or_introl eq_refl)) as (v & Hv & Eb & En).
  destruct (Hall v Hv) as (b & m & Hb & Hm & Emb & Emn).
  rewrite <- Eb, Hb.
  assert (Hc : Seed.conflicts
                 {| Model.id := Seed.new_id w; Model.brand_id := b;
                    Model.name := Seed.name w |} table' = true).
  { apply existsb_exists. exists m. split; [exact Hm|].
    unfold Seed.same_key. cbn. rewrite Emb, Emn, En.
    now rewrite !JsString_eqb_refl. }
  rewrite Hc. apply IH. intros w' Hw'. apply Hagain. now right.
Qed.

Lemma seed_is_idempotent_witness :
  Seed.insert_models [Example.bmw; Example.audi]
    [{| Seed.brand := js "Audi"; Seed.name := js "A4";
        Seed.new_id := js "id-2" |}]
    [{| Model.id := js "id-1"; Model.brand_id := js "audi-uuid";
        Model.name := js "A4" |}]
  = inr [{| Model.id := js "id-1"; Model.brand_id := js "audi-uuid";
            Model.name := js "A4" |}].
Proof.
  apply (@seed_is_idempotent [Example.bmw; Example.audi]
           [{| Seed.brand := js "Audi"; Seed.name := js "A4";
               Seed.new_id := js "id-1" |}]
           [{| Seed.brand := js "Audi"; Seed.name := js "A4";
               Seed.new_id := js "id-2" |}] []).
  - vm_compute. reflexivity.
  - intros w [<-|[]]. eexists. split; [left; reflexivity|].
    split; reflexivity.
Defined.

(* ===================================================================== *)
(** * The navigation bar *)
(* ===================================================================== *)

Section NavbarFacts.

Import Navbar.

Lemma navbar_steps_app (evs evs' : list event) (st : State) :
  fst (steps (evs ++ evs') st) = fst (steps evs' (fst (steps evs st))).
Proof.
  revert st. induction evs as [|ev evs IH]; intros st; [reflexivity|].
  cbn [app steps]. destruct (step ev st) as [st1 cs1].
  specialize (IH st1). destruct (steps (evs ++ evs') st1) as [st2 cs2].
  destruct (steps evs st1) as [st3 cs3]. cbn [fst] in IH |- *.
  rewrite IH. destruct (steps evs' st3). reflexivity.
Qed.

End NavbarFacts.

(** X25.  The bar shows what the last answer said, in the order of arrival
    and not of the requests: when the answer of [getSession] arrives after
    any sequence of events, auth state changes included, the bar shows the
    user of that answer, and the links follow it. *)
Theorem navbar_shows_the_last_answer :
  forall (evs : list Navbar.event) (session : option Navbar.Session)
         (st : Navbar.State),
    let st' := fst (Navbar.steps (evs ++ [Navbar.SessionResolved session]) st)
    in
    Navbar.current st' = Navbar.session_user session /\
    Navbar.links st'
    = "/" :: match session with
             | Some _ => ["/listings/create"; "/profile"]
             | None => ["/login"; "/register"]
             end.
Proof.
  intros evs session st. cbv zeta. rewrite navbar_steps_app.
  generalize (fst (Navbar.steps evs st)). intros st0.
  destruct session; split; reflexivity.
Qed.

(** X26.  The insert of the models succeeds whenever every listed brand is
    a row of [car_brands] and the generated ids are new: different from
    one another and from the ids in the table. *)
Theorem seed_succeeds :
  forall (brands : list Brand.t) (values : list Seed.value)
         (table : list Model.t),
    (forall v, In v values ->
               exists b, In b brands /\ Brand.name b = Seed.brand v) ->
    NoDup (map Seed.new_id values) ->
    (forall v m, In v values -> In m table ->
                 Model.id m <> Seed.new_id v) ->
    exists table', Seed.insert_models brands values table = inr table'.
Proof.
  intros brands values. induction values as [|v values IH];
    intros table Hb Hd Hf; [now exists table|].
  cbn [Seed.insert_models].
  destruct (Seed.brand_id brands (Seed.brand v)) as [b|] eqn:E.
  - inversion Hd as [|? ? Hv Hd']; subst.
    destruct (Seed.conflicts _ table).
    + apply IH; [intros; apply Hb; now right | exact Hd' |].
      intros w m Hw Hm. apply Hf; [now right | exact Hm].
    + destruct (Seed.id_taken _ table) eqn:Et.
      * exfalso. apply existsb_exists in Et. destruct Et as (x & Hx & Ex).
        apply JsString_eqb_eq in Ex. cbn in Ex.
        now apply (Hf v x (or_introl eq_refl) Hx).
      * apply IH; [intros; apply Hb; now right | exact Hd' |].
        intros w m Hw Hm. apply in_app_iff in Hm. destruct Hm as [Hm|Hm].
        -- apply Hf; [now right | exact Hm].
        -- destruct Hm as [<-|[]]. cbn. intros Eid. apply Hv.
           rewrite Eid. now apply in_map.
  - exfalso. destruct (Hb v (or_introl eq_refl)) as (b & Hin & En).
    unfold Seed.brand_id in E.
    destruct (find (fun b0 => JsString.eqb (Brand.name b0) (Seed.brand v))
                brands) eqn:F; [discriminate|].
    pose proof (find_none _ _ F b Hin) as Hn. cbn in Hn.
    rewrite En, JsString_eqb_refl in Hn. discriminate.
Qed.

Lemma seed_succeeds_witness :
  exists table',
    Seed.insert_models [Example.bmw; Example.audi]
      [{| Seed.brand := js "BMW"; Seed.name := js "3 Series";
          Seed.new_id := js "id-1" |};
       {| Seed.brand := js "BMW"; Seed.name := js "3 Series";
          Seed.new_id := js "id-2" |}] [Example.a4] = inr table'.
Proof.
  apply seed_succeeds.
  - intros v [<-|[<-|[]]]; exists Example.bmw; split;
      try reflexivity; now left.
  - repeat constructor; cbn; intuition discriminate.
  - intros v m [<-|[<-|[]]] [<-|[]]; vm_compute; discriminate.
Defined.
